(** * Photo-booth strip compositor: filters, stickers, layout and export.

    A shallow embedding of the compositing code of the photo-booth
    application:

    - [types/filters.ts]   : the tables [BASIC_FILTERS], [ADVANCED_FILTERS]
                             and the [AppliedFilters] record;
    - [FilterPanel.tsx]    : the three state transitions of the filter panel,
                             the range input that feeds the advanced one
                             and the value shown by each slider;
    - class [ImageProcessor] : [applyFilters] and [addStickers];
    - [PhotoCanvas.tsx]    : [getImageStyle] (preview),
                             [drawStripToCanvas] (export) and the early
                             return that decides whether the export canvas
                             is mounted;
    - further on           : the sticker panel's and the page's sticker
                             handlers, the canvas component's keyboard and
                             mouse handlers and its preview boxes, and
                             [addFrame], [createPhotoStrip] and
                             [generateFilename] of the processor.

    Conventions.  JavaScript numbers that the code only stores, compares and
    prints (slider values, z-indices, pixel sizes of decoded images) are
    integers of [Z]; numbers that go through division (canvas coordinates,
    crop windows) are rationals of [Q], so every arithmetic step is exact
    and statements about them use [==].  The code computes in
    double-precision numbers, which agree with the exact ones on whole
    numbers of magnitude up to 2^53; a statement that needs a sum or a
    quotient to be exact is made for such inputs and says so.  A 2D canvas is a record holding
    the drawing state, the stack of saved states and the chronological list
    of drawing commands issued so far; each command records the part of the
    drawing state that determines its pixels (fill style, filter, current
    transform), so two canvases with equal command lists hold equal bitmaps.
    Image decoding and the clock are inputs of the render ([Env]). *)

From Stdlib Require Import String Ascii List Bool Arith ZArith QArith Qround Lia.
From Stdlib Require Import DecimalString Permutation Sorted Lqa.
Import ListNotations.

Open Scope string_scope.

(* ================================================================== *)
(** ** JavaScript helpers *)
(* ================================================================== *)

Module JS.

(** Template-literal printing of an integer number, [`${value}`]: plain
    decimal digits.  JavaScript prints an integer this way while its
    magnitude is below 10^21 and switches to exponent notation from there
    on; the numbers printed by the code modelled here (slider values kept
    within their declared bounds, millisecond time stamps) are far below
    that, and a statement that depends on the digits printed says which
    values it is about. *)
Definition show (z : Z) : string := NilZero.string_of_int (Z.to_int z).

(** White space removed by [String.prototype.trim] (ASCII part). *)
Definition isWhitespace (c : ascii) : bool :=
  let n := nat_of_ascii c in
  (Nat.eqb n 32 || (Nat.leb 9 n && Nat.leb n 13))%bool.

Fixpoint trimStart (s : string) : string :=
  match s with
  | EmptyString => EmptyString
  | String c s' => if isWhitespace c then trimStart s' else s
  end.

Fixpoint trimEnd (s : string) : string :=
  match s with
  | EmptyString => EmptyString
  | String c s' =>
      match trimEnd s' with
      | EmptyString => if isWhitespace c then EmptyString else String c EmptyString
      | t => String c t
      end
  end.

Definition trim (s : string) : string := trimEnd (trimStart s).

(** Truthiness of a string that may be [undefined]. *)
Definition truthy (v : option string) : bool :=
  match v with
  | Some s => negb (String.eqb s "")
  | None => false
  end.

(** [a || b] on such values. *)
Definition or (a b : option string) : option string :=
  if truthy a then a else b.

(** [s || d] where [s] is a string. *)
Definition orString (s d : string) : string :=
  if String.eqb s "" then d else s.

(** [n || d] where [n] is a number that may be [undefined]:
    [undefined] and [0] are falsy. *)
Definition orNumber (n : option Z) (d : Z) : Z :=
  match n with
  | Some v => if Z.eqb v 0 then d else v
  | None => d
  end.

(** [Math.round]: the nearest integer, halves rounded up. *)
Definition Math_round (q : Q) : Z := Qfloor (q + (1 # 2))%Q.

(** [a > b] on numbers. *)
Definition gt (a b : Q) : bool := negb (Qle_bool a b).

(** [Array.prototype.find]. *)
Definition find {A} (p : A -> bool) (l : list A) : option A := List.find p l.

(** A plain object whose keys are strings other than array indices, as
    [Object.entries] enumerates it: the keys in insertion order, each
    once. *)
Definition object (V : Type) := list (string * V).

Fixpoint get {V} (o : object V) (k : string) : option V :=
  match o with
  | [] => None
  | (k', v) :: o' => if String.eqb k' k then Some v else get o' k
  end.

(** [{...o, [k]: v}]: an existing key keeps its place and takes the new
    value, a new key goes last. *)
Fixpoint set {V} (o : object V) (k : string) (v : V) : object V :=
  match o with
  | [] => [(k, v)]
  | (k', v') :: o' =>
      if String.eqb k' k then (k', v) :: o' else (k', v') :: set o' k v
  end.

Definition keys {V} (o : object V) : list string := map fst o.

End JS.

(* ================================================================== *)
(** ** types/filters.ts *)
(* ================================================================== *)

Record BasicFilter := mkBasicFilter {
  bf_name : string;
  bf_value : string;
  bf_label : string
}.

Record AdvancedFilter := mkAdvancedFilter {
  af_name : string;
  af_min : Z;
  af_max : Z;
  af_defaultValue : Z;
  af_unit : string;
  af_label : string
}.

Record AppliedFilters := mkAppliedFilters {
  basic : list string;
  advanced : JS.object Z
}.

Definition BASIC_FILTERS : list BasicFilter :=
  [ mkBasicFilter "none" "none" "Original";
    mkBasicFilter "grayscale" "grayscale(100%)" "Grayscale";
    mkBasicFilter "sepia" "sepia(100%)" "Sepia";
    mkBasicFilter "invert" "invert(100%)" "Invert";
    mkBasicFilter "blur" "blur(2px)" "Blur";
    mkBasicFilter "brightness" "brightness(150%)" "Bright";
    mkBasicFilter "contrast" "contrast(150%)" "High Contrast";
    mkBasicFilter "saturate" "saturate(200%)" "Vibrant";
    mkBasicFilter "hue-rotate" "hue-rotate(90deg)" "Color Shift" ].

(** The [step] field only configures the slider widget and is left out;
    the blur slider moves in steps of 0.1, the values modelled here are its
    integer positions. *)
Definition ADVANCED_FILTERS : list AdvancedFilter :=
  [ mkAdvancedFilter "brightness" 0 300 100 "%" "Brightness";
    mkAdvancedFilter "contrast" 0 300 100 "%" "Contrast";
    mkAdvancedFilter "saturate" 0 300 100 "%" "Saturation";
    mkAdvancedFilter "blur" 0 10 0 "px" "Blur";
    mkAdvancedFilter "hue-rotate" 0 360 0 "deg" "Hue";
    mkAdvancedFilter "opacity" 0 100 100 "%" "Opacity" ].

Definition findBasic (name : string) : option BasicFilter :=
  JS.find (fun f => String.eqb (bf_name f) name) BASIC_FILTERS.

Definition findAdvanced (name : string) : option AdvancedFilter :=
  JS.find (fun f => String.eqb (af_name f) name) ADVANCED_FILTERS.

(* ================================================================== *)
(** ** components/editing/FilterPanel.tsx *)
(* ================================================================== *)

Module FilterPanel.

(** [appliedFilters.basic.includes(filterName)] *)
Definition includes (l : list string) (x : string) : bool :=
  existsb (String.eqb x) l.

(** Each handler hands the new [AppliedFilters] to [onFiltersChange];
    the handler is modelled by the value it hands over. *)
Definition handleBasicFilterToggle (appliedFilters : AppliedFilters)
    (filterName : string) : AppliedFilters :=
  let newBasicFilters :=
    if includes (basic appliedFilters) filterName
    then filter (fun f => negb (String.eqb f filterName)) (basic appliedFilters)
    else (basic appliedFilters ++ [filterName])%list in
  mkAppliedFilters newBasicFilters (advanced appliedFilters).

Definition handleAdvancedFilterChange (appliedFilters : AppliedFilters)
    (filterName : string) (value : Z) : AppliedFilters :=
  let newAdvancedFilters := JS.set (advanced appliedFilters) filterName value in
  mkAppliedFilters (basic appliedFilters) newAdvancedFilters.

Definition handleReset : AppliedFilters := mkAppliedFilters [] [].

(** The slider position and the number printed next to the label:
    [appliedFilters.advanced[filter.name] || filter.defaultValue]. *)
Definition sliderValue (appliedFilters : AppliedFilters)
    (filter : AdvancedFilter) : Z :=
  JS.orNumber (JS.get (advanced appliedFilters) (af_name filter))
              (af_defaultValue filter).

Definition sliderLabel (appliedFilters : AppliedFilters)
    (filter : AdvancedFilter) : string :=
  JS.show (sliderValue appliedFilters filter) ++ af_unit filter.

End FilterPanel.

(** [needle] occurs somewhere in [hay]. *)
Definition occursIn (needle hay : string) : Prop :=
  exists pre post, hay = pre ++ needle ++ post.

(** What "clamped to the declared bounds" means. *)
Definition clamp (v lo hi : Z) : Z := Z.max lo (Z.min v hi).

(** Every stored advanced value of a declared filter lies within the
    bounds declared for it. *)
Definition withinDeclaredBounds (a : AppliedFilters) : Prop :=
  forall name v f,
    In (name, v) (advanced a) ->
    findAdvanced name = Some f ->
    (af_min f <= v <= af_max f)%Z.

(** *** The range input of an advanced filter *)

(** The value an [input type="range"] with the attributes [min] and [max]
    holds once it is asked to take the value [requested], by the pointer,
    the keyboard or a script: a value under [min] becomes [min], and a value
    over [max] becomes [max] unless [max] is less than [min].  The values
    are whole numbers, which match the step of each of the six sliders, so
    no rounding to a step remains; the blur slider's positions between two
    whole numbers are not covered. *)
Definition rangeValue (min max requested : Z) : Z :=
  if (requested <? min)%Z then min
  else if ((min <=? max)%Z && (max <? requested)%Z)%bool then max
  else requested.

(** The [onChange] of the slider rendered for [filter]:
    [handleAdvancedFilterChange(filter.name, parseFloat(e.target.value))],
    where [e.target.value] is the value the range input holds. *)
Definition sliderChange (appliedFilters : AppliedFilters) (filter : AdvancedFilter)
    (requested : Z) : AppliedFilters :=
  FilterPanel.handleAdvancedFilterChange appliedFilters (af_name filter)
    (rangeValue (af_min filter) (af_max filter) requested).

(** What the user can do to the filters: the panel renders one button per
    basic filter, one slider per entry of [ADVANCED_FILTERS] and the reset
    button, and nothing else changes the applied filters. *)
Inductive PanelEvent :=
| ToggleBasic (filterName : string)
| MoveSlider (filter : AdvancedFilter) (requested : Z)
| ResetAll.

Definition panelStep (appliedFilters : AppliedFilters) (e : PanelEvent) : AppliedFilters :=
  match e with
  | ToggleBasic filterName => FilterPanel.handleBasicFilterToggle appliedFilters filterName
  | MoveSlider filter requested => sliderChange appliedFilters filter requested
  | ResetAll => FilterPanel.handleReset
  end.

(** The page starts with [{ basic: [], advanced: {} }], the value reset
    gives. *)
Definition panelRun (events : list PanelEvent) : AppliedFilters :=
  fold_left panelStep events FilterPanel.handleReset.

(** The slider moved is one the panel renders. *)
Definition rendered (e : PanelEvent) : Prop :=
  match e with
  | MoveSlider filter _ => In filter ADVANCED_FILTERS
  | _ => True
  end.

(* ================================================================== *)
(** ** types/photo.ts *)
(* ================================================================== *)

Record Sticker := mkSticker {
  st_id : string;
  st_src : string;
  st_name : string;
  st_x : Q;
  st_y : Q;
  st_width : Q;
  st_height : Q;
  st_rotation : Q;
  zIndex : Z
}.

(** Of a [Photo] the compositor reads the two bitmap sources only. *)
Record Photo := mkPhoto {
  ph_id : string;
  originalSrc : string;
  processedSrc : option string
}.

(** The [photo] property of the canvas component: [Photo | Photo[]]. *)
Inductive PhotoProp :=
| OnePhoto (p : Photo)
| PhotoArray (ps : list Photo).

Record FrameLayout := mkFrameLayout {
  fl_id : string;
  fl_name : string;
  photoCount : nat;
  layout : string
}.

(* ================================================================== *)
(** ** The 2D canvas *)
(* ================================================================== *)

(** A decoded image: where it came from and its pixel size. *)
Record Image := mkImage {
  img_src : string;
  img_width : Z;
  img_height : Z
}.

Inductive FillStyle :=
| Color (css : string)
| LinearGradient (x0 y0 x1 y1 : Q) (stops : list (Q * string)).

(** An angle in radians, kept as a rational multiple of pi. *)
Inductive Angle := PiTimes (q : Q).

Inductive TransformOp :=
| Translate (x y : Q)
| Rotate (a : Angle).

(** The part of the drawing state the code touches.  The current
    transformation matrix is kept as the list of operations applied to the
    identity. *)
Record DrawingState := mkDrawingState {
  fillStyle : FillStyle;
  font : string;
  textAlign : string;
  ctxFilter : string;
  transform : list TransformOp
}.

Record Rect := mkRect { rx : Q; ry : Q; rw : Q; rh : Q }.

(** A drawing command together with the drawing state in force when it
    was issued.  [DrawImage] covers the three forms of [drawImage]: the
    crop window is [None] unless given, the destination size is the
    image's own unless given. *)
Inductive DrawCmd :=
| FillRect (s : DrawingState) (r : Rect)
| DrawImage (s : DrawingState) (img : Image) (crop : option Rect) (dest : Rect)
| FillText (s : DrawingState) (text : string) (x y : Q).

Record Canvas := mkCanvas {
  cv_width : Q;
  cv_height : Q;
  has2d : bool;                    (* whether getContext('2d') succeeds *)
  state : DrawingState;
  saved : list DrawingState;       (* save() / restore() stack *)
  pixels : list DrawCmd            (* commands drawn so far, oldest first *)
}.

Module Ctx.

Definition defaultState : DrawingState :=
  mkDrawingState (Color "#000000") "10px sans-serif" "start" "none" [].

(** Assigning [canvas.width] or [canvas.height] clears the bitmap and
    resets the context to its default state. *)
Definition setWidth (w : Q) (c : Canvas) : Canvas :=
  mkCanvas w (cv_height c) (has2d c) defaultState [] [].

Definition setHeight (h : Q) (c : Canvas) : Canvas :=
  mkCanvas (cv_width c) h (has2d c) defaultState [] [].

Definition withState (f : DrawingState -> DrawingState) (c : Canvas) : Canvas :=
  mkCanvas (cv_width c) (cv_height c) (has2d c) (f (state c)) (saved c) (pixels c).

Definition setFillStyle (v : FillStyle) : Canvas -> Canvas :=
  withState (fun s => mkDrawingState v (font s) (textAlign s) (ctxFilter s) (transform s)).

Definition setFont (v : string) : Canvas -> Canvas :=
  withState (fun s => mkDrawingState (fillStyle s) v (textAlign s) (ctxFilter s) (transform s)).

Definition setTextAlign (v : string) : Canvas -> Canvas :=
  withState (fun s => mkDrawingState (fillStyle s) (font s) v (ctxFilter s) (transform s)).

Definition setFilter (v : string) : Canvas -> Canvas :=
  withState (fun s => mkDrawingState (fillStyle s) (font s) (textAlign s) v (transform s)).

Definition translate (x y : Q) : Canvas -> Canvas :=
  withState (fun s => mkDrawingState (fillStyle s) (font s) (textAlign s) (ctxFilter s)
                        (transform s ++ [Translate x y])%list).

Definition rotate (a : Angle) : Canvas -> Canvas :=
  withState (fun s => mkDrawingState (fillStyle s) (font s) (textAlign s) (ctxFilter s)
                        (transform s ++ [Rotate a])%list).

Definition save (c : Canvas) : Canvas :=
  mkCanvas (cv_width c) (cv_height c) (has2d c) (state c) (state c :: saved c) (pixels c).

(** [restore] on an empty stack does nothing. *)
Definition restore (c : Canvas) : Canvas :=
  match saved c with
  | [] => c
  | s :: rest => mkCanvas (cv_width c) (cv_height c) (has2d c) s rest (pixels c)
  end.

Definition emit (cmd : DrawCmd) (c : Canvas) : Canvas :=
  mkCanvas (cv_width c) (cv_height c) (has2d c) (state c) (saved c)
           (pixels c ++ [cmd])%list.

Definition fillRect (x y w h : Q) (c : Canvas) : Canvas :=
  emit (FillRect (state c) (mkRect x y w h)) c.

(** [drawImage(img, dx, dy)] *)
Definition drawImage3 (img : Image) (dx dy : Q) (c : Canvas) : Canvas :=
  emit (DrawImage (state c) img None
          (mkRect dx dy (inject_Z (img_width img)) (inject_Z (img_height img)))) c.

(** [drawImage(img, dx, dy, dw, dh)] *)
Definition drawImage5 (img : Image) (dx dy dw dh : Q) (c : Canvas) : Canvas :=
  emit (DrawImage (state c) img None (mkRect dx dy dw dh)) c.

(** [drawImage(img, sx, sy, sw, sh, dx, dy, dw, dh)] *)
Definition drawImage9 (img : Image) (sx sy sw sh dx dy dw dh : Q) (c : Canvas) : Canvas :=
  emit (DrawImage (state c) img (Some (mkRect sx sy sw sh)) (mkRect dx dy dw dh)) c.

Definition fillText (text : string) (x y : Q) (c : Canvas) : Canvas :=
  emit (FillText (state c) text x y) c.

End Ctx.

(** What a render takes from outside: the outcome of decoding each image
    source (its pixel size, or [None] when the load is rejected) and the two
    strings the clock yields for the footer.  One source decodes the same
    way each time it is loaded during a render. *)
Record Env := mkEnv {
  decode : string -> option (Z * Z);
  toLocaleDateString : string;
  toLocaleTimeString : string
}.

(** [new Image()], [img.src = src], then wait for [onload] or [onerror]. *)
Definition loadImage (env : Env) (src : string) : option Image :=
  match decode env src with
  | Some (w, h) => Some (mkImage src w h)
  | None => None
  end.

(** The images drawn, in drawing order, by their sources. *)
Definition drawnSources (cmds : list DrawCmd) : list string :=
  flat_map (fun cmd => match cmd with
                       | DrawImage _ img _ _ => [img_src img]
                       | _ => []
                       end) cmds.

(** The filter in force at each image draw, in drawing order. *)
Definition drawnFilters (cmds : list DrawCmd) : list string :=
  flat_map (fun cmd => match cmd with
                       | DrawImage s _ _ _ => [ctxFilter s]
                       | _ => []
                       end) cmds.

(** The scoped drawing of one decoded sticker image, as both renderers
    write it: save, move to the sticker's centre, rotate, draw centred,
    restore. *)
Definition stickerCenterX (s : Sticker) : Q := st_x s + st_width s / 2.
Definition stickerCenterY (s : Sticker) : Q := st_y s + st_height s / 2.
Definition stickerAngle (s : Sticker) : Angle := PiTimes (st_rotation s / 180).

(* ================================================================== *)
(** ** The class [ImageProcessor] *)
(* ================================================================== *)

Module ImageProcessor.

(** How a returned promise ends: with the source it was given, with the
    data URL of the canvas (kept as the canvas itself), or never. *)
Inductive Resolved :=
| Unchanged (imageSrc : string)
| DataURL (c : Canvas)
| Pending.

Definition basicStep (filterString filterName : string) : string :=
  match findBasic filterName with
  | Some f => filterString ++ (bf_value f ++ " ")
  | None => filterString
  end.

Definition advancedStep (filterString : string) (entry : string * Z) : string :=
  let (name, value) := entry in
  match findAdvanced name with
  | Some f => filterString ++ (name ++ "(" ++ JS.show value ++ af_unit f ++ ") ")
  | None => filterString
  end.

(** The string built by the two [forEach] loops of [applyFilters]. *)
Definition filterString (filters : AppliedFilters) : string :=
  fold_left advancedStep (advanced filters)
    (fold_left basicStep (basic filters) "").

(** [this.canvas] is [null] outside a browser.  The assignment to
    [ctx.filter] is taken to succeed; a browser keeps the previous value when
    the string is not a filter list (the empty string, for one). *)
Definition applyFilters (env : Env) (canvas : option Canvas)
    (imageSrc : string) (filters : AppliedFilters) : Resolved :=
  match canvas with
  | None => Unchanged imageSrc
  | Some c =>
      if negb (has2d c) then Unchanged imageSrc else
      match loadImage env imageSrc with
      | None => Pending                       (* onload never fires *)
      | Some img =>
          let c := Ctx.setWidth (inject_Z (img_width img)) c in
          let c := Ctx.setHeight (inject_Z (img_height img)) c in
          let c := Ctx.setFilter (JS.trim (filterString filters)) c in
          let c := Ctx.drawImage3 img 0 0 c in
          DataURL c
      end
  end.

(** [[...stickers].sort((a, b) => a.zIndex - b.zIndex)]: a stable sort,
    written as insertion from the right. *)
Fixpoint insertByZIndex (s : Sticker) (l : list Sticker) : list Sticker :=
  match l with
  | [] => [s]
  | t :: l' =>
      if (zIndex s <=? zIndex t)%Z then s :: t :: l' else t :: insertByZIndex s l'
  end.

Definition sortByZIndex (stickers : list Sticker) : list Sticker :=
  fold_right insertByZIndex [] stickers.

(** The body of [stickerImg.onload]. *)
Definition stickerOnload (sticker : Sticker) (stickerImg : Image) (c : Canvas) : Canvas :=
  let c := Ctx.save c in
  let c := Ctx.translate (stickerCenterX sticker) (stickerCenterY sticker) c in
  let c := Ctx.rotate (stickerAngle sticker) c in
  let c := Ctx.drawImage5 stickerImg
             (- st_width sticker / 2) (- st_height sticker / 2)
             (st_width sticker) (st_height sticker) c in
  Ctx.restore c.

(** One step of [sortedStickers.forEach]: the canvas and the counter
    [loadedStickers].  A sticker whose image does not decode never runs
    its [onload].  The callbacks run in the order the loads were
    started. *)
Definition stickerStep (env : Env) (acc : Canvas * nat) (sticker : Sticker)
    : Canvas * nat :=
  let (c, loadedStickers) := acc in
  match loadImage env (st_src sticker) with
  | None => (c, loadedStickers)
  | Some stickerImg => (stickerOnload sticker stickerImg c, S loadedStickers)
  end.

Definition addStickers (env : Env) (canvas : option Canvas)
    (imageSrc : string) (stickers : list Sticker) : Resolved :=
  match canvas with
  | None => Unchanged imageSrc
  | Some c =>
      if negb (has2d c) then Unchanged imageSrc else
      match loadImage env imageSrc with
      | None => Pending
      | Some img =>
          let c := Ctx.setWidth (inject_Z (img_width img)) c in
          let c := Ctx.setHeight (inject_Z (img_height img)) c in
          let c := Ctx.drawImage3 img 0 0 c in
          let sortedStickers := sortByZIndex stickers in
          let (c, loadedStickers) := fold_left (stickerStep env) sortedStickers (c, 0%nat) in
          if Nat.eqb loadedStickers (length sortedStickers)
          then DataURL c
          else Pending
      end
  end.

End ImageProcessor.

(* ================================================================== *)
(** ** components/editing/PhotoCanvas.tsx *)
(* ================================================================== *)

Module PhotoCanvas.

(** [const photos = Array.isArray(photo) ? photo : [photo]] *)
Definition photos (photo : PhotoProp) : list Photo :=
  match photo with
  | OnePhoto p => [p]
  | PhotoArray ps => ps
  end.

(** [photos[0]], which is [undefined] for an empty array. *)
Definition primaryPhoto (photo : PhotoProp) : option Photo :=
  nth_error (photos photo) 0.

(** [p?.originalSrc] *)
Definition srcOf (p : option Photo) : option string := option_map originalSrc p.

(** *** The preview: [getImageStyle] *)

Definition basicCss (basicFilter : string) : string :=
  if String.eqb basicFilter "grayscale" then "grayscale(100%) "
  else if String.eqb basicFilter "sepia" then "sepia(100%) "
  else if String.eqb basicFilter "blur" then "blur(2px) "
  else if String.eqb basicFilter "brightness" then "brightness(1.2) "
  else if String.eqb basicFilter "contrast" then "contrast(1.2) "
  else if String.eqb basicFilter "saturate" then "saturate(1.5) "
  else if String.eqb basicFilter "hue-rotate" then "hue-rotate(90deg) "
  else if String.eqb basicFilter "invert" then "invert(100%) "
  else "".

Definition advancedCss (entry : string * Z) : string :=
  let (key, value) := entry in
  if String.eqb key "brightness" then "brightness(" ++ JS.show value ++ "%) "
  else if String.eqb key "contrast" then "contrast(" ++ JS.show value ++ "%) "
  else if String.eqb key "saturate" then "saturate(" ++ JS.show value ++ "%) "
  else if String.eqb key "blur" then "blur(" ++ JS.show value ++ "px) "
  else "".

(** The variable [filter] after the two loops. *)
Definition styleFilter (appliedFilters : AppliedFilters) : string :=
  fold_left (fun filter entry => filter ++ advancedCss entry)
    (advanced appliedFilters)
    (fold_left (fun filter basicFilter => filter ++ basicCss basicFilter)
       (basic appliedFilters) "").

(** The [filter] property of the returned style object. *)
Definition getImageStyle (appliedFilters : AppliedFilters) : string :=
  JS.orString (JS.trim (styleFilter appliedFilters)) "none".

(** *** The component's early return *)

Inductive View :=
| NoPhotoAvailable      (* the grey box that says there is no photo *)
| StripEditor.          (* the strip preview with its buttons *)

Definition view (photo : PhotoProp) : View :=
  if JS.truthy (srcOf (primaryPhoto photo)) then StripEditor else NoPhotoAvailable.

(** *** The export: [drawStripToCanvas] *)

Definition photoCountOf (selectedLayout : option FrameLayout) : nat :=
  match selectedLayout with
  | Some l => if Nat.eqb (photoCount l) 0 then 3%nat else photoCount l
  | None => 3%nat
  end.

Definition layoutOf (selectedLayout : option FrameLayout) : string :=
  match selectedLayout with
  | Some l => JS.orString (layout l) "vertical"
  | None => "vertical"
  end.

Definition ofNat (n : nat) : Q := inject_Z (Z.of_nat n).

(** [canvasWidth] and [canvasHeight]. *)
Definition canvasSize (photoCount : nat) (layout : string) : Q * Q :=
  if Nat.eqb photoCount 1 then (200, 100)
  else if String.eqb layout "horizontal" then (420, 200)
  else if String.eqb layout "grid" then (320, 320)
  else
    let boxWidth := 420 in
    let boxHeight := inject_Z (JS.Math_round (boxWidth * 9 / 13)) in
    let topMargin := 40 in
    (480, topMargin + (boxHeight * ofNat photoCount) + (ofNat photoCount - 1) + 350).

Definition background (layout stripColor : string) (canvasWidth canvasHeight : Q)
    : FillStyle :=
  if String.eqb layout "grid" then Color "#f8f9fa"
  else if String.eqb layout "horizontal" then
    LinearGradient 0 0 canvasWidth canvasHeight [(0, "#ffffff"); (1, "#f8f9fa")]
  else if String.eqb layout "vertical" then Color stripColor
  else Color "#ffffff".

(** [photoSrc] of slot [i]. *)
Definition photoSrc (photo : PhotoProp) (i : nat) : option string :=
  match photo with
  | PhotoArray ps =>
      JS.or (JS.or (srcOf (nth_error ps i)) (srcOf (nth_error ps 0)))
            (srcOf (primaryPhoto photo))
  | OnePhoto _ => srcOf (primaryPhoto photo)
  end.

Definition targetAspect : Q := 3 / 2.

(** The crop window [(sx, sy, sWidth, sHeight)] of the vertical layout. *)
Definition cropWindow (img : Image) : Rect :=
  let width := inject_Z (img_width img) in
  let height := inject_Z (img_height img) in
  let imgAspect := width / height in
  if JS.gt imgAspect targetAspect then
    let sHeight := height in
    let sWidth := height * targetAspect in
    mkRect ((width - sWidth) / 2) 0 sWidth sHeight
  else
    let sWidth := width in
    let sHeight := width / targetAspect in
    mkRect 0 ((height - sHeight) / 2) sWidth sHeight.

(** The body of the [try] for slot [i], once the image is decoded. *)
Definition drawPhoto (layout : string) (photoCount : nat)
    (canvasWidth canvasHeight : Q) (i : nat) (img : Image) (c : Canvas) : Canvas :=
  if String.eqb layout "vertical" then
    let boxWidth := 420 in
    let boxHeight := inject_Z (JS.Math_round (boxWidth * 2 / 3)) in
    let spacing := 17 in
    let topMargin := 40 in
    let x := (canvasWidth - boxWidth) / 2 in
    let y := topMargin + ofNat i * (boxHeight + spacing) in
    let w := cropWindow img in
    let c := Ctx.setFillStyle (Color "#fff") c in
    let c := Ctx.fillRect x y boxWidth boxHeight c in
    Ctx.drawImage9 img (rx w) (ry w) (rw w) (rh w) x y boxWidth boxHeight c
  else if String.eqb layout "grid" then
    let col := ofNat (i mod 2) in
    let row := ofNat (i / 2) in
    let x := 16 + col * 160 in
    let y := 16 + row * 160 in
    let width := 128 in
    let height := 128 in
    let c := Ctx.setFillStyle (Color "#fff") c in
    let c := Ctx.fillRect x y width height c in
    Ctx.drawImage5 img x y width height c
  else if String.eqb layout "horizontal" then
    let photoWidth := (canvasWidth - 16) / ofNat photoCount in
    let x := 8 + (ofNat i * photoWidth) in
    let y := 8 in
    let width := photoWidth - 4 in
    let height := canvasHeight - 40 in
    let c := Ctx.setFillStyle (Color "#fff") c in
    let c := Ctx.fillRect x y width height c in
    Ctx.drawImage5 img x y width height c
  else if Nat.eqb photoCount 1 then
    let x := 12 in
    let y := 12 in
    let width := canvasWidth - 24 in
    let height := 400 in
    let c := Ctx.setFillStyle (Color "#fff") c in
    let c := Ctx.fillRect x y width height c in
    Ctx.drawImage5 img x y width height c
  else c.

(** One turn of the loop over the slots. *)
Definition drawSlot (env : Env) (photo : PhotoProp) (layout : string)
    (photoCount : nat) (canvasWidth canvasHeight : Q) (c : Canvas) (i : nat) : Canvas :=
  let src := photoSrc photo i in
  if negb (JS.truthy src) then c else       (* continue *)
  match src with
  | None => c
  | Some photoSrc =>
      match loadImage env photoSrc with
      | None => c                             (* caught and logged *)
      | Some img => drawPhoto layout photoCount canvasWidth canvasHeight i img c
      end
  end.

(** One turn of the loop over the stickers.  The load is awaited before
    [save]; drawing a decoded image does not throw. *)
Definition drawSticker (env : Env) (c : Canvas) (sticker : Sticker) : Canvas :=
  match loadImage env (st_src sticker) with
  | None => c                                 (* caught and logged *)
  | Some stickerImg =>
      let c := Ctx.save c in
      let c := Ctx.translate (stickerCenterX sticker) (stickerCenterY sticker) c in
      let c := Ctx.rotate (stickerAngle sticker) c in
      let c := Ctx.drawImage5 stickerImg
                 (- st_width sticker / 2) (- st_height sticker / 2)
                 (st_width sticker) (st_height sticker) c in
      Ctx.restore c
  end.

Definition footerText (env : Env) : string :=
  "Adelaide - " ++ toLocaleDateString env ++ ", " ++ toLocaleTimeString env.

(** Sizing the canvas and filling the background. *)
Definition drawBackground (layout stripColor : string) (canvasWidth canvasHeight : Q)
    (canvas : Canvas) : Canvas :=
  let c := Ctx.setWidth canvasWidth canvas in
  let c := Ctx.setHeight canvasHeight c in
  let c := Ctx.setFillStyle (background layout stripColor canvasWidth canvasHeight) c in
  Ctx.fillRect 0 0 canvasWidth canvasHeight c.

(** The caption under the photos. *)
Definition drawFooter (env : Env) (canvasWidth canvasHeight : Q) (c : Canvas) : Canvas :=
  let c := Ctx.setFillStyle (Color "#6b7280") c in
  let c := Ctx.setFont "17px Arial" c in
  let c := Ctx.setTextAlign "center" c in
  Ctx.fillText (footerText env) (canvasWidth / 2) (canvasHeight - 73) c.

(** [exportCanvasRef] is the hidden canvas element, if mounted.
    [appliedFilters] is among the values the callback closes over. *)
Definition drawStripToCanvas (env : Env) (exportCanvasRef : option Canvas)
    (photo : PhotoProp) (selectedLayout : option FrameLayout)
    (stickers : list Sticker) (appliedFilters : AppliedFilters)
    (stripColor : string) : option Canvas :=
  match exportCanvasRef with
  | None => None
  | Some canvas =>
      if negb (has2d canvas) then None else
      let photoCount := photoCountOf selectedLayout in
      let layout := layoutOf selectedLayout in
      let (canvasWidth, canvasHeight) := canvasSize photoCount layout in
      let c := drawBackground layout stripColor canvasWidth canvasHeight canvas in
      let c := fold_left (drawSlot env photo layout photoCount canvasWidth canvasHeight)
                 (seq 0 photoCount) c in
      let c := fold_left (drawSticker env) stickers c in
      let c := drawFooter env canvasWidth canvasHeight c in
      Some c
  end.

End PhotoCanvas.

(* ================================================================== *)
(** ** The sticker panel and the page's sticker handlers *)
(* ================================================================== *)

(** [Partial<Sticker>]: the properties an update names. *)
Record StickerUpdates := mkStickerUpdates {
  u_id : option string;
  u_src : option string;
  u_name : option string;
  u_x : option Q;
  u_y : option Q;
  u_width : option Q;
  u_height : option Q;
  u_rotation : option Q;
  u_zIndex : option Z
}.

Definition orElse {A} (o : option A) (d : A) : A :=
  match o with
  | Some v => v
  | None => d
  end.

(** [{ ...s, ...updates }] *)
Definition applyUpdates (s : Sticker) (updates : StickerUpdates) : Sticker :=
  mkSticker (orElse (u_id updates) (st_id s)) (orElse (u_src updates) (st_src s))
    (orElse (u_name updates) (st_name s)) (orElse (u_x updates) (st_x s))
    (orElse (u_y updates) (st_y s)) (orElse (u_width updates) (st_width s))
    (orElse (u_height updates) (st_height s)) (orElse (u_rotation updates) (st_rotation s))
    (orElse (u_zIndex updates) (zIndex s)).

Definition noUpdates : StickerUpdates :=
  mkStickerUpdates None None None None None None None None None.

Module StickerPanel.

Record StickerData := mkStickerData {
  sd_id : string;
  sd_src : string;
  sd_name : string;
  sd_category : string
}.

Definition SAMPLE_STICKERS : list StickerData :=
  [ mkStickerData "emoji-1" "/stickers/emoji-1.png" "Smile" "emoji";
    mkStickerData "emoji-2" "/stickers/emoji-2.png" "Heart" "emoji";
    mkStickerData "emoji-3" "/stickers/emoji-3.png" "Star" "emoji";
    mkStickerData "text-1" "/stickers/text-1.png" "Love" "text";
    mkStickerData "text-2" "/stickers/text-2.png" "Fun" "text";
    mkStickerData "decoration-1" "/stickers/decoration-1.png" "Flower" "decoration";
    mkStickerData "decoration-2" "/stickers/decoration-2.png" "Crown" "decoration" ].

(** The sticker handed to [onAddSticker]; [now] is [Date.now()]. *)
Definition handleAddSticker (stickers : list Sticker) (now : Z)
    (stickerData : StickerData) : Sticker :=
  mkSticker (sd_id stickerData ++ "-" ++ JS.show now) (sd_src stickerData)
    (sd_name stickerData) 100 100 60 60 0 (Z.of_nat (length stickers) + 1).

End StickerPanel.

Module Page.

(** [setStickers(prev => [...prev, sticker])] *)
Definition handleAddSticker (prev : list Sticker) (sticker : Sticker) : list Sticker :=
  (prev ++ [sticker])%list.

(** [setStickers(prev => prev.filter(s => s.id !== stickerId))] *)
Definition handleRemoveSticker (prev : list Sticker) (stickerId : string) : list Sticker :=
  filter (fun s => negb (String.eqb (st_id s) stickerId)) prev.

(** [setStickers(prev => prev.map(s => s.id === stickerId ? { ...s, ...updates } : s))] *)
Definition handleUpdateSticker (prev : list Sticker) (stickerId : string)
    (updates : StickerUpdates) : list Sticker :=
  map (fun s => if String.eqb (st_id s) stickerId then applyUpdates s updates else s) prev.

End Page.

(* ================================================================== *)
(** ** The canvas component: selection, keyboard, mouse and preview *)
(* ================================================================== *)

Module Editor.

(** [stickers.find(s => s.id === selectedSticker)] *)
Definition findSticker (stickers : list Sticker) (id : string) : option Sticker :=
  JS.find (fun s => String.eqb (st_id s) id) stickers.

Definition withX (s : Sticker) (x : Q) : Sticker :=
  mkSticker (st_id s) (st_src s) (st_name s) x (st_y s) (st_width s) (st_height s)
    (st_rotation s) (zIndex s).

Definition withY (s : Sticker) (y : Q) : Sticker :=
  mkSticker (st_id s) (st_src s) (st_name s) (st_x s) y (st_width s) (st_height s)
    (st_rotation s) (zIndex s).

(** The [keydown] listener.  The result is the sticker list handed to
    [onPhotoUpdate], if the listener calls it, and the selection after the
    event.  The arrow keys add and subtract 5 exactly; the code's
    double-precision numbers do the same on whole-number coordinates of
    magnitude up to 2^52 and round on others, so the statements about the
    arrow keys are made for whole-number coordinates. *)
Definition handleKeyDown (selectedSticker : option string) (stickers : list Sticker)
    (key : string) : option (list Sticker) * option string :=
  if negb (JS.truthy selectedSticker) then (None, selectedSticker) else
  match selectedSticker with
  | None => (None, selectedSticker)
  | Some selected =>
      match findSticker stickers selected with
      | None => (None, selectedSticker)
      | Some sticker =>
          let replaceWith updatedSticker :=
            (Some (map (fun s => if String.eqb (st_id s) selected
                                 then updatedSticker else s) stickers),
             selectedSticker) in
          if String.eqb key "ArrowLeft" then replaceWith (withX sticker (st_x sticker - 5))
          else if String.eqb key "ArrowRight" then replaceWith (withX sticker (st_x sticker + 5))
          else if String.eqb key "ArrowUp" then replaceWith (withY sticker (st_y sticker - 5))
          else if String.eqb key "ArrowDown" then replaceWith (withY sticker (st_y sticker + 5))
          else if (String.eqb key "Delete" || String.eqb key "Backspace")%bool then
            (Some (filter (fun s => negb (String.eqb (st_id s) selected)) stickers), None)
          else (None, selectedSticker)
      end
  end.

(** The drag state of the component. *)
Record Drag := mkDrag {
  isDragging : bool;
  dragOffsetX : Q;
  dragOffsetY : Q
}.

(** A mouse event on a sticker element: the pointer and the top left corner
    of the element's bounding rectangle, in viewport coordinates. *)
Record MouseEvent := mkMouseEvent {
  clientX : Q;
  clientY : Q;
  rectLeft : Q;
  rectTop : Q
}.

Definition handleMouseDown (selectedSticker : option string) (drag : Drag)
    (e : MouseEvent) (stickerId : string) : Drag :=
  if (negb (JS.truthy selectedSticker)
      || negb (match selectedSticker with
               | Some id => String.eqb id stickerId
               | None => false
               end))%bool
  then drag
  else mkDrag true (clientX e - rectLeft e) (clientY e - rectTop e).

(** The sticker list handed to [onPhotoUpdate], if any. *)
Definition handleMouseMove (selectedSticker : option string) (drag : Drag)
    (stickers : list Sticker) (e : MouseEvent) : option (list Sticker) :=
  if (negb (isDragging drag) || negb (JS.truthy selectedSticker))%bool then None else
  match selectedSticker with
  | None => None
  | Some selected =>
      match findSticker stickers selected with
      | None => None
      | Some _ =>
          let newX := clientX e - rectLeft e - dragOffsetX drag in
          let newY := clientY e - rectTop e - dragOffsetY drag in
          Some (map (fun s => if String.eqb (st_id s) selected
                              then withY (withX s newX) newY else s) stickers)
      end
  end.

Definition handleMouseUp (drag : Drag) : Drag :=
  mkDrag false (dragOffsetX drag) (dragOffsetY drag).

(** One photo box of the preview: the [img] element's [src] and [filter]
    style, and the sticker elements placed inside the box. *)
Record PreviewSlot := mkPreviewSlot {
  slot_src : option string;
  slot_filter : string;
  slot_stickers : list Sticker
}.

(** The photo boxes [createPhotoStrip] renders. *)
Definition createPhotoStrip (photo : PhotoProp) (selectedLayout : option FrameLayout)
    (stickers : list Sticker) (appliedFilters : AppliedFilters) : list PreviewSlot :=
  let photoCount := PhotoCanvas.photoCountOf selectedLayout in
  let photos := PhotoCanvas.photos photo in
  let primaryPhoto := PhotoCanvas.primaryPhoto photo in
  if Nat.eqb photoCount 1 then
    [mkPreviewSlot (PhotoCanvas.srcOf primaryPhoto)
       (PhotoCanvas.getImageStyle appliedFilters) stickers]
  else
    map (fun index =>
           mkPreviewSlot
             (JS.or (JS.or (PhotoCanvas.srcOf (nth_error photos index))
                           (PhotoCanvas.srcOf (nth_error photos 0)))
                    (PhotoCanvas.srcOf primaryPhoto))
             (PhotoCanvas.getImageStyle appliedFilters) stickers)
        (seq 0 photoCount).

End Editor.

(* ================================================================== *)
(** ** The canvas component: the export canvas and the render call *)
(* ================================================================== *)

Module Download.

(** [exportCanvasRef.current].  The canvas element that carries the ref is
    part of the strip editor, which the early return leaves out: the ref
    holds the element while the editor is shown and [null] while the
    placeholder is. *)
Definition exportCanvasRef (photo : PhotoProp) (element : Canvas) : option Canvas :=
  match PhotoCanvas.view photo with
  | PhotoCanvas.StripEditor => Some element
  | PhotoCanvas.NoPhotoAvailable => None
  end.

(** How an awaited call ends. *)
Inductive Settled (A : Type) :=
| Fulfilled (value : A)
| Rejected (error : string).

Arguments Fulfilled {A} value.
Arguments Rejected {A} error.

(** [await drawStripToCanvas()] in the component.  Every image load is
    awaited inside a [try] and no other statement of the body throws, so
    the promise is fulfilled, with the canvas or with [null]. *)
Definition render (env : Env) (element : Canvas) (photo : PhotoProp)
    (selectedLayout : option FrameLayout) (stickers : list Sticker)
    (appliedFilters : AppliedFilters) (stripColor : string) : Settled (option Canvas) :=
  Fulfilled (PhotoCanvas.drawStripToCanvas env (exportCanvasRef photo element) photo
               selectedLayout stickers appliedFilters stripColor).

End Download.

(* ================================================================== *)
(** ** The class [ImageProcessor]: frames, resizing, strips, file names *)
(* ================================================================== *)

Module Processor.

Import ImageProcessor.

(** [document.createElement('canvas')] with its 2D context. *)
Definition createCanvas : Canvas := mkCanvas 300 150 true Ctx.defaultState [] [].

(** Of a [Frame] the processor reads the image source only. *)
Record Frame := mkFrame {
  fr_id : string;
  fr_name : string;
  fr_src : string
}.

(** [Math.min] *)
Definition Math_min (a b : Q) : Q := if Qle_bool a b then a else b.

(** The placement of a photo of size [iw] x [ih] on a frame of size
    [fw] x [fh]: [scale], then [(x, y, scaledWidth, scaledHeight)]. *)
Definition frameScale (fw fh iw ih : Q) : Q :=
  Math_min ((fw * (8 # 10)) / iw) ((fh * (8 # 10)) / ih).

Definition framePlacement (fw fh iw ih : Q) : Rect :=
  let scale := frameScale fw fh iw ih in
  let scaledWidth := iw * scale in
  let scaledHeight := ih * scale in
  let x := (fw - scaledWidth) / 2 in
  let y := (fh - scaledHeight) / 2 in
  mkRect x y scaledWidth scaledHeight.

Definition addFrame (env : Env) (canvas : option Canvas)
    (imageSrc : string) (frame : Frame) : Resolved :=
  match canvas with
  | None => Unchanged imageSrc
  | Some c =>
      if negb (has2d c) then Unchanged imageSrc else
      match loadImage env imageSrc with
      | None => Pending
      | Some img =>
          match loadImage env (fr_src frame) with
          | None => Pending
          | Some frameImg =>
              let frameCanvas := createCanvas in
              let frameCanvas := Ctx.setWidth (inject_Z (img_width frameImg)) frameCanvas in
              let frameCanvas := Ctx.setHeight (inject_Z (img_height frameImg)) frameCanvas in
              let frameCanvas := Ctx.drawImage3 frameImg 0 0 frameCanvas in
              let p := framePlacement (inject_Z (img_width frameImg))
                         (inject_Z (img_height frameImg))
                         (inject_Z (img_width img)) (inject_Z (img_height img)) in
              let frameCanvas := Ctx.drawImage5 img (rx p) (ry p) (rw p) (rh p) frameCanvas in
              DataURL frameCanvas
          end
      end
  end.

Definition stripWidth : Q := 800.

(** The [width] and [height] attributes of a canvas are unsigned longs:
    assigning a number with a fraction stores its integer part (for the
    numbers from 0 to 2^32 - 1, which is all that occurs here). *)
Definition toUnsignedLong (q : Q) : Q := inject_Z (Qfloor q).

(** The [onload] of the photo at [index] of [count] photos. *)
Definition stripOnload (count : nat) (index : nat) (img : Image) (c : Canvas) : Canvas :=
  let photoHeight := stripWidth / PhotoCanvas.ofNat count in
  let x := (stripWidth / PhotoCanvas.ofNat count) * PhotoCanvas.ofNat index in
  let y := 0 in
  let width := stripWidth / PhotoCanvas.ofNat count in
  let height := photoHeight in
  Ctx.drawImage5 img x y width height c.

(** One step of [photos.forEach]: the canvas, the counter [loadedPhotos]
    and the index of the next photo.  The callbacks run in the order the
    loads were started. *)
Definition stripStep (env : Env) (count : nat) (acc : Canvas * nat * nat)
    (photoSrc : string) : Canvas * nat * nat :=
  let '(c, loadedPhotos, index) := acc in
  match loadImage env photoSrc with
  | None => (c, loadedPhotos, S index)
  | Some img => (stripOnload count index img c, S loadedPhotos, S index)
  end.

(** [createPhotoStrip(photos)]; the optional frame is not used by the
    code.  The promise is resolved in the [onload] that counts the last
    photo, so with no photos it is never resolved.  [photoHeight] keeps its
    fraction where the photos are drawn, the canvas height does not.  The
    divisions are exact here; the code's double-precision numbers agree
    when the number of photos divides 800, and the statements about the
    squares are made for that case. *)
Definition createPhotoStrip (env : Env) (photos : list string) : Resolved :=
  let count := length photos in
  let photoHeight := stripWidth / PhotoCanvas.ofNat count in
  let stripCanvas := createCanvas in
  let stripCanvas := Ctx.setWidth stripWidth stripCanvas in
  let stripCanvas := Ctx.setHeight (toUnsignedLong photoHeight) stripCanvas in
  let '(c, loadedPhotos, _) := fold_left (stripStep env count) photos (stripCanvas, 0%nat, 0%nat) in
  match photos with
  | [] => Pending
  | _ => if Nat.eqb loadedPhotos count then DataURL c else Pending
  end.

(** [s.replace(/[:.]/g, '-')] *)
Fixpoint replaceColonDot (s : string) : string :=
  match s with
  | EmptyString => EmptyString
  | String c s' =>
      String (if (Ascii.eqb c ":" || Ascii.eqb c ".")%bool then "-"%char else c)
             (replaceColonDot s')
  end.

(** [generateFilename(prefix)]; [iso] is [new Date().toISOString()] and an
    omitted prefix is ['photobooth']. *)
Definition generateFilename (iso : string) (prefix : option string) : string :=
  let prefix := orElse prefix "photobooth" in
  let timestamp := replaceColonDot iso in
  prefix ++ "-" ++ timestamp ++ ".jpg".

End Processor.

(* ================================================================== *)
(** ** Vocabulary of the statements *)
(* ================================================================== *)

(** What one basic name, one advanced entry, adds to the string of
    [applyFilters]. *)
Definition basicChunk (filterName : string) : string :=
  ImageProcessor.basicStep "" filterName.

Definition advancedChunk (entry : string * Z) : string :=
  ImageProcessor.advancedStep "" entry.

(** The advanced filters for which [getImageStyle] has a [case]. *)
Definition previewHandles (name : string) : bool :=
  existsb (String.eqb name) ["brightness"; "contrast"; "saturate"; "blur"].

(** Whether an image source decodes. *)
Definition decodes (env : Env) (src : string) : bool :=
  match decode env src with
  | Some _ => true
  | None => false
  end.

(** The drawing state inside a sticker's scope: the state outside it, moved
    to the sticker's centre and rotated. *)
Definition stickerScope (s : DrawingState) (sticker : Sticker) : DrawingState :=
  mkDrawingState (fillStyle s) (font s) (textAlign s) (ctxFilter s)
    (transform s ++ [Translate (stickerCenterX sticker) (stickerCenterY sticker);
                     Rotate (stickerAngle sticker)])%list.

(** The one command a decoded sticker adds to the bitmap. *)
Definition stickerCmd (s : DrawingState) (sticker : Sticker) (img : Image) : DrawCmd :=
  DrawImage (stickerScope s sticker) img None
    (mkRect (- st_width sticker / 2) (- st_height sticker / 2)
            (st_width sticker) (st_height sticker)).

Definition stickerCmds (env : Env) (s : DrawingState) (sticker : Sticker) : list DrawCmd :=
  match loadImage env (st_src sticker) with
  | Some img => [stickerCmd s sticker img]
  | None => []
  end.

(** No filter is set, saved or has been drawn with. *)
Definition unfiltered (c : Canvas) : Prop :=
  ctxFilter (state c) = "none"
  /\ Forall (fun s => ctxFilter s = "none") (saved c)
  /\ Forall (fun f => f = "none") (drawnFilters (pixels c)).

(** Ascending z-index. *)
Definition zSorted (l : list Sticker) : Prop :=
  StronglySorted (fun a b => (zIndex a <= zIndex b)%Z) l.

(** The canvas of the export once the background is filled and the slots
    are drawn. *)
Definition stripSlots (env : Env) (canvas : Canvas) (photo : PhotoProp)
    (selectedLayout : option FrameLayout) (stripColor : string) : Canvas :=
  let photoCount := PhotoCanvas.photoCountOf selectedLayout in
  let layout := PhotoCanvas.layoutOf selectedLayout in
  let size := PhotoCanvas.canvasSize photoCount layout in
  fold_left (PhotoCanvas.drawSlot env photo layout photoCount (fst size) (snd size))
    (seq 0 photoCount)
    (PhotoCanvas.drawBackground layout stripColor (fst size) (snd size) canvas).

(** Sample inputs. *)
Module Sample.

Definition env (time : string) : Env :=
  mkEnv (fun _ => Some (1920, 1080)%Z) "1/1/2026" time.

Definition canvas : Canvas := mkCanvas 300 150 true Ctx.defaultState [] [].

Definition photo (src : string) : Photo := mkPhoto src src None.

Definition sticker (name : string) (z : Z) : Sticker :=
  mkSticker name (name ++ ".png") name 100 100 60 60 0 z.

Definition vertical3 : FrameLayout :=
  mkFrameLayout "layout-1" "Classic Strip (3 photos)" 3 "vertical".

Definition noFilters : AppliedFilters := mkAppliedFilters [] [].

End Sample.

(* ================================================================== *)
(** ** Vocabulary of the further statements *)
(* ================================================================== *)

(** The sticker list after the panel's new sticker is appended to the list
    it was computed from; an addition is [Date.now()] and the sticker
    chosen. *)
Definition addFromPanel (stickers : list Sticker) (add : Z * StickerPanel.StickerData)
    : list Sticker :=
  Page.handleAddSticker stickers
    (StickerPanel.handleAddSticker stickers (fst add) (snd add)).

(** Equal in everything but the position. *)
Definition sameButPosition (t t' : Sticker) : Prop :=
  st_id t' = st_id t /\ st_src t' = st_src t /\ st_name t' = st_name t
  /\ st_width t' = st_width t /\ st_height t' = st_height t
  /\ st_rotation t' = st_rotation t /\ zIndex t' = zIndex t.

(** The step of each arrow key. *)
Definition arrowDelta (key : string) : option (Q * Q) :=
  if String.eqb key "ArrowLeft" then Some (- (5), 0)
  else if String.eqb key "ArrowRight" then Some (5, 0)
  else if String.eqb key "ArrowUp" then Some (0, - (5))
  else if String.eqb key "ArrowDown" then Some (0, 5)
  else None.

(** [t'] is [t] moved by [(dx, dy)] if [t] is the selected sticker, and
    [t] itself if not. *)
Definition nudgedBy (selected : string) (dx dy : Q) (t t' : Sticker) : Prop :=
  if String.eqb (st_id t) selected
  then sameButPosition t t' /\ st_x t' == st_x t + dx /\ st_y t' == st_y t + dy
  else t' = t.

(** [t'] is [t] placed at [(x, y)] if [t] is the selected sticker, and [t]
    itself if not. *)
Definition placedAt (selected : string) (x y : Q) (t t' : Sticker) : Prop :=
  if String.eqb (st_id t) selected
  then sameButPosition t t' /\ st_x t' = x /\ st_y t' = y
  else t' = t.

(** The destination rectangles of the images drawn, in drawing order. *)
Definition drawnRects (cmds : list DrawCmd) : list Rect :=
  flat_map (fun cmd => match cmd with
                       | DrawImage _ _ _ dest => [dest]
                       | _ => []
                       end) cmds.

(** A rectangle lies within a canvas of the given size. *)
Definition within (r : Rect) (size : Q * Q) : Prop :=
  0 <= rx r /\ 0 <= ry r /\ rx r + rw r <= fst size /\ ry r + rh r <= snd size.

(** Two rectangles share no point of positive area. *)
Definition apart (r1 r2 : Rect) : Prop :=
  rx r1 + rw r1 <= rx r2 \/ rx r2 + rw r2 <= rx r1
  \/ ry r1 + rh r1 <= ry r2 \/ ry r2 + rh r2 <= ry r1.

(** The box into which the export draws slot [i] in the vertical, the grid
    and the horizontal layout (the last case). *)
Definition slotRect (layout : string) (photoCount : nat) (i : nat) : Rect :=
  let size := PhotoCanvas.canvasSize photoCount layout in
  if String.eqb layout "vertical" then
    mkRect ((fst size - 420) / 2)
           (40 + PhotoCanvas.ofNat i * (inject_Z (JS.Math_round (420 * 2 / 3)) + 17))
           420 (inject_Z (JS.Math_round (420 * 2 / 3)))
  else if String.eqb layout "grid" then
    mkRect (16 + PhotoCanvas.ofNat (i mod 2) * 160) (16 + PhotoCanvas.ofNat (i / 2) * 160)
           128 128
  else
    mkRect (8 + PhotoCanvas.ofNat i * ((fst size - 16) / PhotoCanvas.ofNat photoCount)) 8
           ((fst size - 16) / PhotoCanvas.ofNat photoCount - 4) (snd size - 40).

(** The source of slot [i] if the export draws the slot: the source is
    there and decodes. *)
Definition slotDrawn (env : Env) (photo : PhotoProp) (i : nat) : list string :=
  match PhotoCanvas.photoSrc photo i with
  | Some src => if (JS.truthy (Some src) && decodes env src)%bool then [src] else []
  | None => []
  end.

(** The square into which [createPhotoStrip] draws the photo at [index]. *)
Definition stripRect (count index : nat) : Rect :=
  mkRect (Processor.stripWidth / PhotoCanvas.ofNat count * PhotoCanvas.ofNat index) 0
         (Processor.stripWidth / PhotoCanvas.ofNat count)
         (Processor.stripWidth / PhotoCanvas.ofNat count).

(** The images drawn, in drawing order: the source of each and the
    rectangle it is drawn into. *)
Definition drawnImages (cmds : list DrawCmd) : list (string * Rect) :=
  flat_map (fun cmd => match cmd with
                       | DrawImage _ img _ dest => [(img_src img, dest)]
                       | _ => []
                       end) cmds.

(** Slot [i] drawn from [src]: the image of that source in the slot's box,
    if the source decodes. *)
Definition slotImage (env : Env) (layout : string) (photoCount : nat) (i : nat)
    (src : string) : list (string * Rect) :=
  if decodes env src then [(src, slotRect layout photoCount i)] else [].

(** A sticker's image, drawn centred on the origin of its scope. *)
Definition stickerImage (s : Sticker) : string * Rect :=
  (st_src s, mkRect (- st_width s / 2) (- st_height s / 2) (st_width s) (st_height s)).

(** A whole number of magnitude at most [bound]. *)
Definition wholeNumber (bound : Z) (q : Q) : Prop :=
  exists z : Z, q = inject_Z z /\ (Z.abs z <= bound)%Z.

(** A character is neither a colon nor a full stop. *)
Fixpoint noColonDot (s : string) : Prop :=
  match s with
  | EmptyString => True
  | String c s' => c <> ":"%char /\ c <> "."%char /\ noColonDot s'
  end.

(** The parts of the canvas the slot and sticker loops leave alone. *)
Definition sameFrame (c c' : Canvas) : Prop :=
  cv_width c' = cv_width c /\ cv_height c' = cv_height c /\ has2d c' = has2d c
  /\ saved c' = saved c /\ transform (state c') = transform (state c)
  /\ exists more, pixels c' = (pixels c ++ more)%list.

(* ================================================================== *)
(** * Properties *)
(* ================================================================== *)

(** ** Strings and folds that append *)

Section StringFacts.

Lemma append_nil_r (s : string) : s ++ "" = s.
Proof. induction s as [|c s IH]; simpl; [reflexivity | now rewrite IH]. Qed.

Lemma append_assoc (a b c : string) : (a ++ b) ++ c = a ++ (b ++ c).
Proof. induction a as [|x a IH]; simpl; [reflexivity | now rewrite IH]. Qed.

Variable A : Type.
Variable chunk : A -> string.

Lemma fold_append_acc (l : list A) (acc : string) :
  fold_left (fun s x => s ++ chunk x) l acc
  = acc ++ fold_left (fun s x => s ++ chunk x) l "".
Proof.
  revert acc. induction l as [|x l IH]; intros acc; simpl.
  - now rewrite append_nil_r.
  - rewrite IH. rewrite (IH (chunk x)). now rewrite append_assoc.
Qed.

Lemma fold_append_app (l1 l2 : list A) (acc : string) :
  fold_left (fun s x => s ++ chunk x) (l1 ++ l2)%list acc
  = fold_left (fun s x => s ++ chunk x) l1 acc
    ++ fold_left (fun s x => s ++ chunk x) l2 "".
Proof. rewrite fold_left_app. now rewrite fold_append_acc. Qed.

Lemma fold_append_occurs (l : list A) (acc : string) (x : A) :
  In x l -> occursIn (chunk x) (fold_left (fun s y => s ++ chunk y) l acc).
Proof.
  intros Hin. apply in_split in Hin. destruct Hin as [l1 [l2 ->]].
  rewrite fold_append_app. simpl.
  rewrite (fold_append_acc l2 (chunk x)).
  exists (fold_left (fun s y => s ++ chunk y) l1 acc),
         (fold_left (fun s y => s ++ chunk y) l2 "").
  reflexivity.
Qed.

End StringFacts.

(** ** Objects with string keys *)

Section ObjectFacts.

Variable V : Type.
Implicit Types (o : JS.object V) (k : string) (v : V).

Lemma get_set_same o k v : JS.get (JS.set o k v) k = Some v.
Proof.
  induction o as [|[k' v'] o IH]; simpl.
  - now rewrite String.eqb_refl.
  - destruct (String.eqb k' k) eqn:E; simpl; rewrite E; [reflexivity | exact IH].
Qed.

Lemma get_set_other o k k' v : k' <> k -> JS.get (JS.set o k v) k' = JS.get o k'.
Proof.
  intros Hne. induction o as [|[k0 v0] o IH]; simpl.
  - destruct (String.eqb k k') eqn:E; [|reflexivity].
    apply String.eqb_eq in E. congruence.
  - destruct (String.eqb k0 k) eqn:E; simpl.
    + apply String.eqb_eq in E. subst k0.
      destruct (String.eqb k k') eqn:E'; [|reflexivity].
      apply String.eqb_eq in E'. congruence.
    + now rewrite IH.
Qed.

Lemma in_set_same o k v : In (k, v) (JS.set o k v).
Proof.
  induction o as [|[k' v'] o IH]; simpl; [now left |].
  destruct (String.eqb k' k) eqn:E.
  - apply String.eqb_eq in E. subst. now left.
  - now right.
Qed.

Lemma in_set_inv o k v k' v' :
  In (k', v') (JS.set o k v) -> (k' = k /\ v' = v) \/ In (k', v') o.
Proof.
  induction o as [|[k0 v0] o IH]; simpl.
  - intros [H | []]. injection H as -> ->. now left.
  - destruct (String.eqb k0 k) eqn:E; simpl.
    + apply String.eqb_eq in E. subst k0.
      intros [H | H]; [injection H as -> -> ; now left | right; now right].
    + intros [H | H]; [right; now left |].
      destruct (IH H) as [? | ?]; [now left | right; now right].
Qed.

Lemma get_in o k v : JS.get o k = Some v -> In (k, v) o.
Proof.
  induction o as [|[k' v'] o IH]; simpl; [discriminate |].
  destruct (String.eqb k' k) eqn:E.
  - apply String.eqb_eq in E. intros H. injection H as ->. subst. now left.
  - intros H. right. now apply IH.
Qed.

Lemma keys_set_nodup o k v : NoDup (JS.keys o) -> NoDup (JS.keys (JS.set o k v)).
Proof.
  unfold JS.keys. induction o as [|[k' v'] o IH]; simpl; intros H.
  - constructor; [intros [] | constructor].
  - inversion H as [|? ? Hnin Hnd]; subst.
    destruct (String.eqb k' k) eqn:E; simpl; [exact H |].
    constructor; [| now apply IH].
    intros Hin. apply in_map_iff in Hin. destruct Hin as [[k0 v0] [Hk Hin]].
    simpl in Hk. subst k0.
    apply in_set_inv in Hin. destruct Hin as [[-> _] | Hin].
    + now rewrite String.eqb_refl in E.
    + apply Hnin. apply in_map_iff. now exists (k', v0).
Qed.

End ObjectFacts.

(** ** The filter string of [applyFilters] *)

Section FilterString.

Import ImageProcessor FilterPanel.

Lemma basicStep_chunk s n : basicStep s n = s ++ basicChunk n.
Proof.
  unfold basicChunk, basicStep. destruct (findBasic n); simpl;
    [reflexivity | now rewrite append_nil_r].
Qed.

Lemma advancedStep_chunk s e : advancedStep s e = s ++ advancedChunk e.
Proof.
  unfold advancedChunk, advancedStep. destruct e as [n v].
  destruct (findAdvanced n); simpl; [reflexivity | now rewrite append_nil_r].
Qed.

Lemma fold_basicStep l acc :
  fold_left basicStep l acc = fold_left (fun s x => s ++ basicChunk x) l acc.
Proof.
  revert acc. induction l as [|x l IH]; intros acc; simpl; [reflexivity |].
  now rewrite IH, basicStep_chunk.
Qed.

Lemma fold_advancedStep l acc :
  fold_left advancedStep l acc = fold_left (fun s x => s ++ advancedChunk x) l acc.
Proof.
  revert acc. induction l as [|x l IH]; intros acc; simpl; [reflexivity |].
  now rewrite IH, advancedStep_chunk.
Qed.

(** The basic part comes first, the advanced part after it. *)
Lemma filterString_split filters :
  filterString filters
  = fold_left basicStep (basic filters) ""
    ++ fold_left advancedStep (advanced filters) "".
Proof.
  unfold filterString. rewrite !fold_advancedStep.
  now rewrite fold_append_acc.
Qed.

Lemma filterString_uses_entry filters name v f :
  In (name, v) (advanced filters) ->
  findAdvanced name = Some f ->
  occursIn (name ++ "(" ++ JS.show v ++ af_unit f ++ ") ") (filterString filters).
Proof.
  intros Hin Hf. unfold filterString. rewrite fold_advancedStep.
  replace (name ++ "(" ++ JS.show v ++ af_unit f ++ ") ")
    with (advancedChunk (name, v)).
  - now apply fold_append_occurs.
  - unfold advancedChunk, advancedStep. now rewrite Hf.
Qed.

Lemma includes_false_iff l x : includes l x = false <-> ~ In x l.
Proof.
  unfold includes. split.
  - intros H Hin. assert (existsb (String.eqb x) l = true) as E.
    { apply existsb_exists. exists x. split; [exact Hin | apply String.eqb_refl]. }
    congruence.
  - intros H. destruct (existsb (String.eqb x) l) eqn:E; [|reflexivity].
    apply existsb_exists in E. destruct E as [y [Hy E]].
    apply String.eqb_eq in E. subst. contradiction.
Qed.

End FilterString.

(** ** Filter panel: bounds *)

Section Bounds.

Import FilterPanel.

Lemma reset_withinDeclaredBounds : withinDeclaredBounds handleReset.
Proof. intros name v f []. Qed.

Lemma toggle_withinDeclaredBounds a n :
  withinDeclaredBounds a -> withinDeclaredBounds (handleBasicFilterToggle a n).
Proof. intros H name v f Hin. exact (H name v f Hin). Qed.

Lemma change_withinDeclaredBounds a n v f :
  withinDeclaredBounds a ->
  findAdvanced n = Some f ->
  (af_min f <= v <= af_max f)%Z ->
  withinDeclaredBounds (handleAdvancedFilterChange a n v).
Proof.
  intros H Hf Hv name v' f' Hin Hf'. simpl in Hin.
  apply in_set_inv in Hin. destruct Hin as [[-> ->] | Hin].
  - rewrite Hf in Hf'. injection Hf' as <-. exact Hv.
  - exact (H name v' f' Hin Hf').
Qed.

Lemma declared_bounds_ordered n f :
  findAdvanced n = Some f -> (af_min f <= af_max f)%Z.
Proof.
  unfold findAdvanced, JS.find. intros H. apply find_some in H.
  destruct H as [H _]. simpl in H.
  repeat (destruct H as [<- | H]; [simpl; lia |]). destruct H.
Qed.

End Bounds.

(** ** C3: advanced values are kept within their declared bounds *)

Section Slider.

Lemma rangeValue_clamp lo hi v :
  (lo <= hi)%Z -> rangeValue lo hi v = clamp v lo hi.
Proof.
  intros H. unfold rangeValue, clamp.
  destruct (v <? lo)%Z eqn:E1; [apply Z.ltb_lt in E1; lia |].
  apply Z.ltb_ge in E1.
  assert ((lo <=? hi)%Z = true) as -> by now apply Z.leb_le.
  simpl andb.
  destruct (hi <? v)%Z eqn:E2; [apply Z.ltb_lt in E2 | apply Z.ltb_ge in E2]; lia.
Qed.

(** The names of the table are distinct, so a slider's filter is the one
    its name is declared with. *)
Lemma findAdvanced_rendered f :
  In f ADVANCED_FILTERS -> findAdvanced (af_name f) = Some f.
Proof.
  intros H. simpl in H.
  repeat (destruct H as [<- | H]; [reflexivity |]). destruct H.
Qed.

Lemma sliderChange_withinDeclaredBounds a f v :
  In f ADVANCED_FILTERS ->
  withinDeclaredBounds a -> withinDeclaredBounds (sliderChange a f v).
Proof.
  intros Hf Ha. pose proof (findAdvanced_rendered f Hf) as Hfind.
  pose proof (declared_bounds_ordered _ _ Hfind) as Hord.
  unfold sliderChange. apply change_withinDeclaredBounds with f; [exact Ha | exact Hfind |].
  rewrite rangeValue_clamp by exact Hord. unfold clamp. lia.
Qed.

Lemma panelStep_withinDeclaredBounds a e :
  rendered e -> withinDeclaredBounds a -> withinDeclaredBounds (panelStep a e).
Proof.
  intros He Ha. destruct e as [n | f v |]; simpl.
  - now apply toggle_withinDeclaredBounds.
  - now apply sliderChange_withinDeclaredBounds.
  - apply reset_withinDeclaredBounds.
Qed.

Lemma panelSteps_withinDeclaredBounds events : forall a,
  Forall rendered events ->
  withinDeclaredBounds a -> withinDeclaredBounds (fold_left panelStep events a).
Proof.
  induction events as [|e l IH]; intros a Hall Ha; simpl; [exact Ha |].
  inversion Hall as [|? ? He Hl]; subst.
  apply IH; [exact Hl |]. now apply panelStep_withinDeclaredBounds.
Qed.

End Slider.



(** ** C4: basic filters apply in toggle order *)

(** C4, as stated, fails: the same two filters toggled in the two orders
    give two different filter strings, in the export helper and in the
    preview alike. *)
Lemma C4_counterexample :
  let toggle := FilterPanel.handleBasicFilterToggle in
  let sg := toggle (toggle FilterPanel.handleReset "sepia") "grayscale" in
  let gs := toggle (toggle FilterPanel.handleReset "grayscale") "sepia" in
  Permutation (basic sg) (basic gs)
  /\ JS.trim (ImageProcessor.filterString sg) = "sepia(100%) grayscale(100%)"
  /\ JS.trim (ImageProcessor.filterString gs) = "grayscale(100%) sepia(100%)"
  /\ JS.trim (ImageProcessor.filterString sg) <> JS.trim (ImageProcessor.filterString gs)
  /\ PhotoCanvas.getImageStyle sg <> PhotoCanvas.getImageStyle gs.
Proof.
  cbv zeta. repeat split; try reflexivity.
  - apply perm_swap.
  - vm_compute. discriminate.
  - vm_compute. discriminate.
Qed.

(** C4 (amended): the filter string lists the basic filters in the order
    of [appliedFilters.basic], which is the order in which the user switched
    them on.  Switching on a filter that is not active puts its name last in
    the list and its CSS function after those of all active basic filters,
    before the advanced ones; nothing reorders the list canonically. *)
Theorem C4_basic_filters_apply_in_toggle_order :
  forall (a : AppliedFilters) (name : string) (f : BasicFilter),
    FilterPanel.includes (basic a) name = false ->
    findBasic name = Some f ->
    let a' := FilterPanel.handleBasicFilterToggle a name in
    basic a' = (basic a ++ [name])%list
    /\ ImageProcessor.filterString a'
       = fold_left ImageProcessor.basicStep (basic a) ""
         ++ (bf_value f ++ " ")
         ++ fold_left ImageProcessor.advancedStep (advanced a) "".
Proof.
  intros a name f Hinc Hf a'.
  assert (basic a' = (basic a ++ [name])%list) as Hb.
  { unfold a', FilterPanel.handleBasicFilterToggle. now rewrite Hinc. }
  split; [exact Hb |].
  rewrite filterString_split, Hb. unfold a' at 1. simpl advanced.
  rewrite fold_left_app. simpl.
  unfold ImageProcessor.basicStep at 1. rewrite Hf.
  now rewrite append_assoc.
Qed.

Lemma C4_witness :
  ImageProcessor.filterString
    (FilterPanel.handleBasicFilterToggle (mkAppliedFilters ["sepia"] [("blur", 3%Z)]) "grayscale")
  = "sepia(100%) " ++ ("grayscale(100%)" ++ " ") ++ "blur(3px) ".
Proof.
  exact (proj2 (C4_basic_filters_apply_in_toggle_order
                  (mkAppliedFilters ["sepia"] [("blur", 3%Z)]) "grayscale"
                  (mkBasicFilter "grayscale" "grayscale(100%)" "Grayscale")
                  eq_refl eq_refl)).
Defined.

(** ** What [trim] keeps *)

Section Trim.

Lemma trimEnd_keeps (m : string) (d : ascii) (post : string) :
  JS.isWhitespace d = false ->
  JS.trimEnd (m ++ String d post) = m ++ String d (JS.trimEnd post).
Proof.
  intros Hd. induction m as [|c m IH]; simpl.
  - rewrite Hd. now destruct (JS.trimEnd post).
  - rewrite IH. now destruct m.
Qed.

Lemma trimStart_keeps (pre : string) (c : ascii) (rest : string) :
  JS.isWhitespace c = false ->
  exists pre', JS.trimStart (pre ++ String c rest) = pre' ++ String c rest.
Proof.
  intros Hc. induction pre as [|x pre IH]; simpl.
  - rewrite Hc. now exists "".
  - destruct (JS.isWhitespace x); [exact IH |].
    now exists (String x pre).
Qed.

(** A piece of text that neither starts nor ends with white space
    survives [trim] wherever it occurs. *)
Lemma trim_keeps_occurrence (c d : ascii) (n0 m hay : string) :
  JS.isWhitespace c = false ->
  JS.isWhitespace d = false ->
  String c n0 = m ++ String d "" ->
  occursIn (String c n0) hay ->
  occursIn (String c n0) (JS.trim hay).
Proof.
  intros Hc Hd Hn [pre [post ->]]. unfold JS.trim.
  destruct (trimStart_keeps pre c (n0 ++ post) Hc) as [pre' Hs].
  change (String c n0 ++ post) with (String c (n0 ++ post)).
  rewrite Hs.
  change (String c (n0 ++ post)) with (String c n0 ++ post).
  rewrite Hn.
  rewrite (append_assoc m), <- (append_assoc pre'). simpl.
  rewrite trimEnd_keeps by exact Hd.
  exists pre', (JS.trimEnd post).
  now rewrite !append_assoc.
Qed.

Lemma occursIn_nonempty (c : ascii) (n0 hay : string) :
  occursIn (String c n0) hay -> String.eqb hay "" = false.
Proof.
  intros [pre [post ->]]. now destruct pre.
Qed.

End Trim.

(** ** C10: a stored zero in the panel and in the preview *)

Section StoredZero.

Import PhotoCanvas.

Lemma styleFilter_uses_entry a e :
  In e (advanced a) -> occursIn (advancedCss e) (styleFilter a).
Proof.
  intros Hin. unfold styleFilter.
  now apply (fold_append_occurs _ advancedCss).
Qed.

Lemma occursIn_drop_last_space n hay :
  occursIn (n ++ " ") hay -> occursIn n hay.
Proof.
  intros [pre [post ->]]. exists pre, (" " ++ post).
  now rewrite append_assoc.
Qed.

Lemma getImageStyle_keeps (c d : ascii) (n0 m : string) a :
  JS.isWhitespace c = false ->
  JS.isWhitespace d = false ->
  String c n0 = m ++ String d "" ->
  occursIn (String c n0) (styleFilter a) ->
  occursIn (String c n0) (getImageStyle a).
Proof.
  intros Hc Hd Hn Hocc. unfold getImageStyle, JS.orString.
  pose proof (trim_keeps_occurrence c d n0 m (styleFilter a) Hc Hd Hn Hocc) as Ht.
  now rewrite (occursIn_nonempty c n0 _ Ht).
Qed.

End StoredZero.

(** C10, as stated, fails for hue-rotate: with a stored 0 the panel shows
    the default, but the preview string has no entry for the filter at
    all; it is ["none"] whatever value is stored. *)
Lemma C10_counterexample :
  exists f,
    In f ADVANCED_FILTERS /\ af_name f = "hue-rotate" /\
    let a := mkAppliedFilters [] [("hue-rotate", 0%Z)] in
    JS.get (advanced a) (af_name f) = Some 0%Z
    /\ FilterPanel.sliderValue a f = af_defaultValue f
    /\ PhotoCanvas.getImageStyle a = "none"
    /\ ~ occursIn "0" (PhotoCanvas.getImageStyle a)
    /\ (forall v, PhotoCanvas.getImageStyle (mkAppliedFilters [] [("hue-rotate", v)])
                  = "none").
Proof.
  exists (mkAdvancedFilter "hue-rotate" 0 360 0 "deg" "Hue").
  split; [simpl; tauto |]. split; [reflexivity |]. cbv zeta.
  split; [reflexivity |]. split; [reflexivity |]. split; [reflexivity |].
  split; [| intros v; reflexivity].
  intros [pre [post H]]. change (PhotoCanvas.getImageStyle _) with "none" in H.
  destruct pre as [|c1 [|c2 [|c3 [|c4 [|c5 pre]]]]]; simpl in H; discriminate H.
Qed.

(** C10 (amended): for every advanced filter whose stored value is exactly
    0, the slider position and the number printed by the panel are the
    filter's declared default value.  For brightness, contrast, saturate
    and blur the preview filter string built from the same state contains
    the entry with the raw stored 0; hue-rotate and opacity have no case in
    the preview and add nothing to its string. *)
Theorem C10_stored_zero_panel_vs_preview :
  forall (a : AppliedFilters) (f : AdvancedFilter),
    In f ADVANCED_FILTERS ->
    JS.get (advanced a) (af_name f) = Some 0%Z ->
    FilterPanel.sliderValue a f = af_defaultValue f
    /\ FilterPanel.sliderLabel a f = JS.show (af_defaultValue f) ++ af_unit f
    /\ (previewHandles (af_name f) = true ->
        occursIn (af_name f ++ "(" ++ JS.show 0 ++ af_unit f ++ ")")
                 (PhotoCanvas.getImageStyle a))
    /\ (previewHandles (af_name f) = false ->
        forall v, PhotoCanvas.advancedCss (af_name f, v) = "").
Proof.
  intros a f Hin Hget.
  assert (FilterPanel.sliderValue a f = af_defaultValue f) as Hs.
  { unfold FilterPanel.sliderValue. now rewrite Hget. }
  split; [exact Hs |].
  split; [unfold FilterPanel.sliderLabel; now rewrite Hs |].
  apply get_in in Hget. apply styleFilter_uses_entry in Hget.
  simpl in Hin.
  destruct Hin as [<- | [<- | [<- | [<- | [<- | [<- | []]]]]]];
    (split; [intros Hp | intros Hp v]); try discriminate Hp; try reflexivity.
  - apply (getImageStyle_keeps "b" ")" "rightness(0%)" "brightness(0%"); try reflexivity.
    apply (occursIn_drop_last_space "brightness(0%)"). exact Hget.
  - apply (getImageStyle_keeps "c" ")" "ontrast(0%)" "contrast(0%"); try reflexivity.
    apply (occursIn_drop_last_space "contrast(0%)"). exact Hget.
  - apply (getImageStyle_keeps "s" ")" "aturate(0%)" "saturate(0%"); try reflexivity.
    apply (occursIn_drop_last_space "saturate(0%)"). exact Hget.
  - apply (getImageStyle_keeps "b" ")" "lur(0px)" "blur(0px"); try reflexivity.
    apply (occursIn_drop_last_space "blur(0px)"). exact Hget.
Qed.

Lemma C10_witness :
  FilterPanel.sliderValue (mkAppliedFilters [] [("brightness", 0%Z)])
    (mkAdvancedFilter "brightness" 0 300 100 "%" "Brightness") = 100%Z
  /\ occursIn "brightness(0%)"
       (PhotoCanvas.getImageStyle (mkAppliedFilters [] [("brightness", 0%Z)])).
Proof.
  pose proof (C10_stored_zero_panel_vs_preview
                (mkAppliedFilters [] [("brightness", 0%Z)])
                (mkAdvancedFilter "brightness" 0 300 100 "%" "Brightness")
                (or_introl eq_refl) eq_refl) as [H1 [_ [H3 _]]].
  split; [exact H1 | exact (H3 eq_refl)].
Defined.

(** ** The canvas: what each operation leaves alone *)

Section CanvasFacts.

Lemma drawnSources_app l1 l2 :
  drawnSources (l1 ++ l2) = (drawnSources l1 ++ drawnSources l2)%list.
Proof. unfold drawnSources. apply flat_map_app. Qed.

Lemma drawnFilters_app l1 l2 :
  drawnFilters (l1 ++ l2) = (drawnFilters l1 ++ drawnFilters l2)%list.
Proof. unfold drawnFilters. apply flat_map_app. Qed.

Lemma loadImage_src env src img : loadImage env src = Some img -> img_src img = src.
Proof.
  unfold loadImage. destruct (decode env src) as [[w h]|]; [|discriminate].
  intros H. injection H as <-. reflexivity.
Qed.

Lemma loadImage_decodes env src :
  decodes env src = true <-> exists img, loadImage env src = Some img.
Proof.
  unfold decodes, loadImage. destruct (decode env src) as [[w h]|]; split.
  - intros _. now eexists.
  - reflexivity.
  - discriminate.
  - intros [img H]. discriminate.
Qed.

(** The sticker scope: everything but the bitmap is as before. *)
Lemma drawSticker_effect env c sticker :
  PhotoCanvas.drawSticker env c sticker
  = mkCanvas (cv_width c) (cv_height c) (has2d c) (state c) (saved c)
             (pixels c ++ stickerCmds env (state c) sticker).
Proof.
  unfold PhotoCanvas.drawSticker, stickerCmds.
  destruct (loadImage env (st_src sticker)) as [img|].
  - destruct c as [w h b s sv px]. destruct s as [fs fo ta fi tr].
    unfold stickerCmd, stickerScope. cbn.
    now rewrite <- app_assoc.
  - destruct c. cbn. now rewrite app_nil_r.
Qed.

Lemma stickerOnload_effect sticker img c :
  ImageProcessor.stickerOnload sticker img c
  = mkCanvas (cv_width c) (cv_height c) (has2d c) (state c) (saved c)
             (pixels c ++ [stickerCmd (state c) sticker img]).
Proof.
  destruct c as [w h b s sv px]. destruct s as [fs fo ta fi tr].
  unfold ImageProcessor.stickerOnload, stickerCmd, stickerScope. cbn.
  now rewrite <- app_assoc.
Qed.

Lemma fold_left_ext_in {A B} (f g : A -> B -> A) (l : list B) :
  (forall a x, In x l -> f a x = g a x) ->
  forall a, fold_left f l a = fold_left g l a.
Proof.
  induction l as [|x l IH]; intros H a; simpl; [reflexivity |].
  rewrite (H a x (or_introl eq_refl)). apply IH.
  intros a' y Hy. apply H. now right.
Qed.

Lemma fold_left_invariant {A B} (P : A -> Prop) (f : A -> B -> A) (l : list B) :
  (forall a x, P a -> P (f a x)) -> forall a, P a -> P (fold_left f l a).
Proof.
  intros Hf. induction l as [|x l IH]; intros a Ha; simpl; [exact Ha |].
  apply IH. now apply Hf.
Qed.

End CanvasFacts.

(** ** C9: a sticker draw is scoped *)

(** C9: drawing a sticker leaves the drawing state (the transform with
    it), the stack of saved states and the canvas size as they were before
    the draw, whether the sticker's image decodes or not; only the bitmap
    changes, by the one image drawn centred on the origin of the state
    moved to the sticker's centre and rotated, or not at all when the image
    does not decode.  The export loop and the [onload] of [addStickers]
    behave alike. *)
Theorem C9_sticker_draw_is_scoped :
  forall (env : Env) (c : Canvas) (sticker : Sticker),
    (let c' := PhotoCanvas.drawSticker env c sticker in
     state c' = state c
     /\ saved c' = saved c
     /\ cv_width c' = cv_width c /\ cv_height c' = cv_height c /\ has2d c' = has2d c
     /\ pixels c' = (pixels c ++ match loadImage env (st_src sticker) with
                                 | Some img => [stickerCmd (state c) sticker img]
                                 | None => []
                                 end)%list)
    /\ (forall img,
          let c' := ImageProcessor.stickerOnload sticker img c in
          state c' = state c
          /\ saved c' = saved c
          /\ cv_width c' = cv_width c /\ cv_height c' = cv_height c /\ has2d c' = has2d c
          /\ pixels c' = (pixels c ++ [stickerCmd (state c) sticker img])%list).
Proof.
  intros env c sticker. split.
  - cbv zeta. rewrite drawSticker_effect. cbn. repeat split; reflexivity.
  - intros img. cbv zeta. rewrite stickerOnload_effect. cbn. repeat split; reflexivity.
Qed.

(** The whole sticker loop therefore ends in the state it started in. *)
Lemma drawStickers_state env stickers c :
  let c' := fold_left (PhotoCanvas.drawSticker env) stickers c in
  state c' = state c /\ saved c' = saved c
  /\ cv_width c' = cv_width c /\ cv_height c' = cv_height c /\ has2d c' = has2d c.
Proof.
  cbv zeta. revert c. induction stickers as [|s l IH]; intros c; simpl.
  - repeat split; reflexivity.
  - destruct (IH (PhotoCanvas.drawSticker env c s)) as (H1 & H2 & H3 & H4 & H5).
    rewrite H1, H2, H3, H4, H5, drawSticker_effect. cbn. repeat split; reflexivity.
Qed.

(** ** The order in which stickers are drawn *)

Section StickerOrder.

Import ImageProcessor.

(** The export loop draws the stickers that decode in array order. *)
Lemma drawStickers_sources env stickers c :
  drawnSources (pixels (fold_left (PhotoCanvas.drawSticker env) stickers c))
  = (drawnSources (pixels c)
     ++ map st_src (filter (fun s => decodes env (st_src s)) stickers))%list.
Proof.
  revert c. induction stickers as [|s l IH]; intros c; simpl.
  - now rewrite app_nil_r.
  - rewrite IH, drawSticker_effect. cbn [pixels].
    rewrite drawnSources_app, <- app_assoc. f_equal.
    unfold stickerCmds, decodes, loadImage.
    destruct (decode env (st_src s)) as [[w h]|]; reflexivity.
Qed.

Lemma insertByZIndex_perm s l : Permutation (insertByZIndex s l) (s :: l).
Proof.
  induction l as [|t l IH]; simpl; [apply Permutation_refl |].
  destruct (zIndex s <=? zIndex t)%Z; [apply Permutation_refl |].
  eapply perm_trans; [apply perm_skip, IH | apply perm_swap].
Qed.

Lemma sortByZIndex_perm l : Permutation (sortByZIndex l) l.
Proof.
  induction l as [|s l IH]; simpl; [constructor |].
  eapply perm_trans; [apply insertByZIndex_perm | now apply perm_skip].
Qed.

Lemma insertByZIndex_sorted s l : zSorted l -> zSorted (insertByZIndex s l).
Proof.
  unfold zSorted. induction l as [|t l IH]; intros Hs; simpl.
  - repeat constructor.
  - inversion Hs as [|? ? Hl Ht]; subst.
    destruct (zIndex s <=? zIndex t)%Z eqn:E.
    + apply Z.leb_le in E. constructor; [exact Hs |].
      constructor; [exact E |].
      eapply Forall_impl; [| exact Ht]. intros u Hu. simpl in Hu. lia.
    + apply Z.leb_gt in E. constructor; [now apply IH |].
      eapply Permutation_Forall.
      * apply Permutation_sym, insertByZIndex_perm.
      * constructor; [lia | exact Ht].
Qed.

(** [addStickers] orders its input by ascending z-index. *)
Lemma sortByZIndex_sorted l : zSorted (sortByZIndex l).
Proof.
  induction l as [|s l IH]; simpl; [constructor |].
  now apply insertByZIndex_sorted.
Qed.

(** The sort is stable: stickers of one z-index keep their array order. *)
Lemma insertByZIndex_stable k s l :
  filter (fun t => (zIndex t =? k)%Z) (insertByZIndex s l)
  = filter (fun t => (zIndex t =? k)%Z) (s :: l).
Proof.
  induction l as [|t l IH]; simpl; [reflexivity |].
  destruct (zIndex s <=? zIndex t)%Z eqn:E; [reflexivity |].
  apply Z.leb_gt in E. simpl. rewrite IH. simpl.
  destruct (zIndex s =? k)%Z eqn:Es; [| reflexivity].
  apply Z.eqb_eq in Es.
  destruct (zIndex t =? k)%Z eqn:Et; [| reflexivity].
  apply Z.eqb_eq in Et. lia.
Qed.

Lemma sortByZIndex_stable k l :
  filter (fun t => (zIndex t =? k)%Z) (sortByZIndex l)
  = filter (fun t => (zIndex t =? k)%Z) l.
Proof.
  induction l as [|s l IH]; simpl; [reflexivity |].
  rewrite insertByZIndex_stable. simpl. now rewrite IH.
Qed.

Lemma stickerSteps_all_decode env l c n :
  Forall (fun s => decodes env (st_src s) = true) l ->
  exists c',
    fold_left (stickerStep env) l (c, n) = (c', (n + length l)%nat)
    /\ drawnSources (pixels c') = (drawnSources (pixels c) ++ map st_src l)%list
    /\ state c' = state c /\ saved c' = saved c.
Proof.
  revert c n. induction l as [|s l IH]; intros c n Hall; simpl.
  - exists c. rewrite Nat.add_0_r, app_nil_r. repeat split; reflexivity.
  - inversion Hall as [|? ? Hs Hl]; subst.
    apply loadImage_decodes in Hs. destruct Hs as [img Himg].
    rewrite Himg.
    destruct (IH (stickerOnload s img c) (S n) Hl) as (c' & Hf & Hsrc & Hst & Hsv).
    exists c'. rewrite Hf, Hsrc, Hst, Hsv, stickerOnload_effect. cbn.
    rewrite drawnSources_app, <- app_assoc. cbn.
    rewrite (loadImage_src _ _ _ Himg).
    repeat split; try reflexivity. f_equal. lia.
Qed.

(** When everything decodes, [addStickers] draws the base image and then
    the stickers in ascending z-index order. *)
Lemma addStickers_draws_sorted env cv imageSrc stickers :
  has2d cv = true ->
  decodes env imageSrc = true ->
  Forall (fun s => decodes env (st_src s) = true) stickers ->
  exists c,
    addStickers env (Some cv) imageSrc stickers = DataURL c
    /\ drawnSources (pixels c) = imageSrc :: map st_src (sortByZIndex stickers)
    /\ zSorted (sortByZIndex stickers)
    /\ Permutation (sortByZIndex stickers) stickers.
Proof.
  intros Hctx Himg Hall. unfold addStickers. rewrite Hctx. simpl negb. cbv iota.
  apply loadImage_decodes in Himg. destruct Himg as [img Himg]. rewrite Himg.
  assert (Forall (fun s => decodes env (st_src s) = true) (sortByZIndex stickers)) as Hall'.
  { eapply Permutation_Forall; [apply Permutation_sym, sortByZIndex_perm | exact Hall]. }
  cbv zeta.
  match goal with
  | |- context [fold_left (stickerStep env) _ (?c0, _)] =>
      destruct (stickerSteps_all_decode env (sortByZIndex stickers) c0 0 Hall')
        as (c' & Hf & Hsrc & _)
  end.
  rewrite Hf. simpl. rewrite Nat.eqb_refl.
  exists c'. split; [reflexivity |].
  split; [| split; [apply sortByZIndex_sorted | apply sortByZIndex_perm]].
  rewrite Hsrc. cbn. now rewrite (loadImage_src _ _ _ Himg).
Qed.

End StickerOrder.

(** ** The export, stage by stage *)

Section ExportStages.

Import PhotoCanvas.

Lemma drawStripToCanvas_stages env cv photo sl stickers a color :
  has2d cv = true ->
  drawStripToCanvas env (Some cv) photo sl stickers a color
  = Some (drawFooter env
            (fst (canvasSize (photoCountOf sl) (layoutOf sl)))
            (snd (canvasSize (photoCountOf sl) (layoutOf sl)))
            (fold_left (drawSticker env) stickers
               (stripSlots env cv photo sl color))).
Proof.
  intros H. unfold drawStripToCanvas, stripSlots. rewrite H. simpl negb. cbv iota.
  now destruct (canvasSize (photoCountOf sl) (layoutOf sl)).
Qed.

Lemma drawStripToCanvas_null env cv photo sl stickers a color :
  has2d cv = false ->
  drawStripToCanvas env (Some cv) photo sl stickers a color = None.
Proof. intros H. unfold drawStripToCanvas. now rewrite H. Qed.

Lemma drawFooter_effect env cw ch c :
  drawFooter env cw ch c
  = mkCanvas (cv_width c) (cv_height c) (has2d c)
      (mkDrawingState (Color "#6b7280") "17px Arial" "center"
         (ctxFilter (state c)) (transform (state c)))
      (saved c)
      (pixels c ++ [FillText (mkDrawingState (Color "#6b7280") "17px Arial" "center"
                                (ctxFilter (state c)) (transform (state c)))
                      (footerText env) (cw / 2) (ch - 73)]).
Proof. reflexivity. Qed.

(** The export draws the stickers that decode in the order of the
    array it was given, after everything drawn for the slots. *)
Lemma export_draws_stickers_in_array_order env cv photo sl stickers a color c :
  drawStripToCanvas env (Some cv) photo sl stickers a color = Some c ->
  drawnSources (pixels c)
  = (drawnSources (pixels (stripSlots env cv photo sl color))
     ++ map st_src (filter (fun s => decodes env (st_src s)) stickers))%list.
Proof.
  destruct (has2d cv) eqn:H.
  - rewrite drawStripToCanvas_stages by exact H. intros E. injection E as <-.
    rewrite drawFooter_effect. cbn [pixels].
    rewrite drawnSources_app, drawStickers_sources. cbn. now rewrite app_nil_r.
  - now rewrite drawStripToCanvas_null.
Qed.

(** *** No filter ever reaches the export *)

Lemma unfiltered_withState f c :
  (forall s, ctxFilter (f s) = ctxFilter s) ->
  unfiltered c -> unfiltered (Ctx.withState f c).
Proof. intros Hf (H1 & H2 & H3). repeat split; cbn; [now rewrite Hf | exact H2 | exact H3]. Qed.

Lemma unfiltered_emit cmd c :
  match cmd with DrawImage s _ _ _ => ctxFilter s = "none" | _ => True end ->
  unfiltered c -> unfiltered (Ctx.emit cmd c).
Proof.
  intros Hc (H1 & H2 & H3). repeat split; cbn; [exact H1 | exact H2 |].
  rewrite drawnFilters_app. apply Forall_app. split; [exact H3 |].
  destruct cmd; cbn; auto.
Qed.

Lemma unfiltered_drawBackground layout color cw ch cv :
  unfiltered (drawBackground layout color cw ch cv).
Proof. repeat split; cbn; constructor. Qed.

Lemma unfiltered_drawPhoto layout n cw ch i img c :
  unfiltered c -> unfiltered (drawPhoto layout n cw ch i img c).
Proof.
  intros H. pose proof H as (Hf & _). unfold drawPhoto.
  repeat match goal with
         | |- context [if ?b then _ else _] => destruct b
         end; try exact H;
    cbv zeta; unfold Ctx.drawImage9, Ctx.drawImage5, Ctx.fillRect;
    repeat first [ apply unfiltered_emit; [cbn; try exact Hf; exact I |]
                 | apply unfiltered_withState; [reflexivity |] ];
    exact H.
Qed.

Lemma unfiltered_drawSlot env photo layout n cw ch c i :
  unfiltered c -> unfiltered (drawSlot env photo layout n cw ch c i).
Proof.
  intros H. unfold drawSlot.
  destruct (negb (JS.truthy (photoSrc photo i))); [exact H |].
  destruct (photoSrc photo i) as [src|]; [| exact H].
  destruct (loadImage env src) as [img|]; [| exact H].
  now apply unfiltered_drawPhoto.
Qed.

Lemma unfiltered_drawSticker env c sticker :
  unfiltered c -> unfiltered (drawSticker env c sticker).
Proof.
  intros (H1 & H2 & H3). rewrite drawSticker_effect.
  repeat split; cbn; [exact H1 | exact H2 |].
  rewrite drawnFilters_app. apply Forall_app. split; [exact H3 |].
  unfold stickerCmds. destruct (loadImage env (st_src sticker)); cbn; auto.
Qed.

Lemma unfiltered_drawFooter env cw ch c :
  unfiltered c -> unfiltered (drawFooter env cw ch c).
Proof.
  intros (H1 & H2 & H3). rewrite drawFooter_effect.
  repeat split; cbn; [exact H1 | exact H2 |].
  rewrite drawnFilters_app. apply Forall_app. split; [exact H3 | constructor].
Qed.

(** Whatever the applied filters, every image the export draws is drawn
    with the filter ["none"]. *)
Lemma export_never_filters env cv photo sl stickers a color c :
  drawStripToCanvas env (Some cv) photo sl stickers a color = Some c ->
  Forall (fun f => f = "none") (drawnFilters (pixels c)).
Proof.
  destruct (has2d cv) eqn:H.
  - rewrite drawStripToCanvas_stages by exact H. intros E. injection E as <-.
    apply unfiltered_drawFooter.
    apply fold_left_invariant; [intros; now apply unfiltered_drawSticker |].
    unfold stripSlots.
    apply fold_left_invariant; [intros; now apply unfiltered_drawSlot |].
    apply unfiltered_drawBackground.
  - now rewrite drawStripToCanvas_null.
Qed.

(** The applied filters are not an input of the export's result. *)
Lemma export_ignores_appliedFilters env ref photo sl stickers color a1 a2 :
  drawStripToCanvas env ref photo sl stickers a1 color
  = drawStripToCanvas env ref photo sl stickers a2 color.
Proof. reflexivity. Qed.

End ExportStages.

(** ** C1: the export does not apply the filters shown in the preview *)

(** C1 fails on the code.  With grayscale switched on and three photos in
    the three-photo vertical layout, the preview styles every photo with
    [grayscale(100%)] and [ImageProcessor.applyFilters] draws with that same
    filter, but the export draws its three photos with the filter ["none"]. *)
Theorem C1_export_draws_photos_unfiltered :
  let grayscale := FilterPanel.handleBasicFilterToggle FilterPanel.handleReset "grayscale" in
  let photo := PhotoArray [Sample.photo "a"; Sample.photo "b"; Sample.photo "c"] in
  PhotoCanvas.getImageStyle grayscale = "grayscale(100%)"
  /\ option_map (fun c => (drawnSources (pixels c), drawnFilters (pixels c)))
       (PhotoCanvas.drawStripToCanvas (Sample.env "10:00:00 AM") (Some Sample.canvas)
          photo (Some Sample.vertical3) [] grayscale "#ffffff")
     = Some (["a"; "b"; "c"], ["none"; "none"; "none"])
  /\ match ImageProcessor.applyFilters (Sample.env "10:00:00 AM") (Some Sample.canvas)
             "a" grayscale with
     | ImageProcessor.DataURL c => drawnFilters (pixels c) = ["grayscale(100%)"]
     | _ => False
     end.
Proof. cbv zeta. repeat split; vm_compute; reflexivity. Qed.

(** ** C2: the export draws stickers in array order *)

(** C2 fails on the code.  Given stickers with z-indices 3, 1, 2 in that
    array order, the export draws them in that order, while
    [ImageProcessor.addStickers] draws the same array by ascending
    z-index. *)
Theorem C2_export_draws_stickers_in_array_order :
  let stickers := [Sample.sticker "z3" 3; Sample.sticker "z1" 1; Sample.sticker "z2" 2] in
  option_map (fun c => drawnSources (pixels c))
    (PhotoCanvas.drawStripToCanvas (Sample.env "10:00:00 AM") (Some Sample.canvas)
       (OnePhoto (Sample.photo "a")) (Some Sample.vertical3) stickers
       Sample.noFilters "#ffffff")
  = Some ["a"; "a"; "a"; "z3.png"; "z1.png"; "z2.png"]
  /\ match ImageProcessor.addStickers (Sample.env "10:00:00 AM") (Some Sample.canvas)
             "a" stickers with
     | ImageProcessor.DataURL c =>
         drawnSources (pixels c) = ["a"; "z1.png"; "z2.png"; "z3.png"]
     | _ => False
     end.
Proof. cbv zeta. split; vm_compute; reflexivity. Qed.

(** ** C6: the crop window of the vertical layout *)

Section Crop.

Import PhotoCanvas.

Lemma inject_Z_pos z : (0 < z)%Z -> ~ inject_Z z == 0.
Proof.
  intros Hz H. unfold Qeq in H. simpl in H. lia.
Qed.

Lemma gt_true_iff a b : JS.gt a b = true <-> b < a.
Proof.
  unfold JS.gt. rewrite negb_true_iff. split.
  - intros H. apply Qnot_le_lt. intros Hle.
    apply Qle_bool_iff in Hle. congruence.
  - intros H. destruct (Qle_bool a b) eqn:E; [|reflexivity].
    apply Qle_bool_iff in E. exfalso. now apply (Qlt_not_le b a).
Qed.

Lemma cropWindow_wide img :
  JS.gt (inject_Z (img_width img) / inject_Z (img_height img)) targetAspect = true ->
  cropWindow img
  = mkRect ((inject_Z (img_width img) - inject_Z (img_height img) * targetAspect) / 2) 0
           (inject_Z (img_height img) * targetAspect) (inject_Z (img_height img)).
Proof. intros H. unfold cropWindow. cbv zeta. now rewrite H. Qed.

Lemma cropWindow_tall img :
  JS.gt (inject_Z (img_width img) / inject_Z (img_height img)) targetAspect = false ->
  cropWindow img
  = mkRect 0 ((inject_Z (img_height img) - inject_Z (img_width img) / targetAspect) / 2)
           (inject_Z (img_width img)) (inject_Z (img_width img) / targetAspect).
Proof. intros H. unfold cropWindow. cbv zeta. now rewrite H. Qed.

(** The vertical slot fills its box and draws the image cropped to
    [cropWindow]. *)
Lemma drawPhoto_vertical n cw ch i img c :
  exists st dest,
    pixels (drawPhoto "vertical" n cw ch i img c)
    = (pixels c ++ [FillRect st dest; DrawImage st img (Some (cropWindow img)) dest])%list.
Proof.
  unfold drawPhoto. simpl String.eqb. cbv iota zeta.
  destruct (cropWindow img) as [sx sy sw sh]. cbn.
  do 2 eexists. rewrite <- app_assoc. reflexivity.
Qed.

End Crop.

(** C6: in the vertical layout, for a source image of positive width and
    height whose aspect ratio is not 3:2, the crop window has aspect ratio
    3:2 and is centred: if the source is wider than 3:2 the window starts at
    the top and the same width is trimmed on the left and on the right,
    otherwise it starts at the left and the same height is trimmed above and
    below.  This window is the one the slot's image is drawn with. *)
Theorem C6_vertical_crop_window :
  forall img : Image,
    (0 < img_width img)%Z ->
    (0 < img_height img)%Z ->
    let width := inject_Z (img_width img) in
    let height := inject_Z (img_height img) in
    ~ width / height == 3 # 2 ->
    let w := PhotoCanvas.cropWindow img in
    rw w / rh w == 3 # 2
    /\ (3 # 2 < width / height ->
        ry w == 0 /\ rx w == (width - rw w) / 2 /\ rx w == width - (rx w + rw w))
    /\ (~ 3 # 2 < width / height ->
        rx w == 0 /\ ry w == (height - rh w) / 2 /\ ry w == height - (ry w + rh w))
    /\ (forall n cw ch i c, exists st dest,
          pixels (PhotoCanvas.drawPhoto "vertical" n cw ch i img c)
          = (pixels c ++ [FillRect st dest; DrawImage st img (Some w) dest])%list).
Proof.
  intros img Hw Hh width height Hne w.
  pose proof (inject_Z_pos _ Hw) as Hw0. pose proof (inject_Z_pos _ Hh) as Hh0.
  fold width in Hw0. fold height in Hh0.
  assert (PhotoCanvas.targetAspect == 3 # 2) as Ht by reflexivity.
  split; [| split; [| split]].
  - subst w. destruct (JS.gt (width / height) PhotoCanvas.targetAspect) eqn:E.
    + rewrite cropWindow_wide by exact E. cbn [rw rh]. fold height.
      rewrite Ht. field. exact Hh0.
    + rewrite cropWindow_tall by exact E. cbn [rw rh]. fold width.
      rewrite Ht. field. exact Hw0.
  - intros Hwide. subst w.
    rewrite cropWindow_wide by (apply gt_true_iff; exact Hwide).
    cbn [rx ry rw rh]. fold width height.
    split; [reflexivity |]. split; [reflexivity |]. field.
  - intros Htall. subst w.
    rewrite cropWindow_tall.
    + cbn [rx ry rw rh]. fold width height.
      split; [reflexivity |]. split; [reflexivity |]. rewrite Ht. field.
    + destruct (JS.gt (width / height) PhotoCanvas.targetAspect) eqn:E; [| exact E].
      apply gt_true_iff in E. contradiction.
  - intros n cw ch i c. apply drawPhoto_vertical.
Qed.

Lemma C6_witness :
  let w := PhotoCanvas.cropWindow (mkImage "a" 1920 1080) in
  rw w / rh w == 3 # 2.
Proof.
  refine (proj1 (C6_vertical_crop_window (mkImage "a" 1920 1080) _ _ _)).
  - reflexivity.
  - reflexivity.
  - cbn. unfold Qeq. cbn. lia.
Defined.

(** ** C7 and C8: which photo fills a slot *)

Section Slots.

Import PhotoCanvas.

Lemma truthy_nonempty s : s <> "" -> JS.truthy (Some s) = true.
Proof. intros H. simpl. apply negb_true_iff. now apply String.eqb_neq. Qed.

Lemma or_falsy a b : JS.truthy a = false -> JS.or a b = b.
Proof. intros H. unfold JS.or. now rewrite H. Qed.

Lemma or_truthy a b : JS.truthy a = true -> JS.or a b = a.
Proof. intros H. unfold JS.or. now rewrite H. Qed.

Lemma or_cases a b : JS.or a b = a \/ JS.or a b = b.
Proof. unfold JS.or. destruct (JS.truthy a); auto. Qed.

(** A slot whose source is [src], a non-empty string. *)
Lemma drawSlot_with env photo layout n cw ch c i src :
  photoSrc photo i = Some src ->
  src <> "" ->
  drawSlot env photo layout n cw ch c i
  = match loadImage env src with
    | Some img => drawPhoto layout n cw ch i img c
    | None => c
    end.
Proof.
  intros Hsrc Hne. unfold drawSlot. rewrite Hsrc.
  now rewrite (truthy_nonempty _ Hne).
Qed.

(** A slot without a source is skipped. *)
Lemma drawSlot_skip env photo layout n cw ch c i :
  JS.truthy (photoSrc photo i) = false ->
  drawSlot env photo layout n cw ch c i = c.
Proof. intros H. unfold drawSlot. now rewrite H. Qed.

Lemma photoSrc_beyond photo p0 rest i :
  photos photo = p0 :: rest ->
  originalSrc p0 <> "" ->
  (length (photos photo) <= i)%nat ->
  photoSrc photo i = Some (originalSrc p0).
Proof.
  intros Hps Hne Hlen. destruct photo as [p | ps]; simpl in *.
  - injection Hps as -> _. reflexivity.
  - subst ps. unfold primaryPhoto. simpl photos.
    apply nth_error_None in Hlen. rewrite Hlen. simpl srcOf.
    rewrite (or_falsy None) by reflexivity.
    apply or_truthy. now apply truthy_nonempty.
Qed.

Lemma photoSrc_own photo p i :
  nth_error (photos photo) i = Some p ->
  originalSrc p <> "" ->
  photoSrc photo i = Some (originalSrc p).
Proof.
  intros Hp Hne. destruct photo as [q | ps]; simpl in *.
  - destruct i as [|i]; simpl in Hp.
    + injection Hp as ->. reflexivity.
    + now destruct i.
  - rewrite Hp. simpl srcOf.
    rewrite (or_truthy (Some (originalSrc p))) by now apply truthy_nonempty.
    apply or_truthy. now apply truthy_nonempty.
Qed.

Lemma srcOf_nth_falsy ps k :
  Forall (fun p => originalSrc p = "") ps ->
  JS.truthy (srcOf (nth_error ps k)) = false.
Proof.
  intros Hall. destruct (nth_error ps k) as [p|] eqn:E; [| reflexivity].
  apply nth_error_In in E. rewrite Forall_forall in Hall.
  simpl. now rewrite (Hall p E).
Qed.

Lemma photoSrc_falsy photo i :
  Forall (fun p => originalSrc p = "") (photos photo) ->
  JS.truthy (photoSrc photo i) = false.
Proof.
  intros Hall. destruct photo as [p | ps];
    unfold photoSrc, primaryPhoto; cbn [photos] in *.
  - apply (srcOf_nth_falsy [p] 0 Hall).
  - rewrite (or_falsy (srcOf (nth_error ps i))) by now apply srcOf_nth_falsy.
    rewrite or_falsy; now apply srcOf_nth_falsy.
Qed.

Lemma photoSrc_in photo i src :
  photoSrc photo i = Some src -> In src (map originalSrc (photos photo)).
Proof.
  assert (forall ps k, srcOf (nth_error ps k) = Some src -> In src (map originalSrc ps)) as H.
  { intros ps k E. destruct (nth_error ps k) as [p|] eqn:En; [| discriminate].
    injection E as <-. apply in_map. now apply nth_error_In with k. }
  destruct photo as [p | ps]; unfold photoSrc, primaryPhoto; cbn [photos].
  - intros E. apply (H [p] 0%nat E).
  - intros E.
    destruct (or_cases (JS.or (srcOf (nth_error ps i)) (srcOf (nth_error ps 0)))
                (srcOf (nth_error ps 0)))
      as [E1 | E1]; rewrite E1 in E; [| now apply H with 0%nat].
    destruct (or_cases (srcOf (nth_error ps i)) (srcOf (nth_error ps 0)))
      as [E2 | E2]; rewrite E2 in E; [now apply H with i | now apply H with 0%nat].
Qed.

(** In the three layouts a decoded slot image is drawn once, from its
    source. *)
Lemma drawPhoto_sources env layout n cw ch i src img c :
  loadImage env src = Some img ->
  layout = "vertical" \/ layout = "grid" \/ layout = "horizontal" ->
  drawnSources (pixels (drawPhoto layout n cw ch i img c))
  = (drawnSources (pixels c) ++ [src])%list.
Proof.
  intros Himg Hl. apply loadImage_src in Himg. subst src.
  destruct Hl as [-> | [-> | ->]]; unfold drawPhoto; simpl String.eqb; cbv iota zeta;
    cbn; rewrite <- app_assoc, drawnSources_app; reflexivity.
Qed.

End Slots.

Section Filler.

Import PhotoCanvas.

Lemma drawnImages_app l1 l2 :
  drawnImages (l1 ++ l2) = (drawnImages l1 ++ drawnImages l2)%list.
Proof. unfold drawnImages. apply flat_map_app. Qed.

(** A slot within the list: its own photo's source, or the first photo's
    when its own is empty. *)
Lemma photoSrc_within photo p0 rest p i :
  photos photo = p0 :: rest ->
  originalSrc p0 <> "" ->
  nth_error (photos photo) i = Some p ->
  photoSrc photo i = Some (JS.orString (originalSrc p) (originalSrc p0))
  /\ JS.orString (originalSrc p) (originalSrc p0) <> "".
Proof.
  intros Hps Hne Hp.
  assert (JS.orString (originalSrc p) (originalSrc p0) <> "") as Hor.
  { unfold JS.orString. destruct (String.eqb (originalSrc p) "") eqn:E; [exact Hne |].
    now apply String.eqb_neq. }
  split; [| exact Hor].
  unfold JS.orString in *.
  destruct (String.eqb (originalSrc p) "") eqn:E.
  - apply String.eqb_eq in E.
    destruct photo as [q | ps]; cbn [photos] in *.
    + injection Hps as -> _. destruct i as [|i]; [| now destruct i].
      reflexivity.
    + subst ps. unfold photoSrc, primaryPhoto. cbn [photos]. rewrite Hp.
      cbn [nth_error srcOf option_map].
      rewrite (or_falsy (Some (originalSrc p))) by (simpl; now rewrite E).
      apply or_truthy. now apply truthy_nonempty.
  - apply String.eqb_neq in E. now apply photoSrc_own.
Qed.

(** In the three layouts a decoded slot image is drawn once, from its
    source, into the slot's box. *)
Lemma drawPhoto_images env layout n i src img c :
  loadImage env src = Some img ->
  layout = "vertical" \/ layout = "grid" \/ layout = "horizontal" ->
  drawnImages (pixels (drawPhoto layout n (fst (canvasSize n layout))
                         (snd (canvasSize n layout)) i img c))
  = (drawnImages (pixels c) ++ [(src, slotRect layout n i)])%list.
Proof.
  intros Himg Hl. apply loadImage_src in Himg. subst src.
  destruct Hl as [-> | [-> | ->]]; unfold drawPhoto, slotRect; simpl String.eqb;
    cbv iota zeta;
    cbn [pixels Ctx.drawImage9 Ctx.drawImage5 Ctx.fillRect Ctx.setFillStyle Ctx.emit
         Ctx.withState state];
    unfold drawnImages; rewrite !flat_map_app; cbn; now rewrite app_nil_r.
Qed.

Lemma drawSlot_images env photo layout n c i src :
  photoSrc photo i = Some src ->
  src <> "" ->
  layout = "vertical" \/ layout = "grid" \/ layout = "horizontal" ->
  drawnImages (pixels (drawSlot env photo layout n (fst (canvasSize n layout))
                         (snd (canvasSize n layout)) c i))
  = (drawnImages (pixels c) ++ slotImage env layout n i src)%list.
Proof.
  intros Hsrc Hne Hl. rewrite (drawSlot_with _ _ _ _ _ _ _ _ _ Hsrc Hne).
  unfold slotImage. destruct (decodes env src) eqn:Ed.
  - apply loadImage_decodes in Ed. destruct Ed as [img Himg]. rewrite Himg.
    now apply drawPhoto_images with env.
  - destruct (loadImage env src) as [img|] eqn:El; [| now rewrite app_nil_r].
    assert (decodes env src = true) by (apply loadImage_decodes; now exists img).
    congruence.
Qed.

(** The slot loop over the indices [l], each slot [i] having the source
    [srcAt i]. *)
Lemma drawSlots_images env photo layout n (srcAt : nat -> string) l : forall c,
  layout = "vertical" \/ layout = "grid" \/ layout = "horizontal" ->
  (forall i, In i l -> photoSrc photo i = Some (srcAt i) /\ srcAt i <> "") ->
  drawnImages (pixels (fold_left (drawSlot env photo layout n (fst (canvasSize n layout))
                                    (snd (canvasSize n layout))) l c))
  = (drawnImages (pixels c) ++ flat_map (fun i => slotImage env layout n i (srcAt i)) l)%list.
Proof.
  induction l as [|i l IH]; intros c Hl Hsrc; simpl; [now rewrite app_nil_r |].
  destruct (Hsrc i (or_introl eq_refl)) as [Hi Hne].
  rewrite IH; [| exact Hl | intros j Hj; apply Hsrc; now right].
  rewrite (drawSlot_images _ _ _ _ _ _ _ Hi Hne Hl). now rewrite <- app_assoc.
Qed.

Lemma drawStickers_images env stickers : forall c,
  drawnImages (pixels (fold_left (drawSticker env) stickers c))
  = (drawnImages (pixels c)
     ++ map stickerImage (filter (fun s => decodes env (st_src s)) stickers))%list.
Proof.
  induction stickers as [|s l IH]; intros c; simpl; [now rewrite app_nil_r |].
  rewrite IH, drawSticker_effect. cbn [pixels].
  rewrite drawnImages_app, <- app_assoc. f_equal.
  unfold stickerCmds, decodes, loadImage, stickerImage.
  destruct (decode env (st_src s)) as [[w h]|]; reflexivity.
Qed.

Lemma flat_map_same_in {A B} (f g : A -> list B) (l : list A) :
  (forall x, In x l -> f x = g x) -> flat_map f l = flat_map g l.
Proof.
  induction l as [|x l IH]; intros H; simpl; [reflexivity |].
  rewrite (H x (or_introl eq_refl)). f_equal. apply IH. intros y Hy. apply H. now right.
Qed.

(** Slots [from], [from + 1], ... of the list's own photos. *)
Lemma flat_map_own {B} (f : nat -> Photo -> list B) (d : Photo) ps : forall from,
  flat_map (fun i => f i (nth (i - from) ps d)) (seq from (length ps))
  = flat_map (fun ip => f (fst ip) (snd ip)) (combine (seq from (length ps)) ps).
Proof.
  induction ps as [|p ps IH]; intros from; simpl; [reflexivity |].
  rewrite Nat.sub_diag. f_equal. rewrite <- IH.
  apply flat_map_same_in. intros i Hi. apply in_seq in Hi.
  replace (i - from)%nat with (S (i - S from)) by lia. reflexivity.
Qed.

End Filler.

(** C7: for a non-empty photo list shorter than the layout's number of
    slots, the export draws, slot by slot and each into its slot's box:
    first the slots within the list, each from its own photo's bitmap (from
    the first photo's if its own source is empty), then every slot at or
    beyond the end of the list from the first photo's bitmap; after them the
    stickers.  A source that does not decode leaves its slot out. *)
Theorem C7_filler_policy :
  forall (env : Env) (cv : Canvas) (photo : PhotoProp) (p0 : Photo) (rest : list Photo)
         (l : FrameLayout) (stickers : list Sticker) (appliedFilters : AppliedFilters)
         (stripColor : string),
    has2d cv = true ->
    PhotoCanvas.photos photo = p0 :: rest ->
    originalSrc p0 <> "" ->
    (length (PhotoCanvas.photos photo) < photoCount l)%nat ->
    layout l = "vertical" \/ layout l = "grid" \/ layout l = "horizontal" ->
    let n := photoCount l in
    let given := length (PhotoCanvas.photos photo) in
    let own (ip : nat * Photo) :=
      slotImage env (layout l) n (fst ip)
        (JS.orString (originalSrc (snd ip)) (originalSrc p0)) in
    let filler (i : nat) := slotImage env (layout l) n i (originalSrc p0) in
    exists c,
      PhotoCanvas.drawStripToCanvas env (Some cv) photo (Some l) stickers
        appliedFilters stripColor = Some c
      /\ drawnImages (pixels c)
         = (flat_map own (combine (seq 0 given) (PhotoCanvas.photos photo))
            ++ flat_map filler (seq given (n - given))
            ++ map stickerImage (filter (fun s => decodes env (st_src s)) stickers))%list.
Proof.
  intros env cv photo p0 rest l stickers a color Hctx Hps Hne0 Hlen Hl n given own filler.
  subst own filler given.
  assert (PhotoCanvas.photoCountOf (Some l) = n) as Hn.
  { unfold PhotoCanvas.photoCountOf. fold n.
    destruct (Nat.eqb n 0) eqn:E; [apply Nat.eqb_eq in E; unfold n in E; lia | reflexivity]. }
  assert (PhotoCanvas.layoutOf (Some l) = layout l) as Hlay.
  { unfold PhotoCanvas.layoutOf, JS.orString. destruct Hl as [-> | [-> | ->]]; reflexivity. }
  eexists. split; [apply drawStripToCanvas_stages; exact Hctx |].
  rewrite drawFooter_effect. cbn [pixels].
  rewrite drawnImages_app, drawStickers_images. cbn [drawnImages flat_map].
  rewrite app_nil_r, app_assoc. f_equal.
  unfold stripSlots. cbv zeta. rewrite Hn, Hlay.
  set (srcAt := fun i =>
         if Nat.ltb i (length (PhotoCanvas.photos photo))
         then JS.orString (originalSrc (nth i (PhotoCanvas.photos photo) p0)) (originalSrc p0)
         else originalSrc p0).
  rewrite (drawSlots_images env photo (layout l) n srcAt); [| exact Hl |].
  - cbn [PhotoCanvas.drawBackground pixels Ctx.fillRect Ctx.emit Ctx.setFillStyle
         Ctx.withState Ctx.setHeight Ctx.setWidth drawnImages flat_map app].
    replace (seq 0 n)
      with (seq 0 (length (PhotoCanvas.photos photo))
            ++ seq (length (PhotoCanvas.photos photo))
                   (n - length (PhotoCanvas.photos photo)))%list.
    2:{ rewrite <- seq_app. f_equal. lia. }
    rewrite flat_map_app. f_equal.
    + rewrite <- (flat_map_own
                    (fun i p => slotImage env (layout l) n i
                                  (JS.orString (originalSrc p) (originalSrc p0)))
                    p0 (PhotoCanvas.photos photo) 0).
      apply flat_map_same_in. intros i Hi. apply in_seq in Hi.
      unfold srcAt.
      assert (Nat.ltb i (length (PhotoCanvas.photos photo)) = true) as ->
          by (apply Nat.ltb_lt; lia).
      now rewrite Nat.sub_0_r.
    + apply flat_map_same_in. intros i Hi. apply in_seq in Hi.
      unfold srcAt.
      assert (Nat.ltb i (length (PhotoCanvas.photos photo)) = false) as ->
          by (apply Nat.ltb_ge; lia).
      reflexivity.
  - intros i _. unfold srcAt.
    destruct (Nat.ltb i (length (PhotoCanvas.photos photo))) eqn:E.
    + apply Nat.ltb_lt in E.
      apply (photoSrc_within photo p0 rest); [exact Hps | exact Hne0 |].
      now apply nth_error_nth'.
    + apply Nat.ltb_ge in E. split; [| exact Hne0].
      now apply photoSrc_beyond with rest.
Qed.

Lemma C7_witness :
  exists c,
    PhotoCanvas.drawStripToCanvas (Sample.env "10:00:00 AM") (Some Sample.canvas)
      (PhotoArray [Sample.photo "a"; Sample.photo "b"]) (Some Sample.vertical3)
      [] Sample.noFilters "#ffffff" = Some c
    /\ drawnImages (pixels c)
       = [("a", slotRect "vertical" 3 0); ("b", slotRect "vertical" 3 1);
          ("a", slotRect "vertical" 3 2)].
Proof.
  refine (C7_filler_policy (Sample.env "10:00:00 AM") Sample.canvas
            (PhotoArray [Sample.photo "a"; Sample.photo "b"])
            (Sample.photo "a") [Sample.photo "b"] Sample.vertical3
            [] Sample.noFilters "#ffffff" eq_refl eq_refl _ _ (or_introl eq_refl)).
  - discriminate.
  - simpl. lia.
Defined.

(** ** C8: no photo with a source *)

Section NoPhoto.

Import PhotoCanvas.

Lemma fold_left_skip {A B} (f : A -> B -> A) (l : list B) (a : A) :
  (forall x, In x l -> f a x = a) -> fold_left f l a = a.
Proof.
  induction l as [|x l IH]; intros H; simpl; [reflexivity |].
  rewrite (H x (or_introl eq_refl)). apply IH. intros y Hy. apply H. now right.
Qed.

Lemma view_no_source photo :
  Forall (fun p => originalSrc p = "") (photos photo) ->
  view photo = NoPhotoAvailable.
Proof.
  intros Hall. unfold view, primaryPhoto.
  now rewrite (srcOf_nth_falsy (photos photo) 0 Hall).
Qed.

End NoPhoto.

Section Mounted.

Import PhotoCanvas.

Lemma truthy_or_r a b : JS.truthy b = true -> JS.truthy (JS.or a b) = true.
Proof. intros H. unfold JS.or. destruct (JS.truthy a) eqn:E; [exact E | exact H]. Qed.

(** While the editor is shown every slot has a source: the first photo's,
    if no other. *)
Lemma view_editor_sources photo i :
  view photo = StripEditor -> JS.truthy (photoSrc photo i) = true.
Proof.
  unfold view. destruct (JS.truthy (srcOf (primaryPhoto photo))) eqn:E; [| discriminate].
  intros _. destruct photo as [p | ps]; unfold photoSrc; [exact E |].
  now apply truthy_or_r.
Qed.

Lemma view_placeholder_ref photo element :
  view photo = NoPhotoAvailable -> Download.exportCanvasRef photo element = None.
Proof. intros H. unfold Download.exportCanvasRef. now rewrite H. Qed.

Lemma view_editor_ref photo element :
  view photo = StripEditor -> Download.exportCanvasRef photo element = Some element.
Proof. intros H. unfold Download.exportCanvasRef. now rewrite H. Qed.

End Mounted.




(** ** C5: what the export depends on *)




(* ================================================================== *)
(** * Further properties of the code *)
(* ================================================================== *)

(** ** The filter panel as a state machine *)

Section PanelFacts.

Import FilterPanel.

Lemma includes_app l1 l2 x : includes (l1 ++ l2) x = (includes l1 x || includes l2 x)%bool.
Proof. unfold includes. apply existsb_app. Qed.

Lemma includes_filter_out l n x :
  includes (filter (fun f => negb (String.eqb f n)) l) x
  = (negb (String.eqb x n) && includes l x)%bool.
Proof.
  unfold includes. induction l as [|y l IH]; simpl.
  - now rewrite andb_false_r.
  - destruct (String.eqb y n) eqn:Ey; simpl; rewrite IH.
    + apply String.eqb_eq in Ey. subst y.
      destruct (String.eqb x n); simpl; reflexivity.
    + destruct (String.eqb x y) eqn:Exy; simpl.
      * apply String.eqb_eq in Exy. subst y. rewrite Ey. reflexivity.
      * reflexivity.
Qed.

Lemma filter_out_absent l n :
  includes l n = false -> filter (fun f => negb (String.eqb f n)) l = l.
Proof.
  intros H. apply includes_false_iff in H.
  induction l as [|y l IH]; simpl; [reflexivity |].
  destruct (String.eqb y n) eqn:E; simpl.
  - apply String.eqb_eq in E. subst. exfalso. apply H. now left.
  - f_equal. apply IH. intros Hin. apply H. now right.
Qed.

Lemma set_set {V} (o : JS.object V) k v1 v2 :
  JS.set (JS.set o k v1) k v2 = JS.set o k v2.
Proof.
  induction o as [|[k' v'] o IH]; simpl.
  - now rewrite String.eqb_refl.
  - destruct (String.eqb k' k) eqn:E; simpl; rewrite E; [reflexivity | now rewrite IH].
Qed.

Lemma keys_set_present {V} (o : JS.object V) k v v0 :
  JS.get o k = Some v0 -> JS.keys (JS.set o k v) = JS.keys o.
Proof.
  unfold JS.keys. induction o as [|[k' v'] o IH]; simpl; [discriminate |].
  destruct (String.eqb k' k) eqn:E; simpl; [reflexivity |].
  intros H. now rewrite IH.
Qed.

Lemma keys_set_absent {V} (o : JS.object V) k v :
  JS.get o k = None -> JS.keys (JS.set o k v) = (JS.keys o ++ [k])%list.
Proof.
  unfold JS.keys. induction o as [|[k' v'] o IH]; simpl; [reflexivity |].
  destruct (String.eqb k' k) eqn:E; simpl; [discriminate |].
  intros H. now rewrite IH.
Qed.

End PanelFacts.

(** X1: a toggle flips whether the toggled name is among the basic filters
    and changes this for no other name; the advanced values are not
    touched. *)
Theorem X1_toggle_flips_one_membership :
  forall (a : AppliedFilters) (n m : string),
    FilterPanel.includes (basic (FilterPanel.handleBasicFilterToggle a n)) m
    = (if String.eqb m n then negb (FilterPanel.includes (basic a) n)
       else FilterPanel.includes (basic a) m)
    /\ advanced (FilterPanel.handleBasicFilterToggle a n) = advanced a.
Proof.
  intros a n m. split; [| reflexivity].
  unfold FilterPanel.handleBasicFilterToggle. cbn [basic].
  destruct (FilterPanel.includes (basic a) n) eqn:Hn.
  - rewrite includes_filter_out.
    destruct (String.eqb m n); simpl; reflexivity.
  - rewrite includes_app.
    destruct (String.eqb m n) eqn:E.
    + apply String.eqb_eq in E. subst m. rewrite Hn. simpl.
      unfold FilterPanel.includes. simpl. now rewrite String.eqb_refl.
    + unfold FilterPanel.includes at 2. simpl. rewrite E. simpl.
      now rewrite orb_false_r.
Qed.

(** X2: switching a filter on and then off again gives back the very state
    the panel started from. *)
Theorem X2_toggle_on_then_off_restores :
  forall (a : AppliedFilters) (n : string),
    FilterPanel.includes (basic a) n = false ->
    FilterPanel.handleBasicFilterToggle (FilterPanel.handleBasicFilterToggle a n) n = a.
Proof.
  intros [b adv] n H. simpl in H.
  unfold FilterPanel.handleBasicFilterToggle. cbn [basic advanced].
  rewrite H. cbn [basic advanced].
  assert (FilterPanel.includes (b ++ [n]) n = true) as ->.
  { rewrite includes_app. unfold FilterPanel.includes at 2. simpl.
    rewrite String.eqb_refl. now rewrite orb_true_r. }
  rewrite filter_app. simpl. rewrite String.eqb_refl. simpl.
  rewrite app_nil_r. now rewrite filter_out_absent.
Qed.

Lemma X2_witness :
  FilterPanel.handleBasicFilterToggle
    (FilterPanel.handleBasicFilterToggle (mkAppliedFilters ["sepia"] []) "blur") "blur"
  = mkAppliedFilters ["sepia"] [].
Proof.
  apply X2_toggle_on_then_off_restores. reflexivity.
Defined.

(** X3: switching an active filter off and then on again does not restore
    its place: the filter ends up last, after the other active filters in
    their old order. *)
Theorem X3_toggle_off_then_on_moves_last :
  forall (a : AppliedFilters) (n : string),
    FilterPanel.includes (basic a) n = true ->
    basic (FilterPanel.handleBasicFilterToggle (FilterPanel.handleBasicFilterToggle a n) n)
    = (filter (fun f => negb (String.eqb f n)) (basic a) ++ [n])%list.
Proof.
  intros [b adv] n H. simpl in H.
  unfold FilterPanel.handleBasicFilterToggle. cbn [basic advanced].
  rewrite H. cbn [basic advanced].
  rewrite includes_filter_out, String.eqb_refl. reflexivity.
Qed.

Lemma X3_witness :
  basic (FilterPanel.handleBasicFilterToggle
           (FilterPanel.handleBasicFilterToggle
              (mkAppliedFilters ["sepia"; "blur"] []) "sepia") "sepia")
  = ["blur"; "sepia"].
Proof.
  exact (X3_toggle_off_then_on_moves_last (mkAppliedFilters ["sepia"; "blur"] []) "sepia" eq_refl).
Defined.

(** X4: the panel never lists a basic filter twice nor holds two values
    for one advanced filter: a state without duplicates stays so under
    toggles and value changes, and reset yields such a state. *)
Theorem X4_panel_state_has_no_duplicates :
  forall (a : AppliedFilters) (n : string) (v : Z),
    NoDup (basic a) ->
    NoDup (JS.keys (advanced a)) ->
    (NoDup (basic (FilterPanel.handleBasicFilterToggle a n))
     /\ NoDup (JS.keys (advanced (FilterPanel.handleBasicFilterToggle a n))))
    /\ (NoDup (basic (FilterPanel.handleAdvancedFilterChange a n v))
        /\ NoDup (JS.keys (advanced (FilterPanel.handleAdvancedFilterChange a n v))))
    /\ (NoDup (basic FilterPanel.handleReset)
        /\ NoDup (JS.keys (advanced FilterPanel.handleReset))).
Proof.
  intros a n v Hb Hk. split; [| split].
  - split; [| exact Hk].
    unfold FilterPanel.handleBasicFilterToggle. cbn [basic].
    destruct (FilterPanel.includes (basic a) n) eqn:E.
    + now apply NoDup_filter.
    + apply includes_false_iff in E.
      apply NoDup_app; [exact Hb | repeat constructor; intros [] |].
      intros x Hx [<- | []]. contradiction.
  - split; [exact Hb |]. cbn [advanced FilterPanel.handleAdvancedFilterChange].
    now apply keys_set_nodup.
  - split; constructor.
Qed.

Lemma X4_witness :
  NoDup (basic (FilterPanel.handleBasicFilterToggle
                  (mkAppliedFilters ["sepia"] [("blur", 3%Z)]) "blur")).
Proof.
  refine (proj1 (proj1 (X4_panel_state_has_no_duplicates
                          (mkAppliedFilters ["sepia"] [("blur", 3%Z)]) "blur" 0%Z _ _))).
  - repeat constructor; simpl; tauto.
  - repeat constructor; simpl; tauto.
Defined.

(** X5: changing an advanced value twice leaves the state of changing it
    once to the last value; the change is what a lookup of that filter then
    finds, no other filter's value changes, and the filter keeps its place
    among the entries if it had one and goes last if not. *)
Theorem X5_advanced_change_last_write_wins :
  forall (a : AppliedFilters) (n : string) (v1 v2 : Z),
    FilterPanel.handleAdvancedFilterChange (FilterPanel.handleAdvancedFilterChange a n v1) n v2
    = FilterPanel.handleAdvancedFilterChange a n v2
    /\ JS.get (advanced (FilterPanel.handleAdvancedFilterChange a n v2)) n = Some v2
    /\ (forall m, m <> n ->
          JS.get (advanced (FilterPanel.handleAdvancedFilterChange a n v2)) m
          = JS.get (advanced a) m)
    /\ JS.keys (advanced (FilterPanel.handleAdvancedFilterChange a n v2))
       = match JS.get (advanced a) n with
         | Some _ => JS.keys (advanced a)
         | None => (JS.keys (advanced a) ++ [n])%list
         end
    /\ basic (FilterPanel.handleAdvancedFilterChange a n v2) = basic a.
Proof.
  intros a n v1 v2. unfold FilterPanel.handleAdvancedFilterChange. cbn [advanced basic].
  split; [now rewrite set_set |].
  split; [apply get_set_same |].
  split; [intros m Hm; now apply get_set_other |].
  split; [| reflexivity].
  destruct (JS.get (advanced a) n) eqn:E.
  - now apply keys_set_present with z.
  - now apply keys_set_absent.
Qed.

(** X6: after a change to a value other than 0 the filter's slider shows
    that value, and the sliders of the other filters show what they showed
    before. *)
Theorem X6_slider_shows_the_value_set :
  forall (a : AppliedFilters) (f g : AdvancedFilter) (v : Z),
    v <> 0%Z ->
    af_name g <> af_name f ->
    FilterPanel.sliderValue (FilterPanel.handleAdvancedFilterChange a (af_name f) v) f = v
    /\ FilterPanel.sliderValue (FilterPanel.handleAdvancedFilterChange a (af_name f) v) g
       = FilterPanel.sliderValue a g.
Proof.
  intros a f g v Hv Hg. unfold FilterPanel.sliderValue, FilterPanel.handleAdvancedFilterChange.
  cbn [advanced]. split.
  - rewrite get_set_same. simpl. apply Z.eqb_neq in Hv. now rewrite Hv.
  - now rewrite get_set_other.
Qed.

Lemma X6_witness :
  FilterPanel.sliderValue
    (FilterPanel.handleAdvancedFilterChange FilterPanel.handleReset "blur" 7%Z)
    (mkAdvancedFilter "blur" 0 10 0 "px" "Blur") = 7%Z.
Proof.
  refine (proj1 (X6_slider_shows_the_value_set FilterPanel.handleReset
                   (mkAdvancedFilter "blur" 0 10 0 "px" "Blur")
                   (mkAdvancedFilter "contrast" 0 300 100 "%" "Contrast") 7%Z _ _)).
  - discriminate.
  - discriminate.
Defined.

(** ** Names the filter strings do not know, and where the two strings agree *)

Section ChunkFacts.

Variable A : Type.
Variable chunk : A -> string.

Lemma fold_chunk_filter (p : A -> bool) (l : list A) (acc : string) :
  (forall x, p x = false -> chunk x = "") ->
  fold_left (fun s x => s ++ chunk x) (filter p l) acc
  = fold_left (fun s x => s ++ chunk x) l acc.
Proof.
  intros H. revert acc. induction l as [|x l IH]; intros acc; simpl; [reflexivity |].
  destruct (p x) eqn:E; simpl; [apply IH |].
  rewrite (H x E), append_nil_r. apply IH.
Qed.

Lemma fold_chunk_snoc_empty (l : list A) (x : A) (acc : string) :
  chunk x = "" ->
  fold_left (fun s y => s ++ chunk y) (l ++ [x])%list acc
  = fold_left (fun s y => s ++ chunk y) l acc.
Proof. intros H. rewrite fold_left_app. simpl. now rewrite H, append_nil_r. Qed.

End ChunkFacts.

Section UnknownNames.

Import FilterPanel.

Lemma fold_chunk_set (chunk : string * Z -> string) (o : JS.object Z) k v acc :
  (forall v', chunk (k, v') = "") ->
  fold_left (fun s e => s ++ chunk e) (JS.set o k v) acc
  = fold_left (fun s e => s ++ chunk e) o acc.
Proof.
  intros H. revert acc. induction o as [|[k' v'] o IH]; intros acc; simpl.
  - now rewrite H, append_nil_r.
  - destruct (String.eqb k' k) eqn:E; simpl; [| apply IH].
    apply String.eqb_eq in E. subst k'. now rewrite !H.
Qed.

Lemma fold_chunk_toggle (chunk : string -> string) a n acc :
  chunk n = "" ->
  fold_left (fun s x => s ++ chunk x) (basic (handleBasicFilterToggle a n)) acc
  = fold_left (fun s x => s ++ chunk x) (basic a) acc.
Proof.
  intros H. unfold handleBasicFilterToggle. cbn [basic].
  destruct (includes (basic a) n).
  - apply fold_chunk_filter. intros x Hx.
    apply negb_false_iff, String.eqb_eq in Hx. now subst.
  - now apply fold_chunk_snoc_empty.
Qed.

Lemma findBasic_unknown n : ~ In n (map bf_name BASIC_FILTERS) -> findBasic n = None.
Proof.
  intros H. unfold findBasic, JS.find, BASIC_FILTERS. cbn [List.find bf_name].
  repeat match goal with
         | |- context [String.eqb ?s n] =>
             let E := fresh "E" in
             destruct (String.eqb s n) eqn:E;
             [apply String.eqb_eq in E; subst; exfalso; apply H; simpl; tauto |]
         end.
  reflexivity.
Qed.

Lemma findAdvanced_unknown k : ~ In k (map af_name ADVANCED_FILTERS) -> findAdvanced k = None.
Proof.
  intros H. unfold findAdvanced, JS.find, ADVANCED_FILTERS. cbn [List.find af_name].
  repeat match goal with
         | |- context [String.eqb ?s k] =>
             let E := fresh "E" in
             destruct (String.eqb s k) eqn:E;
             [apply String.eqb_eq in E; subst; exfalso; apply H; simpl; tauto |]
         end.
  reflexivity.
Qed.

Lemma basicCss_unknown n : ~ In n (map bf_name BASIC_FILTERS) -> PhotoCanvas.basicCss n = "".
Proof.
  intros H. unfold PhotoCanvas.basicCss.
  repeat match goal with
         | |- context [String.eqb n ?s] =>
             let E := fresh "E" in
             destruct (String.eqb n s) eqn:E;
             [apply String.eqb_eq in E; subst; exfalso; apply H; simpl; tauto |]
         end.
  reflexivity.
Qed.

Lemma advancedCss_unknown k v :
  ~ In k (map af_name ADVANCED_FILTERS) -> PhotoCanvas.advancedCss (k, v) = "".
Proof.
  intros H. unfold PhotoCanvas.advancedCss.
  repeat match goal with
         | |- context [String.eqb k ?s] =>
             let E := fresh "E" in
             destruct (String.eqb k s) eqn:E;
             [apply String.eqb_eq in E; subst; exfalso; apply H; simpl; tauto |]
         end.
  reflexivity.
Qed.

End UnknownNames.

(** X7: a basic filter name and an advanced filter name that the tables do
    not declare are ignored: toggling the one, or setting a value for the
    other, changes neither the filter string of [applyFilters] nor the
    preview style. *)
Theorem X7_undeclared_filter_names_are_ignored :
  forall (a : AppliedFilters) (n k : string) (v : Z),
    ~ In n (map bf_name BASIC_FILTERS) ->
    ~ In k (map af_name ADVANCED_FILTERS) ->
    ImageProcessor.filterString (FilterPanel.handleBasicFilterToggle a n)
    = ImageProcessor.filterString a
    /\ ImageProcessor.filterString (FilterPanel.handleAdvancedFilterChange a k v)
       = ImageProcessor.filterString a
    /\ PhotoCanvas.getImageStyle (FilterPanel.handleBasicFilterToggle a n)
       = PhotoCanvas.getImageStyle a
    /\ PhotoCanvas.getImageStyle (FilterPanel.handleAdvancedFilterChange a k v)
       = PhotoCanvas.getImageStyle a.
Proof.
  intros a n k v Hn Hk.
  split; [| split; [| split]].
  - rewrite !filterString_split. f_equal.
    rewrite !fold_basicStep. apply fold_chunk_toggle.
    unfold basicChunk, ImageProcessor.basicStep. now rewrite findBasic_unknown.
  - unfold ImageProcessor.filterString. cbn [basic advanced FilterPanel.handleAdvancedFilterChange].
    rewrite !fold_advancedStep. apply fold_chunk_set.
    intros v'. unfold advancedChunk, ImageProcessor.advancedStep.
    now rewrite findAdvanced_unknown.
  - unfold PhotoCanvas.getImageStyle, PhotoCanvas.styleFilter. do 2 f_equal.
    cbn [advanced FilterPanel.handleBasicFilterToggle]. f_equal.
    apply (fold_chunk_toggle PhotoCanvas.basicCss). now apply basicCss_unknown.
  - unfold PhotoCanvas.getImageStyle, PhotoCanvas.styleFilter. do 2 f_equal.
    cbn [basic advanced FilterPanel.handleAdvancedFilterChange].
    apply (fold_chunk_set PhotoCanvas.advancedCss).
    intros v'. now apply advancedCss_unknown.
Qed.

Lemma X7_witness :
  ImageProcessor.filterString
    (FilterPanel.handleBasicFilterToggle (mkAppliedFilters ["sepia"] []) "vintage")
  = ImageProcessor.filterString (mkAppliedFilters ["sepia"] []).
Proof.
  refine (proj1 (X7_undeclared_filter_names_are_ignored
                   (mkAppliedFilters ["sepia"] []) "vintage" "glow" 1%Z _ _)).
  - simpl. intros H. repeat (destruct H as [H | H]; [discriminate H |]). exact H.
  - simpl. intros H. repeat (destruct H as [H | H]; [discriminate H |]). exact H.
Defined.

(** X8: as long as the basic filters in use are among grayscale, sepia,
    invert, blur and hue-rotate and the advanced ones among brightness,
    contrast, saturate and blur, the preview and [applyFilters] build the
    same filter string, so the preview style is that string trimmed, or
    ["none"] when it is empty. *)
Theorem X8_preview_and_applyFilters_agree_on_common_filters :
  forall a : AppliedFilters,
    Forall (fun n => In n ["grayscale"; "sepia"; "invert"; "blur"; "hue-rotate"]) (basic a) ->
    Forall (fun e => In (fst e) ["brightness"; "contrast"; "saturate"; "blur"]) (advanced a) ->
    PhotoCanvas.styleFilter a = ImageProcessor.filterString a
    /\ PhotoCanvas.getImageStyle a
       = JS.orString (JS.trim (ImageProcessor.filterString a)) "none".
Proof.
  intros a Hb Ha.
  assert (PhotoCanvas.styleFilter a = ImageProcessor.filterString a) as E.
  { unfold PhotoCanvas.styleFilter, ImageProcessor.filterString.
    rewrite fold_advancedStep, fold_basicStep.
    rewrite (fold_left_ext_in (fun filter basicFilter => filter ++ PhotoCanvas.basicCss basicFilter)
               (fun s x => s ++ basicChunk x) (basic a)).
    - apply fold_left_ext_in. intros s [k v] Hin.
      rewrite Forall_forall in Ha. specialize (Ha (k, v) Hin). simpl in Ha.
      destruct Ha as [<- | [<- | [<- | [<- | []]]]]; reflexivity.
    - intros s n Hin. rewrite Forall_forall in Hb. specialize (Hb n Hin). simpl in Hb.
      destruct Hb as [<- | [<- | [<- | [<- | [<- | []]]]]]; reflexivity. }
  split; [exact E |]. unfold PhotoCanvas.getImageStyle. now rewrite E.
Qed.

Lemma X8_witness :
  PhotoCanvas.styleFilter (mkAppliedFilters ["sepia"] [("blur", 3%Z)])
  = ImageProcessor.filterString (mkAppliedFilters ["sepia"] [("blur", 3%Z)]).
Proof.
  refine (proj1 (X8_preview_and_applyFilters_agree_on_common_filters
                   (mkAppliedFilters ["sepia"] [("blur", 3%Z)]) _ _)).
  - repeat constructor; simpl; tauto.
  - repeat constructor; simpl; tauto.
Defined.

(** ** Adding, removing and updating stickers *)

Section StickerLists.

Import ImageProcessor.

Lemma addFromPanel_zIndex adds : forall l0,
  map zIndex (fold_left addFromPanel adds l0)
  = (map zIndex l0 ++ map Z.of_nat (seq (S (length l0)) (length adds)))%list.
Proof.
  induction adds as [|a adds IH]; intros l0; simpl.
  - now rewrite app_nil_r.
  - rewrite IH. unfold addFromPanel, Page.handleAddSticker.
    rewrite map_app, length_app, <- app_assoc. simpl.
    rewrite Nat.add_1_r. do 2 f_equal. lia.
Qed.

Lemma addFromPanel_src adds : forall l0,
  map st_src (fold_left addFromPanel adds l0)
  = (map st_src l0 ++ map (fun a => StickerPanel.sd_src (snd a)) adds)%list.
Proof.
  induction adds as [|a adds IH]; intros l0; simpl.
  - now rewrite app_nil_r.
  - rewrite IH. unfold addFromPanel, Page.handleAddSticker.
    rewrite map_app, <- app_assoc. reflexivity.
Qed.

Lemma zSorted_of_seq l : forall k,
  map zIndex l = map Z.of_nat (seq k (length l)) -> zSorted l.
Proof.
  unfold zSorted. induction l as [|s l IH]; intros k H; [constructor |].
  simpl in H. injection H as Hs Hl. constructor; [now apply IH with (S k) |].
  apply Forall_forall. intros t Ht.
  assert (In (zIndex t) (map zIndex l)) as Hin by now apply in_map.
  rewrite Hl in Hin. apply in_map_iff in Hin. destruct Hin as [i [Hi Hin]].
  apply in_seq in Hin. lia.
Qed.

Lemma sortByZIndex_sorted_id l : zSorted l -> sortByZIndex l = l.
Proof.
  unfold zSorted. induction l as [|s l IH]; intros H; simpl; [reflexivity |].
  inversion H as [|? ? Hl Hs]; subst. rewrite (IH Hl).
  destruct l as [|t l]; simpl; [reflexivity |].
  inversion Hs as [|? ? Hst _]; subst.
  apply Z.leb_le in Hst. now rewrite Hst.
Qed.

Lemma filter_all {A} (p : A -> bool) (l : list A) :
  (forall x, In x l -> p x = true) -> filter p l = l.
Proof.
  induction l as [|x l IH]; intros H; simpl; [reflexivity |].
  rewrite (H x (or_introl eq_refl)). f_equal. apply IH. intros y Hy. apply H. now right.
Qed.

Lemma zSorted_filter (p : Sticker -> bool) l : zSorted l -> zSorted (filter p l).
Proof.
  unfold zSorted. induction l as [|s l IH]; intros H; simpl; [constructor |].
  inversion H as [|? ? Hl Hs]; subst.
  destruct (p s); [| now apply IH].
  constructor; [now apply IH |].
  apply Forall_forall. intros t Ht. apply filter_In in Ht.
  rewrite Forall_forall in Hs. now apply Hs.
Qed.

End StickerLists.

(** X9: a sticker added from the panel goes last and gets the list's
    length plus one as z-index.  So a list built from the empty one by
    additions alone has the z-indices 1, 2, ... in array order: it is in
    ascending z-order, sorting it by z-index changes nothing, and the array
    order in which the export draws it is its z-order. *)
Theorem X9_added_stickers_are_in_z_order :
  forall adds : list (Z * StickerPanel.StickerData),
    let stickers := fold_left addFromPanel adds [] in
    map zIndex stickers = map Z.of_nat (seq 1 (length adds))
    /\ map st_src stickers = map (fun a => StickerPanel.sd_src (snd a)) adds
    /\ zSorted stickers
    /\ ImageProcessor.sortByZIndex stickers = stickers.
Proof.
  intros adds stickers.
  assert (map zIndex stickers = map Z.of_nat (seq 1 (length adds))) as Hz.
  { unfold stickers. now rewrite addFromPanel_zIndex. }
  assert (zSorted stickers) as Hs.
  { apply zSorted_of_seq with 1%nat. rewrite Hz.
    replace (length stickers) with (length adds); [reflexivity |].
    rewrite <- (length_map zIndex stickers), Hz, length_map, length_seq. reflexivity. }
  split; [exact Hz |].
  split; [unfold stickers; now rewrite addFromPanel_src |].
  split; [exact Hs | now apply sortByZIndex_sorted_id].
Qed.

(** X10: removing a sticker by id leaves no sticker with that id and keeps
    every other sticker, in the old order; a list in ascending z-order stays
    so, and removing the same id again changes nothing. *)
Theorem X10_remove_sticker :
  forall (stickers : list Sticker) (stickerId : string),
    let rest := Page.handleRemoveSticker stickers stickerId in
    ~ In stickerId (map st_id rest)
    /\ (forall s, In s rest <-> In s stickers /\ st_id s <> stickerId)
    /\ rest = filter (fun s => negb (String.eqb (st_id s) stickerId)) stickers
    /\ (zSorted stickers -> zSorted rest)
    /\ Page.handleRemoveSticker rest stickerId = rest
    /\ (length rest <= length stickers)%nat.
Proof.
  intros stickers stickerId rest.
  assert (forall s, In s rest <-> In s stickers /\ st_id s <> stickerId) as Hin.
  { intros s. unfold rest, Page.handleRemoveSticker. rewrite filter_In.
    rewrite negb_true_iff, String.eqb_neq. reflexivity. }
  split.
  { intros H. apply in_map_iff in H. destruct H as [s [Hid Hs]].
    apply Hin in Hs. destruct Hs as [_ Hne]. contradiction. }
  split; [exact Hin |].
  split; [reflexivity |].
  split; [now apply zSorted_filter |].
  split.
  - unfold Page.handleRemoveSticker at 1. apply filter_all.
    intros s Hs. apply Hin in Hs. destruct Hs as [_ Hne].
    now apply negb_true_iff, String.eqb_neq.
  - apply filter_length_le.
Qed.

Section StickerEdits.

Import Editor.

Lemma applyUpdates_none s : applyUpdates s noUpdates = s.
Proof. now destruct s. Qed.

Lemma map_id_in {A} (f : A -> A) (l : list A) :
  (forall x, In x l -> f x = x) -> map f l = l.
Proof.
  induction l as [|x l IH]; intros H; simpl; [reflexivity |].
  rewrite (H x (or_introl eq_refl)). f_equal. apply IH. intros y Hy. apply H. now right.
Qed.

Lemma Forall2_map_in {A} (R : A -> A -> Prop) (f : A -> A) (l : list A) :
  (forall x, In x l -> R x (f x)) -> Forall2 R l (map f l).
Proof.
  induction l as [|x l IH]; intros H; simpl; constructor.
  - apply H. now left.
  - apply IH. intros y Hy. apply H. now right.
Qed.

Lemma findSticker_some l id s :
  findSticker l id = Some s -> In s l /\ st_id s = id.
Proof.
  unfold findSticker, JS.find. intros H. apply find_some in H.
  destruct H as [Hin E]. apply String.eqb_eq in E. now split.
Qed.

Lemma findSticker_present l id t :
  In t l -> st_id t = id -> exists s, findSticker l id = Some s.
Proof.
  intros Hin Hid. unfold findSticker, JS.find.
  destruct (find (fun s => String.eqb (st_id s) id) l) as [s|] eqn:E; [now exists s |].
  pose proof (find_none _ _ E t Hin) as H. simpl in H.
  rewrite Hid, String.eqb_refl in H. discriminate.
Qed.

Lemma unique_by_id l s t :
  NoDup (map st_id l) -> In s l -> In t l -> st_id s = st_id t -> s = t.
Proof.
  induction l as [|u l IH]; intros Hnd Hs Ht Hid; [destruct Hs |].
  simpl in Hnd. inversion Hnd as [|? ? Hnin Hnd']; subst.
  destruct Hs as [<- | Hs], Ht as [<- | Ht].
  - reflexivity.
  - exfalso. apply Hnin. rewrite Hid. now apply in_map.
  - exfalso. apply Hnin. rewrite <- Hid. now apply in_map.
  - now apply IH.
Qed.

(** What an arrow key does to the list, for a selected sticker that is
    there and ids that are unique. *)
Lemma keyDown_arrow sel l s key dx dy :
  sel <> "" ->
  NoDup (map st_id l) ->
  findSticker l sel = Some s ->
  arrowDelta key = Some (dx, dy) ->
  exists l',
    handleKeyDown (Some sel) l key = (Some l', Some sel)
    /\ Forall2 (nudgedBy sel dx dy) l l'.
Proof.
  intros Hsel Hnd Hfind Hkey.
  pose proof (findSticker_some _ _ _ Hfind) as [Hin Hid].
  unfold handleKeyDown. rewrite (truthy_nonempty _ Hsel). simpl negb. cbv iota.
  rewrite Hfind. cbv zeta. unfold arrowDelta in Hkey.
  assert (forall upd : Sticker,
             sameButPosition s upd -> st_x upd == st_x s + dx -> st_y upd == st_y s + dy ->
             Forall2 (nudgedBy sel dx dy) l
               (map (fun t => if String.eqb (st_id t) sel then upd else t) l)) as Hmap.
  { intros upd H1 H2 H3. apply Forall2_map_in. intros t Ht. unfold nudgedBy.
    destruct (String.eqb (st_id t) sel) eqn:E; [| reflexivity].
    apply String.eqb_eq in E.
    assert (t = s) as -> by (apply (unique_by_id l); congruence).
    split; [exact H1 | split; [exact H2 | exact H3]]. }
  destruct (String.eqb key "ArrowLeft");
    [injection Hkey as <- <-; eexists; split; [reflexivity |]; apply Hmap;
     [now repeat split | simpl; ring | simpl; ring] |].
  destruct (String.eqb key "ArrowRight");
    [injection Hkey as <- <-; eexists; split; [reflexivity |]; apply Hmap;
     [now repeat split | simpl; ring | simpl; ring] |].
  destruct (String.eqb key "ArrowUp");
    [injection Hkey as <- <-; eexists; split; [reflexivity |]; apply Hmap;
     [now repeat split | simpl; ring | simpl; ring] |].
  destruct (String.eqb key "ArrowDown");
    [injection Hkey as <- <-; eexists; split; [reflexivity |]; apply Hmap;
     [now repeat split | simpl; ring | simpl; ring] |].
  discriminate.
Qed.

End StickerEdits.

(** X11: an update reaches the stickers with the given id only: the list
    keeps its length, an update that names no property changes nothing, nor
    does an update for an id no sticker has, and unless the update names the
    id itself the ids stay as they are. *)
Theorem X11_update_sticker :
  forall (stickers : list Sticker) (stickerId : string) (updates : StickerUpdates),
    length (Page.handleUpdateSticker stickers stickerId updates) = length stickers
    /\ Page.handleUpdateSticker stickers stickerId noUpdates = stickers
    /\ (~ In stickerId (map st_id stickers) ->
        Page.handleUpdateSticker stickers stickerId updates = stickers)
    /\ (u_id updates = None ->
        map st_id (Page.handleUpdateSticker stickers stickerId updates) = map st_id stickers)
    /\ (forall s, In s stickers -> st_id s <> stickerId ->
                  In s (Page.handleUpdateSticker stickers stickerId updates)).
Proof.
  intros stickers stickerId updates. unfold Page.handleUpdateSticker.
  split; [apply length_map |].
  split.
  { apply map_id_in. intros s _. destruct (String.eqb (st_id s) stickerId);
      [apply applyUpdates_none | reflexivity]. }
  split.
  { intros Hnin. apply map_id_in. intros s Hs.
    destruct (String.eqb (st_id s) stickerId) eqn:E; [| reflexivity].
    apply String.eqb_eq in E. exfalso. apply Hnin. rewrite <- E. now apply in_map. }
  split.
  { intros Hu. rewrite map_map. apply map_ext. intros s.
    destruct (String.eqb (st_id s) stickerId); [| reflexivity].
    unfold applyUpdates. simpl. now rewrite Hu. }
  intros s Hs Hne. apply in_map_iff. exists s. split; [| exact Hs].
  apply String.eqb_neq in Hne. now rewrite Hne.
Qed.

Section ArrowKeys.

Import Editor.

(** The list an arrow key hands over: the selected sticker with one
    coordinate moved by 5 or by -5, in place of every sticker of its id. *)
Lemma keyDown_arrow_exact sel l s key dx dy :
  sel <> "" ->
  findSticker l sel = Some s ->
  arrowDelta key = Some (dx, dy) ->
  exists upd d,
    handleKeyDown (Some sel) l key
    = (Some (map (fun t => if String.eqb (st_id t) sel then upd else t) l), Some sel)
    /\ (d = 5 \/ d = - (5))
    /\ ((upd = withX s (st_x s + d) /\ dx = d /\ dy = 0)
        \/ (upd = withY s (st_y s + d) /\ dx = 0 /\ dy = d)).
Proof.
  intros Hsel Hfind Hkey.
  unfold handleKeyDown. rewrite (truthy_nonempty _ Hsel). simpl negb. cbv iota.
  rewrite Hfind. cbv zeta. unfold arrowDelta in Hkey.
  destruct (String.eqb key "ArrowLeft");
    [injection Hkey as <- <-; exists (withX s (st_x s - 5)), (- (5));
     split; [reflexivity | split; [now right | left; repeat split; reflexivity]] |].
  destruct (String.eqb key "ArrowRight");
    [injection Hkey as <- <-; exists (withX s (st_x s + 5)), 5;
     split; [reflexivity | split; [now left | left; repeat split; reflexivity]] |].
  destruct (String.eqb key "ArrowUp");
    [injection Hkey as <- <-; exists (withY s (st_y s - 5)), (- (5));
     split; [reflexivity | split; [now right | right; repeat split; reflexivity]] |].
  destruct (String.eqb key "ArrowDown");
    [injection Hkey as <- <-; exists (withY s (st_y s + 5)), 5;
     split; [reflexivity | split; [now left | right; repeat split; reflexivity]] |].
  discriminate.
Qed.

(** A whole number moved by 5 or -5 is a whole number. *)
Lemma wholeNumber_step bound q d :
  (0 <= bound)%Z ->
  wholeNumber bound q -> d = 5 \/ d = - (5) -> wholeNumber (bound + 5) (q + d).
Proof.
  intros Hb [z [-> Hz]] [-> | ->].
  - exists (z + 5)%Z. split; [| lia].
    unfold Qplus, inject_Z. cbn [Qnum Qden]. f_equal. lia.
  - exists (z - 5)%Z. split; [| lia].
    unfold Qplus, Qopp, inject_Z. cbn [Qnum Qden]. f_equal. lia.
Qed.

Lemma wholeNumber_weaken b1 b2 q :
  (b1 <= b2)%Z -> wholeNumber b1 q -> wholeNumber b2 q.
Proof. intros H [z [-> Hz]]. exists z. split; [reflexivity | lia]. Qed.

(** Moving a whole-number coordinate there and back gives the number
    itself, not only a number equal to it. *)
Lemma there_and_back bound q d :
  wholeNumber bound q -> d = 5 \/ d = - (5) -> q + d + - d = q.
Proof.
  intros [z [-> _]] [-> | ->];
    unfold Qplus, Qopp, inject_Z; cbn [Qnum Qden]; f_equal; lia.
Qed.

Lemma findSticker_replaced l sel s upd :
  findSticker l sel = Some s ->
  st_id upd = sel ->
  findSticker (map (fun t => if String.eqb (st_id t) sel then upd else t) l) sel
  = Some upd.
Proof.
  unfold findSticker, JS.find. intros Hfind Hid.
  induction l as [|t l IH]; [discriminate |].
  cbn [map find] in *. destruct (String.eqb (st_id t) sel) eqn:E.
  - now rewrite Hid, String.eqb_refl.
  - rewrite E. now apply IH.
Qed.

Lemma replaced_back l sel s upd :
  NoDup (map st_id l) ->
  findSticker l sel = Some s ->
  st_id upd = sel ->
  map (fun t => if String.eqb (st_id t) sel then s else t)
      (map (fun t => if String.eqb (st_id t) sel then upd else t) l)
  = l.
Proof.
  intros Hnd Hfind Hid. pose proof (findSticker_some _ _ _ Hfind) as [Hin Hs].
  rewrite map_map. apply map_id_in. intros t Ht.
  destruct (String.eqb (st_id t) sel) eqn:E.
  - rewrite Hid, String.eqb_refl. apply String.eqb_eq in E.
    apply (unique_by_id l); congruence.
  - now rewrite E.
Qed.

End ArrowKeys.

(** X12: with unique sticker ids, the selected sticker in the list and its
    two coordinates whole numbers of magnitude up to 2^52 (where the code's
    floating-point steps are exact as well), an arrow key moves the selected
    sticker by five units in the key's direction and changes nothing else:
    not its size, rotation, z-index or image, and no other sticker; the
    selection stays, and the moved sticker's coordinates are whole numbers
    again. *)
Theorem X12_arrow_key_moves_only_the_selected_sticker :
  forall (selected : string) (stickers : list Sticker) (s : Sticker)
         (key : string) (dx dy : Q),
    selected <> "" ->
    NoDup (map st_id stickers) ->
    Editor.findSticker stickers selected = Some s ->
    arrowDelta key = Some (dx, dy) ->
    wholeNumber (2 ^ 52) (st_x s) ->
    wholeNumber (2 ^ 52) (st_y s) ->
    exists stickers',
      Editor.handleKeyDown (Some selected) stickers key = (Some stickers', Some selected)
      /\ Forall2 (nudgedBy selected dx dy) stickers stickers'
      /\ (forall t', In t' stickers' -> st_id t' = selected ->
                     wholeNumber (2 ^ 52 + 5) (st_x t')
                     /\ wholeNumber (2 ^ 52 + 5) (st_y t')).
Proof.
  intros sel l s key dx dy Hsel Hnd Hfind Hkey Hx Hy.
  destruct (keyDown_arrow sel l s key dx dy Hsel Hnd Hfind Hkey) as [l1 [E1 F1]].
  destruct (keyDown_arrow_exact sel l s key dx dy Hsel Hfind Hkey)
    as (upd & d & E & Hd & Hupd).
  exists l1. split; [exact E1 |]. split; [exact F1 |].
  rewrite E in E1. injection E1 as <-.
  intros t' Hin Hid. apply in_map_iff in Hin. destruct Hin as [t [Ht _]].
  destruct (String.eqb (st_id t) sel) eqn:Et.
  - subst t'. destruct Hupd as [(-> & _ & _) | (-> & _ & _)]; cbn [st_x st_y Editor.withX Editor.withY].
    + split; [now apply wholeNumber_step | now apply wholeNumber_weaken with (2 ^ 52)%Z].
    + split; [now apply wholeNumber_weaken with (2 ^ 52)%Z | now apply wholeNumber_step].
  - subst t'. apply String.eqb_neq in Et. contradiction.
Qed.

Lemma X12_witness :
  exists stickers',
    Editor.handleKeyDown (Some "a") [Sample.sticker "a" 1; Sample.sticker "b" 2] "ArrowLeft"
    = (Some stickers', Some "a")
    /\ Forall2 (nudgedBy "a" (- (5)) 0) [Sample.sticker "a" 1; Sample.sticker "b" 2] stickers'
    /\ (forall t', In t' stickers' -> st_id t' = "a" ->
                   wholeNumber (2 ^ 52 + 5) (st_x t') /\ wholeNumber (2 ^ 52 + 5) (st_y t')).
Proof.
  apply (X12_arrow_key_moves_only_the_selected_sticker "a"
           [Sample.sticker "a" 1; Sample.sticker "b" 2] (Sample.sticker "a" 1)
           "ArrowLeft" (- (5)) 0).
  - discriminate.
  - repeat constructor; simpl; intuition discriminate.
  - reflexivity.
  - reflexivity.
  - exists 100%Z. split; [reflexivity | simpl; lia].
  - exists 100%Z. split; [reflexivity | simpl; lia].
Defined.



(** X14: Delete and Backspace hand over the list without the stickers of
    the selected id, the same list the page's remove handler computes, and
    clear the selection; with the selection cleared no key changes the
    list any more. *)
Theorem X14_delete_key_removes_and_deselects :
  forall (selected : string) (stickers : list Sticker) (s : Sticker) (key : string),
    selected <> "" ->
    Editor.findSticker stickers selected = Some s ->
    key = "Delete" \/ key = "Backspace" ->
    Editor.handleKeyDown (Some selected) stickers key
    = (Some (Page.handleRemoveSticker stickers selected), None)
    /\ ~ In selected (map st_id (Page.handleRemoveSticker stickers selected))
    /\ (forall next stickers',
          Editor.handleKeyDown (snd (Editor.handleKeyDown (Some selected) stickers key))
            stickers' next = (None, None)).
Proof.
  intros sel l s key Hsel Hfind Hkey.
  assert (Editor.handleKeyDown (Some sel) l key = (Some (Page.handleRemoveSticker l sel), None)) as E.
  { unfold Editor.handleKeyDown. rewrite (truthy_nonempty _ Hsel). simpl negb. cbv iota.
    rewrite Hfind. destruct Hkey as [-> | ->]; reflexivity. }
  split; [exact E |]. split.
  - intros H. apply in_map_iff in H. destruct H as [t [Hid Ht]].
    unfold Page.handleRemoveSticker in Ht. apply filter_In in Ht.
    destruct Ht as [_ Hne]. apply negb_true_iff, String.eqb_neq in Hne. contradiction.
  - intros next l'. rewrite E. reflexivity.
Qed.

Lemma X14_witness :
  Editor.handleKeyDown (Some "a") [Sample.sticker "a" 1; Sample.sticker "b" 2] "Delete"
  = (Some (Page.handleRemoveSticker [Sample.sticker "a" 1; Sample.sticker "b" 2] "a"), None).
Proof.
  refine (proj1 (X14_delete_key_removes_and_deselects "a"
                   [Sample.sticker "a" 1; Sample.sticker "b" 2] (Sample.sticker "a" 1)
                   "Delete" _ eq_refl (or_introl eq_refl))).
  discriminate.
Defined.

(** X15: a drag moves the selected sticker only.  After a mouse-down on
    the selected sticker, a mouse-move places every sticker of that id at
    the pointer's offset in the element minus the offset taken at
    mouse-down, whatever its position was, and leaves its other properties
    and all other stickers as they are; once the button is up, a mouse-move
    hands over nothing. *)
Theorem X15_drag_places_the_selected_sticker :
  forall (selected : string) (drag : Editor.Drag) (stickers : list Sticker)
         (s : Sticker) (down move : Editor.MouseEvent),
    selected <> "" ->
    Editor.findSticker stickers selected = Some s ->
    let dragging := Editor.handleMouseDown (Some selected) drag down selected in
    let x := Editor.clientX move - Editor.rectLeft move
             - (Editor.clientX down - Editor.rectLeft down) in
    let y := Editor.clientY move - Editor.rectTop move
             - (Editor.clientY down - Editor.rectTop down) in
    (exists stickers',
        Editor.handleMouseMove (Some selected) dragging stickers move = Some stickers'
        /\ Forall2 (placedAt selected x y) stickers stickers')
    /\ Editor.handleMouseMove (Some selected) (Editor.handleMouseUp dragging) stickers move
       = None.
Proof.
  intros sel drag l s down move Hsel Hfind dragging x y.
  assert (dragging = Editor.mkDrag true (Editor.clientX down - Editor.rectLeft down)
                       (Editor.clientY down - Editor.rectTop down)) as ->.
  { unfold dragging, Editor.handleMouseDown.
    rewrite (truthy_nonempty _ Hsel), String.eqb_refl. reflexivity. }
  split; [| reflexivity].
  unfold Editor.handleMouseMove. cbn [Editor.isDragging Editor.dragOffsetX Editor.dragOffsetY].
  rewrite (truthy_nonempty _ Hsel). simpl negb. cbv iota. simpl orb. cbv iota.
  rewrite Hfind. eexists. split; [reflexivity |].
  apply Forall2_map_in. intros t _. unfold placedAt.
  destruct (String.eqb (st_id t) sel); [| reflexivity].
  now repeat split.
Qed.

Lemma X15_witness :
  Editor.handleMouseMove (Some "a")
    (Editor.handleMouseUp
       (Editor.handleMouseDown (Some "a") (Editor.mkDrag false 0 0)
          (Editor.mkMouseEvent 110 120 100 100) "a"))
    [Sample.sticker "a" 1] (Editor.mkMouseEvent 130 125 100 100)
  = None.
Proof.
  refine (proj2 (X15_drag_places_the_selected_sticker "a" (Editor.mkDrag false 0 0)
                   [Sample.sticker "a" 1] (Sample.sticker "a" 1)
                   (Editor.mkMouseEvent 110 120 100 100)
                   (Editor.mkMouseEvent 130 125 100 100) _ eq_refl)).
  discriminate.
Defined.

(** ** Where the export draws the slots *)

Section SlotGeometry.

Import PhotoCanvas.

Lemma round_box_height : JS.Math_round (420 * 2 / 3) = 280%Z.
Proof. vm_compute. reflexivity. Qed.

Lemma round_strip_height : JS.Math_round (420 * 9 / 13) = 291%Z.
Proof. vm_compute. reflexivity. Qed.

Lemma ofNat_le a b : (a <= b)%nat -> ofNat a <= ofNat b.
Proof. intros H. unfold ofNat. rewrite <- Zle_Qle. lia. Qed.

Lemma ofNat_S a : ofNat (S a) == ofNat a + 1.
Proof. unfold ofNat. rewrite Nat2Z.inj_succ, <- Z.add_1_r, inject_Z_plus. reflexivity. Qed.

Lemma ofNat_nonneg a : 0 <= ofNat a.
Proof. apply (ofNat_le 0 a). lia. Qed.

Lemma ofNat_lt_succ a b : (a < b)%nat -> ofNat a + 1 <= ofNat b.
Proof. intros H. rewrite <- ofNat_S. now apply ofNat_le. Qed.

Lemma canvasSize_vertical n :
  n <> 1%nat ->
  canvasSize n "vertical" = (480, 40 + (inject_Z 291 * ofNat n) + (ofNat n - 1) + 350).
Proof.
  intros H. unfold canvasSize. apply Nat.eqb_neq in H. rewrite H. simpl String.eqb.
  cbv iota zeta. now rewrite round_strip_height.
Qed.

(** In the three layouts the export draws slot [i] into [slotRect]. *)
Lemma drawPhoto_rect layout n i img c :
  layout = "vertical" \/ layout = "grid" \/ layout = "horizontal" ->
  drawnRects (pixels (drawPhoto layout n (fst (canvasSize n layout))
                        (snd (canvasSize n layout)) i img c))
  = (drawnRects (pixels c) ++ [slotRect layout n i])%list.
Proof.
  intros [-> | [-> | ->]]; unfold drawPhoto, slotRect; simpl String.eqb; cbv iota zeta;
    cbn [pixels Ctx.drawImage9 Ctx.drawImage5 Ctx.fillRect Ctx.setFillStyle Ctx.emit
         Ctx.withState state];
    unfold drawnRects; rewrite !flat_map_app; cbn; now rewrite app_nil_r.
Qed.

End SlotGeometry.

(** X16: in the vertical layout with 2 to 73 photos every slot's box lies
    within the canvas, and a later slot's box starts at least 17 units below
    the end of an earlier one, so the boxes do not overlap. *)
Theorem X16_vertical_slots_fit_and_do_not_overlap :
  forall n i j : nat,
    n <> 1%nat -> (n <= 73)%nat -> (i < j)%nat -> (j < n)%nat ->
    let size := PhotoCanvas.canvasSize n "vertical" in
    let ri := slotRect "vertical" n i in
    let rj := slotRect "vertical" n j in
    within ri size /\ within rj size
    /\ ry ri + rh ri + 17 <= ry rj
    /\ (forall img c,
          drawnRects (pixels (PhotoCanvas.drawPhoto "vertical" n (fst size) (snd size) i img c))
          = (drawnRects (pixels c) ++ [ri])%list).
Proof.
  intros n i j Hn1 Hn Hij Hjn size ri rj.
  assert (forall k, (k < n)%nat -> within (slotRect "vertical" n k) size) as Hw.
  { intros k Hk. unfold within, slotRect, size. simpl String.eqb. cbv iota zeta.
    rewrite (canvasSize_vertical n Hn1), round_box_height. cbn [fst snd rx ry rw rh].
    pose proof (ofNat_nonneg k) as H0. pose proof (ofNat_lt_succ k n Hk) as H1.
    pose proof (ofNat_le n 73 Hn) as H2.
    change (PhotoCanvas.ofNat 73) with (inject_Z 73) in H2.
    change (inject_Z 291) with 291. change (inject_Z 280) with 280.
    change (inject_Z 73) with 73 in H2.
    repeat split; first [lra | unfold Qle; simpl; lia]. }
  split; [apply Hw; lia |]. split; [apply Hw; lia |]. split.
  - unfold ri, rj, slotRect. simpl String.eqb. cbv iota zeta.
    rewrite round_box_height. cbn [rx ry rw rh]. change (inject_Z 280) with 280.
    pose proof (ofNat_lt_succ i j Hij) as H1. lra.
  - intros img c. apply drawPhoto_rect. now left.
Qed.

Lemma X16_witness :
  ry (slotRect "vertical" 3 0) + rh (slotRect "vertical" 3 0) + 17
  <= ry (slotRect "vertical" 3 1).
Proof.
  refine (proj1 (proj2 (proj2 (X16_vertical_slots_fit_and_do_not_overlap 3 0 1 _ _ _ _))));
    lia.
Defined.

(** X17: in the grid layout with more than one photo the canvas is 320 by
    320; the boxes of the first four slots lie within it and no two of
    them overlap, and the box of any further slot lies below the canvas. *)
Theorem X17_grid_slots_fit_four_photos :
  forall n i j : nat,
    n <> 1%nat -> (i < 4)%nat -> (j < 4)%nat -> i <> j ->
    PhotoCanvas.canvasSize n "grid" = (320, 320)
    /\ within (slotRect "grid" n i) (320, 320)
    /\ apart (slotRect "grid" n i) (slotRect "grid" n j)
    /\ (forall k, (4 <= k)%nat -> 320 <= ry (slotRect "grid" n k))
    /\ (forall img c,
          drawnRects (pixels (PhotoCanvas.drawPhoto "grid" n 320 320 i img c))
          = (drawnRects (pixels c) ++ [slotRect "grid" n i])%list).
Proof.
  intros n i j Hn Hi Hj Hij.
  assert (PhotoCanvas.canvasSize n "grid" = (320, 320)) as Hsize.
  { unfold PhotoCanvas.canvasSize. apply Nat.eqb_neq in Hn. now rewrite Hn. }
  split; [exact Hsize |]. split; [| split; [| split]].
  - destruct i as [|[|[|[|i]]]]; try lia;
      unfold within, slotRect; simpl; repeat split; unfold Qle; simpl; lia.
  - destruct i as [|[|[|[|i]]]]; try lia; destruct j as [|[|[|[|j]]]]; try lia;
      unfold apart, slotRect; simpl;
      first [ left; unfold Qle; simpl; lia
            | right; left; unfold Qle; simpl; lia
            | right; right; left; unfold Qle; simpl; lia
            | right; right; right; unfold Qle; simpl; lia ].
  - intros k Hk. unfold slotRect. simpl String.eqb. cbv iota. cbn [ry].
    assert (2 <= k / 2)%nat as H2 by (apply Nat.div_le_lower_bound; lia).
    pose proof (ofNat_le 2 (k / 2) H2) as H.
    change (PhotoCanvas.ofNat 2) with 2 in H. lra.
  - intros img c.
    pose proof (drawPhoto_rect "grid" n i img c (or_intror (or_introl eq_refl))) as H.
    now rewrite Hsize in H.
Qed.

Lemma X17_witness : apart (slotRect "grid" 4 0) (slotRect "grid" 4 3).
Proof.
  refine (proj1 (proj2 (proj2 (X17_grid_slots_fit_four_photos 4 0 3 _ _ _ _)))); lia.
Defined.

(** X18: in the horizontal layout with more than one photo the canvas is
    420 by 200; every slot's box lies within it and the box of a later slot
    starts to the right of the end of an earlier one. *)
Theorem X18_horizontal_slots_fit_and_do_not_overlap :
  forall n i j : nat,
    n <> 1%nat -> (i < j)%nat -> (j < n)%nat ->
    PhotoCanvas.canvasSize n "horizontal" = (420, 200)
    /\ within (slotRect "horizontal" n i) (420, 200)
    /\ within (slotRect "horizontal" n j) (420, 200)
    /\ rx (slotRect "horizontal" n i) + rw (slotRect "horizontal" n i)
       <= rx (slotRect "horizontal" n j)
    /\ (forall img c,
          drawnRects (pixels (PhotoCanvas.drawPhoto "horizontal" n 420 200 i img c))
          = (drawnRects (pixels c) ++ [slotRect "horizontal" n i])%list).
Proof.
  intros n i j Hn Hij Hjn.
  assert (PhotoCanvas.canvasSize n "horizontal" = (420, 200)) as Hsize.
  { unfold PhotoCanvas.canvasSize. apply Nat.eqb_neq in Hn. now rewrite Hn. }
  assert (0 < PhotoCanvas.ofNat n) as Hpos.
  { apply Qlt_le_trans with (PhotoCanvas.ofNat 0 + 1); [reflexivity |].
    apply ofNat_lt_succ. lia. }
  set (w := (420 - 16) / PhotoCanvas.ofNat n).
  assert (PhotoCanvas.ofNat n * w == 404) as Hnw.
  { unfold w. field. intros H. rewrite H in Hpos. now apply Qlt_irrefl in Hpos. }
  assert (0 <= w) as Hw.
  { unfold w. apply Qle_shift_div_l; [exact Hpos |]. lra. }
  assert (forall k, (k < n)%nat -> PhotoCanvas.ofNat k * w + w <= 404) as Hk.
  { intros k Hlt. rewrite <- Hnw.
    pose proof (ofNat_lt_succ k n Hlt) as H1.
    pose proof (Qmult_le_compat_r _ _ w H1 Hw) as H2. lra. }
  assert (forall k, (k < n)%nat -> within (slotRect "horizontal" n k) (420, 200)) as Hin.
  { intros k Hlt. unfold within, slotRect. simpl String.eqb. cbv iota zeta.
    rewrite Hsize. cbn [fst snd rx ry rw rh]. fold w.
    pose proof (Hk k Hlt) as H1. pose proof (ofNat_nonneg k) as H0.
    pose proof (Qmult_le_0_compat _ _ H0 Hw) as H2.
    repeat split; lra. }
  split; [exact Hsize |]. split; [apply Hin; lia |]. split; [apply Hin; lia |]. split.
  - unfold slotRect. simpl String.eqb. cbv iota zeta.
    rewrite Hsize. cbn [fst snd rx ry rw rh]. fold w.
    pose proof (ofNat_lt_succ i j Hij) as H1.
    pose proof (Qmult_le_compat_r _ _ w H1 Hw) as H2. lra.
  - intros img c.
    pose proof (drawPhoto_rect "horizontal" n i img c (or_intror (or_intror eq_refl))) as H.
    now rewrite Hsize in H.
Qed.

Lemma X18_witness : within (slotRect "horizontal" 4 0) (420, 200).
Proof.
  refine (proj1 (proj2 (X18_horizontal_slots_fit_and_do_not_overlap 4 0 1 _ _ _))); lia.
Defined.

(** X19: with one photo the canvas is 200 by 100 whatever the layout, and
    the vertical layout still draws the slot into its 420 by 280 box: the
    box starts left of the canvas and ends right of it and below it. *)
Theorem X19_single_vertical_slot_exceeds_the_canvas :
  forall (i : nat) (img : Image) (c : Canvas),
    let size := PhotoCanvas.canvasSize 1 "vertical" in
    let r := slotRect "vertical" 1 i in
    size = (200, 100)
    /\ rx r < 0 /\ fst size < rx r + rw r /\ snd size < ry r + rh r
    /\ drawnRects (pixels (PhotoCanvas.drawPhoto "vertical" 1 (fst size) (snd size) i img c))
       = (drawnRects (pixels c) ++ [r])%list.
Proof.
  intros i img c size r.
  split; [reflexivity |].
  unfold r, slotRect, size. simpl String.eqb. cbv iota zeta.
  rewrite round_box_height. cbn [fst snd rx ry rw rh PhotoCanvas.canvasSize Nat.eqb].
  change (inject_Z 280) with 280.
  pose proof (ofNat_nonneg i) as H0.
  split; [reflexivity |]. split; [reflexivity |]. split; [lra |].
  pose proof (drawPhoto_rect "vertical" 1 i img c (or_introl eq_refl)) as H.
  unfold slotRect in H. simpl String.eqb in H. cbv iota zeta in H.
  rewrite round_box_height in H. exact H.
Qed.

(** ** The crop window and the source image *)

(** X20: for a source image of positive width and height the crop window
    of the vertical layout lies within the image, so the export never reads
    outside it, and it is scaled into the 420 by 280 box by one factor in
    both directions, so the photo is not distorted. *)
Theorem X20_crop_window_within_image_and_undistorted :
  forall img : Image,
    (0 < img_width img)%Z ->
    (0 < img_height img)%Z ->
    let w := PhotoCanvas.cropWindow img in
    within w (inject_Z (img_width img), inject_Z (img_height img))
    /\ 0 < rw w /\ 0 < rh w
    /\ 420 / rw w == inject_Z (JS.Math_round (420 * 2 / 3)) / rh w.
Proof.
  intros img Hw Hh w.
  assert (0 < inject_Z (img_width img)) as Hwq by (rewrite <- (Zlt_Qlt 0); exact Hw).
  assert (0 < inject_Z (img_height img)) as Hhq by (rewrite <- (Zlt_Qlt 0); exact Hh).
  set (W := inject_Z (img_width img)) in *. set (H := inject_Z (img_height img)) in *.
  assert (W / H * H == W) as Hdiv by (field; lra).
  assert (PhotoCanvas.targetAspect == 3 # 2) as Ht by reflexivity.
  rewrite round_box_height. change (inject_Z 280) with 280.
  destruct (JS.gt (W / H) PhotoCanvas.targetAspect) eqn:E.
  - unfold w. rewrite (cropWindow_wide img E). fold W H.
    unfold within. cbn [fst snd rx ry rw rh]. rewrite Ht.
    apply gt_true_iff in E. rewrite Ht in E.
    assert ((3 # 2) * H < W) as Hlt.
    { rewrite <- Hdiv. apply Qmult_lt_compat_r; assumption. }
    assert ((W - H * (3 # 2)) / 2 == (W - H * (3 # 2)) * (1 # 2)) as -> by field.
    repeat split; try lra. field. lra.
  - unfold w. rewrite (cropWindow_tall img E). fold W H.
    unfold within. cbn [fst snd rx ry rw rh]. rewrite Ht.
    assert (W / H <= 3 # 2) as Hle.
    { apply Qnot_lt_le. intros Hlt. rewrite <- Ht in Hlt.
      apply gt_true_iff in Hlt. congruence. }
    assert (W <= (3 # 2) * H) as Hle'.
    { rewrite <- Hdiv. apply Qmult_le_compat_r; lra. }
    assert (W / (3 # 2) == W * (2 # 3)) as -> by field.
    assert ((H - W * (2 # 3)) / 2 == (H - W * (2 # 3)) * (1 # 2)) as -> by field.
    repeat split; try lra. field. lra.
Qed.

Lemma X20_witness :
  within (PhotoCanvas.cropWindow (mkImage "a" 1920 1080)) (inject_Z 1920, inject_Z 1080).
Proof.
  refine (proj1 (X20_crop_window_within_image_and_undistorted (mkImage "a" 1920 1080) _ _));
    reflexivity.
Defined.

(** ** What the export draws, as a whole *)

Section ExportWhole.

Import PhotoCanvas.

Lemma drawSlot_sources env photo layout n cw ch c i :
  layout = "vertical" \/ layout = "grid" \/ layout = "horizontal" ->
  drawnSources (pixels (drawSlot env photo layout n cw ch c i))
  = (drawnSources (pixels c) ++ slotDrawn env photo i)%list.
Proof.
  intros Hl. unfold drawSlot, slotDrawn.
  destruct (photoSrc photo i) as [src|]; [| simpl; now rewrite app_nil_r].
  destruct (JS.truthy (Some src)); simpl negb; cbv iota; [| simpl; now rewrite app_nil_r].
  simpl andb. unfold decodes.
  destruct (loadImage env src) as [img|] eqn:E.
  - pose proof E as E'. unfold loadImage in E'.
    destruct (decode env src) as [[w h]|]; [| discriminate].
    now apply drawPhoto_sources with env.
  - unfold loadImage in E. destruct (decode env src) as [[w h]|]; [discriminate |].
    now rewrite app_nil_r.
Qed.

Lemma drawSlots_sources env photo layout n cw ch l : forall c,
  layout = "vertical" \/ layout = "grid" \/ layout = "horizontal" ->
  drawnSources (pixels (fold_left (drawSlot env photo layout n cw ch) l c))
  = (drawnSources (pixels c) ++ flat_map (slotDrawn env photo) l)%list.
Proof.
  induction l as [|i l IH]; intros c Hl; simpl; [now rewrite app_nil_r |].
  rewrite IH by exact Hl. rewrite drawSlot_sources by exact Hl.
  now rewrite <- app_assoc.
Qed.

Lemma sameFrame_refl c : sameFrame c c.
Proof. repeat split. exists []. now rewrite app_nil_r. Qed.

Lemma sameFrame_trans c1 c2 c3 : sameFrame c1 c2 -> sameFrame c2 c3 -> sameFrame c1 c3.
Proof.
  intros (A1 & A2 & A3 & A4 & A5 & [m1 A6]) (B1 & B2 & B3 & B4 & B5 & [m2 B6]).
  repeat split; try congruence.
  exists (m1 ++ m2)%list. now rewrite B6, A6, app_assoc.
Qed.

Lemma sameFrame_drawPhoto layout n cw ch i img c :
  sameFrame c (drawPhoto layout n cw ch i img c).
Proof.
  unfold drawPhoto.
  repeat match goal with
         | |- context [if ?b then _ else _] => destruct b
         end; try apply sameFrame_refl;
    repeat split; cbn; eexists; rewrite <- app_assoc; reflexivity.
Qed.

Lemma sameFrame_drawSlot env photo layout n cw ch c i :
  sameFrame c (drawSlot env photo layout n cw ch c i).
Proof.
  unfold drawSlot.
  destruct (negb (JS.truthy (photoSrc photo i))); [apply sameFrame_refl |].
  destruct (photoSrc photo i) as [src|]; [| apply sameFrame_refl].
  destruct (loadImage env src); [apply sameFrame_drawPhoto | apply sameFrame_refl].
Qed.

Lemma sameFrame_drawSticker env c s : sameFrame c (drawSticker env c s).
Proof. rewrite drawSticker_effect. repeat split. cbn. now eexists. Qed.

Lemma sameFrame_fold {B} (f : Canvas -> B -> Canvas) (l : list B) :
  (forall c x, sameFrame c (f c x)) -> forall c, sameFrame c (fold_left f l c).
Proof.
  intros Hf. induction l as [|x l IH]; intros c; simpl; [apply sameFrame_refl |].
  eapply sameFrame_trans; [apply Hf | apply IH].
Qed.

End ExportWhole.

(** X21: in the three layouts the export draws, in slot order, exactly the
    slots whose source is there and decodes, and after them the stickers
    that decode, in array order.  A source that is missing or does not
    decode costs its own slot or sticker only. *)
Theorem X21_export_draws_every_slot_and_sticker_that_decodes :
  forall (env : Env) (cv : Canvas) (photo : PhotoProp)
         (selectedLayout : option FrameLayout) (stickers : list Sticker)
         (appliedFilters : AppliedFilters) (stripColor : string) (c : Canvas),
    (let layout := PhotoCanvas.layoutOf selectedLayout in
     layout = "vertical" \/ layout = "grid" \/ layout = "horizontal") ->
    PhotoCanvas.drawStripToCanvas env (Some cv) photo selectedLayout stickers
      appliedFilters stripColor = Some c ->
    drawnSources (pixels c)
    = (flat_map (slotDrawn env photo) (seq 0 (PhotoCanvas.photoCountOf selectedLayout))
       ++ map st_src (filter (fun s => decodes env (st_src s)) stickers))%list.
Proof.
  intros env cv photo sl stickers a color c Hl Hc. cbv zeta in Hl.
  rewrite (export_draws_stickers_in_array_order _ _ _ _ _ _ _ _ Hc). f_equal.
  unfold stripSlots. cbv zeta. rewrite drawSlots_sources by exact Hl. reflexivity.
Qed.

Lemma X21_witness :
  drawnSources
    (pixels (PhotoCanvas.drawFooter
               (mkEnv (fun src => if String.eqb src "b" then None else Some (640, 480)%Z)
                      "1/1/2026" "10:00:00 AM") 480 1265
               (stripSlots
                  (mkEnv (fun src => if String.eqb src "b" then None else Some (640, 480)%Z)
                         "1/1/2026" "10:00:00 AM")
                  Sample.canvas
                  (PhotoArray [Sample.photo "a"; Sample.photo "b"; Sample.photo "c"])
                  (Some Sample.vertical3) "#ffffff")))
  = ["a"; "c"].
Proof.
  exact (X21_export_draws_every_slot_and_sticker_that_decodes
           (mkEnv (fun src => if String.eqb src "b" then None else Some (640, 480)%Z)
                  "1/1/2026" "10:00:00 AM")
           Sample.canvas (PhotoArray [Sample.photo "a"; Sample.photo "b"; Sample.photo "c"])
           (Some Sample.vertical3) [] Sample.noFilters "#ffffff" _
           (or_introl eq_refl) eq_refl).
Defined.

(** X22: with a mounted canvas that has a 2D context the export always
    returns the canvas, sized as the layout asks; the first thing drawn is
    the background over the whole canvas, the last the footer caption, and
    the context is left with no saved state and the identity transform.
    Without a canvas or a context it returns null. *)
Theorem X22_export_frame :
  forall (env : Env) (cv : Canvas) (photo : PhotoProp)
         (selectedLayout : option FrameLayout) (stickers : list Sticker)
         (appliedFilters : AppliedFilters) (stripColor : string),
    let layout := PhotoCanvas.layoutOf selectedLayout in
    let size := PhotoCanvas.canvasSize (PhotoCanvas.photoCountOf selectedLayout) layout in
    (has2d cv = true ->
     exists c bg photosAndStickers caption,
       PhotoCanvas.drawStripToCanvas env (Some cv) photo selectedLayout stickers
         appliedFilters stripColor = Some c
       /\ cv_width c = fst size /\ cv_height c = snd size
       /\ saved c = [] /\ transform (state c) = []
       /\ pixels c
          = (FillRect bg (mkRect 0 0 (fst size) (snd size)) :: photosAndStickers
             ++ [FillText caption (PhotoCanvas.footerText env) (fst size / 2) (snd size - 73)])%list
       /\ fillStyle bg = PhotoCanvas.background layout stripColor (fst size) (snd size)
       /\ fillStyle caption = Color "#6b7280" /\ transform caption = [])
    /\ (has2d cv = false ->
        PhotoCanvas.drawStripToCanvas env (Some cv) photo selectedLayout stickers
          appliedFilters stripColor = None)
    /\ PhotoCanvas.drawStripToCanvas env None photo selectedLayout stickers
         appliedFilters stripColor = None.
Proof.
  intros env cv photo sl stickers a color layout size.
  split; [| split; [intros H; now apply drawStripToCanvas_null | reflexivity]].
  intros Hctx. rewrite (drawStripToCanvas_stages env cv photo sl stickers a color Hctx).
  fold layout. fold size.
  set (bgc := PhotoCanvas.drawBackground layout color (fst size) (snd size) cv).
  assert (sameFrame bgc (fold_left (PhotoCanvas.drawSticker env) stickers
                           (stripSlots env cv photo sl color))) as Hf.
  { apply sameFrame_trans with (stripSlots env cv photo sl color).
    - unfold stripSlots, bgc, size, layout. cbv zeta.
      apply (sameFrame_fold (PhotoCanvas.drawSlot env photo _ _ _ _)).
      intros. apply sameFrame_drawSlot.
    - apply (sameFrame_fold (PhotoCanvas.drawSticker env)).
      intros. apply sameFrame_drawSticker. }
  destruct Hf as (H1 & H2 & H3 & H4 & H5 & [more H6]).
  eexists. eexists. exists more. eexists.
  split; [reflexivity |].
  rewrite drawFooter_effect. cbn [cv_width cv_height saved state pixels transform fillStyle].
  rewrite H1, H2, H4, H5, H6.
  repeat split.
Qed.

Lemma X22_witness :
  exists c bg photosAndStickers caption,
    PhotoCanvas.drawStripToCanvas (Sample.env "10:00:00 AM") (Some Sample.canvas)
      (OnePhoto (Sample.photo "a")) (Some Sample.vertical3) [] Sample.noFilters "#ffffff"
    = Some c
    /\ cv_width c = 480 /\ cv_height c = 1265
    /\ saved c = [] /\ transform (state c) = []
    /\ pixels c
       = (FillRect bg (mkRect 0 0 480 1265) :: photosAndStickers
          ++ [FillText caption "Adelaide - 1/1/2026, 10:00:00 AM" (480 / 2) (1265 - 73)])%list
    /\ fillStyle bg = Color "#ffffff"
    /\ fillStyle caption = Color "#6b7280" /\ transform caption = [].
Proof.
  exact (proj1 (X22_export_frame (Sample.env "10:00:00 AM") Sample.canvas
                  (OnePhoto (Sample.photo "a")) (Some Sample.vertical3) []
                  Sample.noFilters "#ffffff") eq_refl).
Defined.

(** ** [addStickers]: when it resolves and what it draws *)

Section AddStickers.

Import ImageProcessor.

Lemma filter_length_all {A} (p : A -> bool) (l : list A) :
  length (filter p l) = length l <-> Forall (fun x => p x = true) l.
Proof.
  induction l as [|x l IH]; simpl; [split; [constructor | reflexivity] |].
  pose proof (filter_length_le p l) as Hle.
  destruct (p x) eqn:E; simpl; split.
  - intros H. constructor; [exact E | apply IH; lia].
  - intros H. inversion H; subst. f_equal. now apply IH.
  - intros H. lia.
  - intros H. inversion H; subst. congruence.
Qed.

Lemma stickerSteps_count env l : forall c n,
  snd (fold_left (stickerStep env) l (c, n))
  = (n + length (filter (fun s => decodes env (st_src s)) l))%nat.
Proof.
  induction l as [|s l IH]; intros c n; simpl; [lia |].
  destruct (decodes env (st_src s)) eqn:Ed.
  - apply loadImage_decodes in Ed. destruct Ed as [img ->].
    rewrite IH. simpl. lia.
  - destruct (loadImage env (st_src s)) as [img|] eqn:El.
    + assert (decodes env (st_src s) = true) by (apply loadImage_decodes; now exists img).
      congruence.
    + now rewrite IH.
Qed.

Lemma addStickers_resolves_iff env cv imageSrc stickers :
  has2d cv = true ->
  decodes env imageSrc = true ->
  (Forall (fun s => decodes env (st_src s) = true) stickers ->
   exists c, addStickers env (Some cv) imageSrc stickers = DataURL c)
  /\ (~ Forall (fun s => decodes env (st_src s) = true) stickers ->
      addStickers env (Some cv) imageSrc stickers = Pending).
Proof.
  intros Hctx Himg. unfold addStickers. rewrite Hctx. simpl negb. cbv iota.
  apply loadImage_decodes in Himg. destruct Himg as [img ->]. cbv zeta.
  match goal with
  | |- context [fold_left (stickerStep env) _ (?c0, _)] =>
      pose proof (stickerSteps_count env (sortByZIndex stickers) c0 0) as Hn;
      destruct (fold_left (stickerStep env) (sortByZIndex stickers) (c0, 0%nat))
        as [c' loaded]
  end.
  simpl in Hn. subst loaded.
  assert (Forall (fun s => decodes env (st_src s) = true) (sortByZIndex stickers)
          <-> Forall (fun s => decodes env (st_src s) = true) stickers) as Hperm.
  { split; apply Permutation_Forall;
      [apply sortByZIndex_perm | apply Permutation_sym, sortByZIndex_perm]. }
  split; intros H.
  - apply Hperm, (filter_length_all (fun s => decodes env (st_src s))) in H.
    rewrite H, Nat.eqb_refl. now eexists.
  - destruct (Nat.eqb _ _) eqn:E; [| reflexivity].
    apply Nat.eqb_eq in E.
    apply (filter_length_all (fun s => decodes env (st_src s))), Hperm in E. contradiction.
Qed.

Lemma sameFrame_fold_addStickers env l : forall c n,
  cv_width (fst (fold_left (stickerStep env) l (c, n))) = cv_width c
  /\ cv_height (fst (fold_left (stickerStep env) l (c, n))) = cv_height c.
Proof.
  induction l as [|s l IH]; intros c n; simpl; [split; reflexivity |].
  destruct (loadImage env (st_src s)) as [img|]; [| apply IH].
  destruct (IH (stickerOnload s img c) (S n)) as [H1 H2].
  rewrite H1, H2, stickerOnload_effect. split; reflexivity.
Qed.

End AddStickers.

(** X23: with a canvas and a base image that decodes, [addStickers]
    resolves exactly when every sticker image decodes; if one does not, the
    promise stays pending for ever, since the count of loaded stickers never
    reaches the number of stickers. *)
Theorem X23_addStickers_resolves_iff_all_stickers_decode :
  forall (env : Env) (cv : Canvas) (imageSrc : string) (stickers : list Sticker),
    has2d cv = true ->
    decodes env imageSrc = true ->
    (Forall (fun s => decodes env (st_src s) = true) stickers ->
     exists c, ImageProcessor.addStickers env (Some cv) imageSrc stickers
               = ImageProcessor.DataURL c)
    /\ (~ Forall (fun s => decodes env (st_src s) = true) stickers ->
        ImageProcessor.addStickers env (Some cv) imageSrc stickers = ImageProcessor.Pending).
Proof. intros. now apply addStickers_resolves_iff. Qed.

Lemma X23_witness :
  ImageProcessor.addStickers
    (mkEnv (fun src => if String.eqb src "b.png" then None else Some (640, 480)%Z)
           "1/1/2026" "10:00:00 AM")
    (Some Sample.canvas) "photo" [Sample.sticker "a" 1; Sample.sticker "b" 2]
  = ImageProcessor.Pending.
Proof.
  refine (proj2 (X23_addStickers_resolves_iff_all_stickers_decode
                   (mkEnv (fun src => if String.eqb src "b.png" then None else Some (640, 480)%Z)
                          "1/1/2026" "10:00:00 AM")
                   Sample.canvas "photo" [Sample.sticker "a" 1; Sample.sticker "b" 2]
                   eq_refl eq_refl) _).
  intros H. inversion H as [|? ? _ H']; subst. inversion H' as [|? ? Hb _]; subst.
  discriminate Hb.
Defined.

(** X24: when the base image and all sticker images decode, [addStickers]
    draws the base image and then every sticker once, by ascending z-index,
    stickers of equal z-index in their array order; the canvas takes the
    size of the base image and the context ends in its default state with
    nothing saved. *)
Theorem X24_addStickers_draws_in_stable_z_order :
  forall (env : Env) (cv : Canvas) (imageSrc : string) (stickers : list Sticker),
    has2d cv = true ->
    decodes env imageSrc = true ->
    Forall (fun s => decodes env (st_src s) = true) stickers ->
    exists c sorted,
      ImageProcessor.addStickers env (Some cv) imageSrc stickers = ImageProcessor.DataURL c
      /\ drawnSources (pixels c) = imageSrc :: map st_src sorted
      /\ zSorted sorted
      /\ Permutation sorted stickers
      /\ (forall k, filter (fun t => (zIndex t =? k)%Z) sorted
                    = filter (fun t => (zIndex t =? k)%Z) stickers)
      /\ state c = Ctx.defaultState /\ saved c = []
      /\ (forall img, loadImage env imageSrc = Some img ->
                      cv_width c = inject_Z (img_width img)
                      /\ cv_height c = inject_Z (img_height img)).
Proof.
  intros env cv imageSrc stickers Hctx Himg Hall.
  unfold ImageProcessor.addStickers. rewrite Hctx. simpl negb. cbv iota.
  apply loadImage_decodes in Himg. destruct Himg as [img Himg]. rewrite Himg.
  assert (Forall (fun s => decodes env (st_src s) = true)
            (ImageProcessor.sortByZIndex stickers)) as Hall'.
  { eapply Permutation_Forall; [apply Permutation_sym, sortByZIndex_perm | exact Hall]. }
  cbv zeta.
  match goal with
  | |- context [fold_left (ImageProcessor.stickerStep env) _ (?c0, _)] =>
      destruct (stickerSteps_all_decode env (ImageProcessor.sortByZIndex stickers) c0 0 Hall')
        as (c' & Hf & Hsrc & Hst & Hsv);
      pose proof (sameFrame_fold_addStickers env (ImageProcessor.sortByZIndex stickers) c0 0)
        as Hdim
  end.
  rewrite Hf in Hdim. rewrite Hf. simpl. rewrite Nat.eqb_refl.
  exists c', (ImageProcessor.sortByZIndex stickers).
  split; [reflexivity |].
  split; [rewrite Hsrc; cbn; now rewrite (loadImage_src _ _ _ Himg) |].
  split; [apply sortByZIndex_sorted |].
  split; [apply sortByZIndex_perm |].
  split; [intros k; apply sortByZIndex_stable |].
  split; [rewrite Hst; reflexivity |].
  split; [rewrite Hsv; reflexivity |].
  intros img' E. injection E as <-. exact Hdim.
Qed.

Lemma X24_witness :
  exists c sorted,
    ImageProcessor.addStickers (Sample.env "10:00:00 AM") (Some Sample.canvas) "photo"
      [Sample.sticker "b" 2; Sample.sticker "a" 1] = ImageProcessor.DataURL c
    /\ drawnSources (pixels c) = "photo" :: map st_src sorted
    /\ zSorted sorted.
Proof.
  destruct (X24_addStickers_draws_in_stable_z_order (Sample.env "10:00:00 AM")
              Sample.canvas "photo" [Sample.sticker "b" 2; Sample.sticker "a" 1]
              eq_refl eq_refl (Forall_cons _ eq_refl (Forall_cons _ eq_refl (Forall_nil _))))
    as (c & sorted & H1 & H2 & H3 & _).
  exists c, sorted. split; [exact H1 | split; [exact H2 | exact H3]].
Defined.

(** ** [addFrame]: where the photo lands on the frame *)

Section FrameGeometry.

Import Processor.

Lemma Math_min_cases a b :
  (a <= b /\ Math_min a b = a) \/ (b <= a /\ Math_min a b = b).
Proof.
  unfold Math_min. destruct (Qle_bool a b) eqn:E.
  - left. split; [now apply Qle_bool_iff | reflexivity].
  - right. split; [| reflexivity].
    apply Qlt_le_weak, Qnot_le_lt. intros H. apply Qle_bool_iff in H. congruence.
Qed.

Lemma framePlacement_geometry fw fh iw ih :
  0 < fw -> 0 < fh -> 0 < iw -> 0 < ih ->
  let p := framePlacement fw fh iw ih in
  rw p * ih == rh p * iw
  /\ rw p <= (8 # 10) * fw /\ rh p <= (8 # 10) * fh
  /\ (rw p == (8 # 10) * fw \/ rh p == (8 # 10) * fh)
  /\ rx p + rw p + rx p == fw /\ ry p + rh p + ry p == fh
  /\ within p (fw, fh).
Proof.
  intros Hfw Hfh Hiw Hih p.
  set (a := fw * (8 # 10) / iw). set (b := fh * (8 # 10) / ih).
  assert (iw * a == (8 # 10) * fw) as Ha by (unfold a; field; lra).
  assert (ih * b == (8 # 10) * fh) as Hb by (unfold b; field; lra).
  assert (0 < a) as Hapos.
  { unfold a. apply Qlt_shift_div_l; [exact Hiw | lra]. }
  assert (0 < b) as Hbpos.
  { unfold b. apply Qlt_shift_div_l; [exact Hih | lra]. }
  unfold p, framePlacement, frameScale. fold a b. cbv zeta. cbn [rx ry rw rh].
  unfold within. cbn [fst snd rx ry rw rh].
  destruct (Math_min_cases a b) as [[Hle ->] | [Hle ->]].
  - assert (ih * a <= ih * b) as H1.
    { rewrite (Qmult_comm ih a), (Qmult_comm ih b). apply Qmult_le_compat_r; lra. }
    assert (0 < ih * a) as H2 by (apply Qmult_lt_0_compat; assumption).
    assert ((fw - iw * a) / 2 == (fw - iw * a) * (1 # 2)) as -> by field.
    assert ((fh - ih * a) / 2 == (fh - ih * a) * (1 # 2)) as -> by field.
    split; [ring |]. split; [lra |]. split; [lra |]. split; [left; lra |].
    split; [lra |]. split; [lra |]. repeat split; lra.
  - assert (iw * b <= iw * a) as H1.
    { rewrite (Qmult_comm iw a), (Qmult_comm iw b). apply Qmult_le_compat_r; lra. }
    assert (0 < iw * b) as H2 by (apply Qmult_lt_0_compat; assumption).
    assert ((fw - iw * b) / 2 == (fw - iw * b) * (1 # 2)) as -> by field.
    assert ((fh - ih * b) / 2 == (fh - ih * b) * (1 # 2)) as -> by field.
    split; [ring |]. split; [lra |]. split; [lra |]. split; [right; lra |].
    split; [lra |]. split; [lra |]. repeat split; lra.
Qed.

End FrameGeometry.

(** X25: when the photo and the frame image decode, with positive sizes,
    [addFrame] returns a canvas of the frame's size with the frame drawn
    first and the photo on top of it.  The photo keeps its aspect ratio, is
    centred on the frame, lies within it, and fills 80 percent of the
    frame's width or of its height without exceeding 80 percent of
    either. *)
Theorem X25_addFrame_centres_the_photo_in_the_frame :
  forall (env : Env) (cv : Canvas) (imageSrc : string) (frame : Processor.Frame)
         (iw ih fw fh : Z),
    has2d cv = true ->
    decode env imageSrc = Some (iw, ih) ->
    decode env (Processor.fr_src frame) = Some (fw, fh) ->
    (0 < iw)%Z -> (0 < ih)%Z -> (0 < fw)%Z -> (0 < fh)%Z ->
    exists c p,
      Processor.addFrame env (Some cv) imageSrc frame = ImageProcessor.DataURL c
      /\ cv_width c = inject_Z fw /\ cv_height c = inject_Z fh
      /\ drawnSources (pixels c) = [Processor.fr_src frame; imageSrc]
      /\ drawnRects (pixels c) = [mkRect 0 0 (inject_Z fw) (inject_Z fh); p]
      /\ rw p * inject_Z ih == rh p * inject_Z iw
      /\ rw p <= (8 # 10) * inject_Z fw /\ rh p <= (8 # 10) * inject_Z fh
      /\ (rw p == (8 # 10) * inject_Z fw \/ rh p == (8 # 10) * inject_Z fh)
      /\ rx p + rw p + rx p == inject_Z fw /\ ry p + rh p + ry p == inject_Z fh
      /\ within p (inject_Z fw, inject_Z fh).
Proof.
  intros env cv imageSrc frame iw ih fw fh Hctx Himg Hframe Hiw Hih Hfw Hfh.
  unfold Processor.addFrame. rewrite Hctx. simpl negb. cbv iota.
  unfold loadImage. rewrite Himg, Hframe. cbv zeta. cbn [img_width img_height].
  eexists. exists (Processor.framePlacement (inject_Z fw) (inject_Z fh) (inject_Z iw) (inject_Z ih)).
  split; [reflexivity |].
  split; [reflexivity |]. split; [reflexivity |].
  split; [reflexivity |].
  split.
  { destruct (Processor.framePlacement (inject_Z fw) (inject_Z fh) (inject_Z iw) (inject_Z ih));
      reflexivity. }
  apply framePlacement_geometry; rewrite <- (Zlt_Qlt 0); assumption.
Qed.

Lemma X25_witness :
  exists c p,
    Processor.addFrame
      (mkEnv (fun src => if String.eqb src "frame" then Some (1000, 1000)%Z
                         else Some (1920, 1080)%Z) "1/1/2026" "10:00:00 AM")
      (Some Sample.canvas) "photo" (Processor.mkFrame "f" "F" "frame")
    = ImageProcessor.DataURL c
    /\ drawnRects (pixels c) = [mkRect 0 0 (inject_Z 1000) (inject_Z 1000); p]
    /\ within p (inject_Z 1000, inject_Z 1000).
Proof.
  destruct (X25_addFrame_centres_the_photo_in_the_frame
              (mkEnv (fun src => if String.eqb src "frame" then Some (1000, 1000)%Z
                                 else Some (1920, 1080)%Z) "1/1/2026" "10:00:00 AM")
              Sample.canvas "photo" (Processor.mkFrame "f" "F" "frame")
              1920 1080 1000 1000 eq_refl eq_refl eq_refl
              eq_refl eq_refl eq_refl eq_refl)
    as (c & p & H1 & _ & _ & _ & H5 & _ & _ & _ & _ & _ & _ & H12).
  exists c, p. split; [exact H1 | split; [exact H5 | exact H12]].
Defined.

(** ** [createPhotoStrip] of the processor, and file names *)

Section PhotoStrip.

Import Processor.

Lemma drawnRects_app l1 l2 :
  drawnRects (l1 ++ l2) = (drawnRects l1 ++ drawnRects l2)%list.
Proof. unfold drawnRects. apply flat_map_app. Qed.

Lemma stripSteps_count env count l : forall c n idx,
  snd (fst (fold_left (stripStep env count) l (c, n, idx)))
  = (n + length (filter (decodes env) l))%nat.
Proof.
  induction l as [|src l IH]; intros c n idx; simpl; [lia |].
  destruct (decodes env src) eqn:Ed.
  - apply loadImage_decodes in Ed. destruct Ed as [img ->].
    rewrite IH. simpl. lia.
  - destruct (loadImage env src) as [img|] eqn:El.
    + assert (decodes env src = true) by (apply loadImage_decodes; now exists img).
      congruence.
    + now rewrite IH.
Qed.

Lemma stripSteps_all_decode env count l : forall c n idx,
  Forall (fun src => decodes env src = true) l ->
  let c' := fst (fst (fold_left (stripStep env count) l (c, n, idx))) in
  drawnSources (pixels c') = (drawnSources (pixels c) ++ l)%list
  /\ drawnRects (pixels c')
     = (drawnRects (pixels c) ++ map (stripRect count) (seq idx (length l)))%list
  /\ cv_width c' = cv_width c /\ cv_height c' = cv_height c.
Proof.
  induction l as [|src l IH]; intros c n idx Hall; simpl.
  - rewrite !app_nil_r. repeat split; reflexivity.
  - inversion Hall as [|? ? Hs Hl]; subst.
    apply loadImage_decodes in Hs. destruct Hs as [img Himg]. rewrite Himg.
    destruct (IH (stripOnload count idx img c) (S n) (S idx) Hl) as (H1 & H2 & H3 & H4).
    cbv zeta in *. rewrite H1, H2, H3, H4.
    unfold stripOnload, Ctx.drawImage5, Ctx.emit. cbn [pixels cv_width cv_height].
    rewrite drawnSources_app, drawnRects_app, <- !app_assoc. cbn.
    rewrite (loadImage_src _ _ _ Himg).
    repeat split; reflexivity.
Qed.

Lemma replaceColonDot_clean s : noColonDot (replaceColonDot s).
Proof.
  induction s as [|c s IH]; simpl; [exact I |].
  destruct (Ascii.eqb c ":") eqn:E1; simpl.
  - repeat split; [discriminate | discriminate | exact IH].
  - destruct (Ascii.eqb c ".") eqn:E2; simpl.
    + repeat split; [discriminate | discriminate | exact IH].
    + apply Ascii.eqb_neq in E1. apply Ascii.eqb_neq in E2. repeat split; assumption.
Qed.

Lemma replaceColonDot_length s : String.length (replaceColonDot s) = String.length s.
Proof. induction s as [|c s IH]; simpl; [reflexivity | now rewrite IH]. Qed.

Lemma replaceColonDot_id s : noColonDot s -> replaceColonDot s = s.
Proof.
  induction s as [|c s IH]; simpl; [reflexivity |].
  intros (H1 & H2 & H3). apply Ascii.eqb_neq in H1. apply Ascii.eqb_neq in H2.
  rewrite H1, H2. simpl. now rewrite IH.
Qed.

End PhotoStrip.

Section StripHeight.

(** The canvas height kept: the integer part of 800 / n. *)
Lemma strip_height_attribute n :
  (0 < n)%nat ->
  Processor.toUnsignedLong (Processor.stripWidth / PhotoCanvas.ofNat n)
  = inject_Z (800 / Z.of_nat n).
Proof.
  intros H. destruct n as [|n]; [lia |].
  unfold Processor.toUnsignedLong, Processor.stripWidth, PhotoCanvas.ofNat.
  f_equal.
Qed.

(** When n divides 800 the side of a square is a whole number. *)
Lemma strip_side_whole n :
  (0 < n)%nat -> (Z.of_nat n | 800)%Z ->
  Processor.stripWidth / PhotoCanvas.ofNat n == inject_Z (800 / Z.of_nat n).
Proof.
  intros H [k Hk]. unfold Processor.stripWidth, PhotoCanvas.ofNat.
  assert (Z.of_nat n <> 0)%Z as Hz by lia.
  assert (800 / Z.of_nat n = k)%Z as ->.
  { rewrite Hk. apply Z.div_mul. exact Hz. }
  assert (800 == inject_Z k * inject_Z (Z.of_nat n)) as E.
  { rewrite <- inject_Z_mult, <- Hk. reflexivity. }
  rewrite E. field. intros E0. apply Hz.
  apply inject_Z_injective. exact E0.
Qed.

End StripHeight.

(** X26: [createPhotoStrip] resolves exactly when it is given at least one
    photo and all photos decode; with no photo, or one that does not decode,
    the promise stays pending for ever.  When it resolves, the canvas is 800
    wide, its height is the integer part of 800 / n, and the photos are
    drawn in order.  When n divides 800, so that every coordinate is a whole
    number, photo i is drawn into the square of side 800 / n at
    x = (800 / n) * i, y = 0: the squares start at the left edge, follow one
    another without gap or overlap and end at x = 800, and the canvas is as
    high as a square. *)
Theorem X26_createPhotoStrip_tiles_the_strip :
  forall (env : Env) (photos : list string),
    let n := length photos in
    (photos <> [] -> Forall (fun src => decodes env src = true) photos ->
     exists c,
       Processor.createPhotoStrip env photos = ImageProcessor.DataURL c
       /\ cv_width c = 800
       /\ cv_height c = inject_Z (800 / Z.of_nat n)
       /\ drawnSources (pixels c) = photos
       /\ ((Z.of_nat n | 800)%Z ->
           let side := inject_Z (800 / Z.of_nat n) in
           drawnRects (pixels c) = map (stripRect n) (seq 0 n)
           /\ (forall i, rx (stripRect n i) == side * PhotoCanvas.ofNat i
                         /\ ry (stripRect n i) == 0
                         /\ rw (stripRect n i) == side
                         /\ rh (stripRect n i) == side)
           /\ side * PhotoCanvas.ofNat n == 800))
    /\ (~ Forall (fun src => decodes env src = true) photos ->
        Processor.createPhotoStrip env photos = ImageProcessor.Pending)
    /\ Processor.createPhotoStrip env [] = ImageProcessor.Pending.
Proof.
  intros env photos n. split; [| split; [| reflexivity]].
  - intros Hne Hall. unfold Processor.createPhotoStrip. fold n. cbv zeta.
    assert (0 < n)%nat as Hn0.
    { unfold n. destruct photos; [contradiction | simpl; lia]. }
    rewrite (strip_height_attribute n Hn0).
    match goal with
    | |- context [fold_left (Processor.stripStep env n) photos (?c0, _, _)] =>
        pose proof (stripSteps_count env n photos c0 0 0) as Hn;
        pose proof (stripSteps_all_decode env n photos c0 0 0 Hall) as Hd;
        destruct (fold_left (Processor.stripStep env n) photos (c0, 0%nat, 0%nat))
          as [[c' loaded] idx]
    end.
    cbn [fst snd] in Hn, Hd. cbv zeta in Hd. destruct Hd as (H1 & H2 & H3 & H4).
    assert (loaded = n) as ->.
    { rewrite Hn. simpl. now apply filter_length_all. }
    destruct photos as [|p ps]; [contradiction |].
    rewrite Nat.eqb_refl. exists c'.
    split; [reflexivity |]. split; [exact H3 |]. split; [exact H4 |].
    split; [exact H1 |].
    intros Hdiv. split; [exact H2 |].
    pose proof (strip_side_whole n Hn0 Hdiv) as Hside.
    split.
    + intros i. unfold stripRect. cbn [rx ry rw rh].
      rewrite Hside. repeat split; reflexivity.
    + rewrite <- Hside. unfold Processor.stripWidth. field.
      intros E. unfold PhotoCanvas.ofNat in E.
      assert (Z.of_nat n = 0)%Z by (apply inject_Z_injective; exact E). lia.
  - intros Hall. unfold Processor.createPhotoStrip. fold n. cbv zeta.
    match goal with
    | |- context [fold_left (Processor.stripStep env n) photos (?c0, _, _)] =>
        pose proof (stripSteps_count env n photos c0 0 0) as Hn;
        destruct (fold_left (Processor.stripStep env n) photos (c0, 0%nat, 0%nat))
          as [[c' loaded] idx]
    end.
    cbn [fst snd] in Hn.
    assert (Nat.eqb loaded n = false) as E.
    { apply Nat.eqb_neq. intros E. rewrite Hn in E. simpl Nat.add in E.
      apply filter_length_all in E. contradiction. }
    rewrite E. now destruct photos.
Qed.

Lemma X26_witness :
  exists c,
    Processor.createPhotoStrip (Sample.env "10:00:00 AM") ["a"; "b"; "c"; "d"]
    = ImageProcessor.DataURL c
    /\ cv_height c = 200
    /\ drawnSources (pixels c) = ["a"; "b"; "c"; "d"]
    /\ drawnRects (pixels c) = map (stripRect 4) (seq 0 4).
Proof.
  destruct (proj1 (X26_createPhotoStrip_tiles_the_strip (Sample.env "10:00:00 AM")
                     ["a"; "b"; "c"; "d"]))
    as (c & H1 & _ & H3 & H4 & H5).
  - discriminate.
  - repeat constructor.
  - exists c. split; [exact H1 |]. split; [exact H3 |]. split; [exact H4 |].
    apply H5. exists 200%Z. reflexivity.
Defined.

(** X27: a generated file name is the prefix (photobooth if none is
    given), a hyphen, the timestamp and the extension .jpg; the timestamp
    part is as long as the ISO time it comes from and holds no colon and no
    full stop, and an ISO time without either is taken over unchanged. *)
Theorem X27_generateFilename_has_a_clean_timestamp :
  forall (iso : string) (prefix : option string),
    exists timestamp,
      Processor.generateFilename iso prefix
      = orElse prefix "photobooth" ++ "-" ++ timestamp ++ ".jpg"
      /\ noColonDot timestamp
      /\ String.length timestamp = String.length iso
      /\ (noColonDot iso -> timestamp = iso).
Proof.
  intros iso prefix. exists (Processor.replaceColonDot iso).
  split; [reflexivity |].
  split; [apply replaceColonDot_clean |].
  split; [apply replaceColonDot_length | apply replaceColonDot_id].
Qed.

(** ** The preview against the export *)

Section Preview.

Import PhotoCanvas.

Lemma or_idem x : JS.or x x = x.
Proof. unfold JS.or. now destruct (JS.truthy x). Qed.

Lemma previewSrc_is_photoSrc photo i :
  JS.or (JS.or (srcOf (nth_error (photos photo) i)) (srcOf (nth_error (photos photo) 0)))
        (srcOf (primaryPhoto photo))
  = photoSrc photo i.
Proof.
  destruct photo as [p | ps]; unfold photoSrc, primaryPhoto; cbn [photos]; [| reflexivity].
  destruct i as [|i]; simpl nth_error.
  - now rewrite !or_idem.
  - destruct i; simpl nth_error; simpl srcOf;
      rewrite (or_falsy None) by reflexivity; now rewrite or_idem.
Qed.

Lemma photoSrc_first photo : photoSrc photo 0 = srcOf (primaryPhoto photo).
Proof.
  destruct photo as [p | ps]; unfold photoSrc, primaryPhoto; cbn [photos]; [reflexivity |].
  now rewrite !or_idem.
Qed.

End Preview.

(** X28: the preview shows as many photo boxes as the export has slots,
    and box by box the same photo source as the export's slot, so the filler
    rule is the same in both.  Every box is styled with the preview filter
    and holds all stickers, so with n boxes the preview shows each sticker n
    times where the export draws it once. *)
Theorem X28_preview_boxes_match_export_slots :
  forall (photo : PhotoProp) (selectedLayout : option FrameLayout)
         (stickers : list Sticker) (appliedFilters : AppliedFilters),
    let n := PhotoCanvas.photoCountOf selectedLayout in
    let boxes := Editor.createPhotoStrip photo selectedLayout stickers appliedFilters in
    length boxes = n
    /\ map Editor.slot_src boxes = map (PhotoCanvas.photoSrc photo) (seq 0 n)
    /\ Forall (fun b => Editor.slot_filter b = PhotoCanvas.getImageStyle appliedFilters
                        /\ Editor.slot_stickers b = stickers) boxes
    /\ length (flat_map Editor.slot_stickers boxes) = (n * length stickers)%nat.
Proof.
  intros photo sl stickers a n boxes.
  unfold boxes, Editor.createPhotoStrip. fold n.
  destruct (Nat.eqb n 1) eqn:E.
  - apply Nat.eqb_eq in E. rewrite E.
    cbn [length map seq flat_map Editor.slot_src Editor.slot_stickers].
    split; [reflexivity |].
    split; [now rewrite photoSrc_first |].
    split; [repeat constructor |].
    rewrite app_nil_r. lia.
  - cbv zeta.
    split; [now rewrite length_map, length_seq |].
    split.
    { rewrite map_map. apply map_ext. intros i. cbn [Editor.slot_src].
      apply previewSrc_is_photoSrc. }
    split.
    { apply Forall_forall. intros b Hb. apply in_map_iff in Hb.
      destruct Hb as [i [<- _]]. split; reflexivity. }
    rewrite flat_map_concat_map, map_map. cbn [Editor.slot_stickers].
    clear E. generalize 0%nat. induction n as [|k IH]; intros m; simpl; [reflexivity |].
    rewrite length_app, IH. reflexivity.
Qed.

Lemma X5_witness :
  FilterPanel.handleAdvancedFilterChange
    (FilterPanel.handleAdvancedFilterChange FilterPanel.handleReset "blur" 1%Z) "blur" 2%Z
  = FilterPanel.handleAdvancedFilterChange FilterPanel.handleReset "blur" 2%Z.
Proof.
  exact (proj1 (X5_advanced_change_last_write_wins FilterPanel.handleReset "blur" 1%Z 2%Z)).
Defined.

Lemma X10_witness :
  zSorted (Page.handleRemoveSticker [Sample.sticker "a" 1; Sample.sticker "b" 2] "a").
Proof.
  refine (proj1 (proj2 (proj2 (proj2 (X10_remove_sticker
                                        [Sample.sticker "a" 1; Sample.sticker "b" 2] "a")))) _).
  repeat constructor. simpl. lia.
Defined.

Lemma X11_witness :
  Page.handleUpdateSticker [Sample.sticker "a" 1] "b"
    (mkStickerUpdates None None None (Some 7) None None None None None)
  = [Sample.sticker "a" 1].
Proof.
  refine (proj1 (proj2 (proj2 (X11_update_sticker [Sample.sticker "a" 1] "b"
                                 (mkStickerUpdates None None None (Some 7) None None None
                                    None None)))) _).
  simpl. intros [H | []]. discriminate H.
Defined.

Lemma X27_witness :
  exists timestamp,
    Processor.generateFilename "2026-01-01T10:00:00.000Z" None
    = "photobooth" ++ "-" ++ timestamp ++ ".jpg"
    /\ noColonDot timestamp.
Proof.
  destruct (X27_generateFilename_has_a_clean_timestamp "2026-01-01T10:00:00.000Z" None)
    as (t & H1 & H2 & _).
  exists t. split; [exact H1 | exact H2].
Defined.
